(** * KP-RHI backend: task status resolution and the assignment-request workflow

    Shallow embedding of [controllers/taskControllers.js] and
    [controllers/taskAssignmentController.js].

    Conventions of the embedding.
    - A Mongo [ObjectId] is a natural number; [toString] on ids is injective,
      so the JS object keyed by [id.toString()] is a [gmap] keyed by the id.
    - A collection is the list of its documents in insertion (natural) order,
      which is the order of [createdAt]; [find] filters it, [findById] returns
      the document with that [_id], [save] writes the document back under its
      [_id], [create] appends a document under a freshly generated id.
    - Only the attributes read or written by the modelled handlers are kept in
      the records: description, attachments, location and the display
      attributes of users play no part in them.  The [dueDate] of a task is
      read by the sort of [getTasks] and by the dashboards only; they take it
      as a function of the task's id.
    - [populate] swaps a user reference for the user document, which carries
      the same [_id]; the handlers read nothing else from it, so a populated
      user is represented by its id.  A reference whose user document does not
      exist is dropped from a populated array.
    - [Math.round ((c / t) * 100)] is computed on binary64 numbers in the
      source; the embedding takes the quotient exactly and takes as a
      parameter what the binary64 evaluation does at an exact half.
      [Binary64.reachesHalf] is that parameter as the source has it.
    - [$regex] matching on titles is done by the store; [getTasks] takes it as
      a parameter. *)

From Stdlib Require PrimInt63 PrimFloat Sorting.Sorted.
From stdpp Require Import base decidable option list gmap strings sorting.

Open Scope nat_scope.

Abbreviation ObjectId := nat (only parsing).

(** ** Data model *)

Inductive TaskStatus : Set :=
  | Pending | InProgress | Completed | Rejected | PendingApproval.

Inductive RequestStatus : Set :=
  | ReqPending | ReqApproved | ReqRejected.

Inductive Priority : Set := Low | Medium | High.

Inductive Role : Set := admin | member.

#[global] Instance TaskStatus_eq_dec : EqDecision TaskStatus.
Proof. solve_decision. Defined.
#[global] Instance RequestStatus_eq_dec : EqDecision RequestStatus.
Proof. solve_decision. Defined.
#[global] Instance Priority_eq_dec : EqDecision Priority.
Proof. solve_decision. Defined.
#[global] Instance Role_eq_dec : EqDecision Role.
Proof. solve_decision. Defined.

Record ChecklistItem : Set := mkItem {
  text : string;
  completed : bool
}.

Record Task : Set := mkTask {
  _id : ObjectId;
  title : string;
  priority : Priority;
  assignedTo : list ObjectId;
  todoChecklist : list ChecklistItem;
  progress : nat;
  status : TaskStatus
}.

Record TaskAssignmentRequest : Set := mkRequest {
  req_id : ObjectId;
  taskId : ObjectId;
  assignedByAdminId : ObjectId;
  assignedToUserId : ObjectId;
  req_status : RequestStatus;
  rejectionReason : option string
}.

(** The authenticated caller, [req.user]. *)
Record Caller : Set := mkCaller {
  caller_id : ObjectId;
  role : Role
}.

(** The three collections and the id generator of the driver. *)
Record Store : Set := mkStore {
  tasks : list Task;
  requests : list TaskAssignmentRequest;
  users : list ObjectId;
  nextId : ObjectId
}.

Definition set_assignedTo (t : Task) (l : list ObjectId) : Task :=
  mkTask (_id t) (title t) (priority t) l (todoChecklist t) (progress t) (status t).

Definition set_status (t : Task) (s : TaskStatus) : Task :=
  mkTask (_id t) (title t) (priority t) (assignedTo t) (todoChecklist t)
         (progress t) s.

(** The status and priority strings of the documents. *)
Definition statusName (s : TaskStatus) : string :=
  match s with
  | Pending => "Pending"
  | InProgress => "In Progress"
  | Completed => "Completed"
  | Rejected => "Rejected"
  | PendingApproval => "Pending Approval"
  end.

Definition priorityName (p : Priority) : string :=
  match p with
  | Low => "Low"
  | Medium => "Medium"
  | High => "High"
  end.

(** [x || null] on an optional string, and the test [if (x)]: the empty
    string is falsy. *)
Definition orNull (x : option string) : option string :=
  match x with
  | Some s => if bool_decide (s = EmptyString) then None else Some s
  | None => None
  end.

(** ** Responses

    Every early [return res.status(..).json({ message })] of the handlers,
    with its HTTP code and the error kind it stands for. *)

Inductive Failure : Set :=
  | TaskNotFound              (* 404 "Task not found" *)
  | RequestNotFound           (* 404 "Assignment request not found" *)
  | UsersNotFound             (* 404 "One or more assigned users not found" *)
  | NotAuthorizedToRespond    (* 403 "Not authorized to respond to this request" *)
  | NotAuthorizedToUpdate     (* 403 "You are not authorized to update this task" *)
  | ChecklistOfRejectedTask   (* 403 "Cannot update checklist of a rejected task" *)
  | PendingRequestExists      (* 400 "Pending assignment request already exists" *)
  | InvalidAction             (* 400 "Invalid action" *)
  | InvalidUserIds            (* 400 "Invalid userIds" *)
  | AssignedToNotArray.       (* 400 "assignedTo must be an array of user IDs" *)

Definition httpCode (f : Failure) : nat :=
  match f with
  | TaskNotFound | RequestNotFound | UsersNotFound => 404
  | NotAuthorizedToRespond | NotAuthorizedToUpdate | ChecklistOfRejectedTask => 403
  | PendingRequestExists | InvalidAction | InvalidUserIds | AssignedToNotArray => 400
  end.

Inductive ErrorKind : Set := NotFound | Forbidden | Conflict | InvalidInput.

Definition errorKind (f : Failure) : ErrorKind :=
  match f with
  | TaskNotFound | RequestNotFound | UsersNotFound => NotFound
  | NotAuthorizedToRespond | NotAuthorizedToUpdate | ChecklistOfRejectedTask => Forbidden
  | PendingRequestExists => Conflict
  | InvalidAction | InvalidUserIds | AssignedToNotArray => InvalidInput
  end.

Inductive Response (A : Type) : Type :=
  | Json (payload : A)
  | Fail (f : Failure).
Arguments Json {A} payload.
Arguments Fail {A} f.

(** ** Persistence gateway *)

(** A collection of documents identified by [key]. *)
Section Collection.
Context {A : Type} (key : A → ObjectId).

Definition findById (docs : list A) (id : ObjectId) : option A :=
  List.find (λ d, bool_decide (key d = id)) docs.

Definition save (docs : list A) (d : A) : list A :=
  (λ x, if bool_decide (key x = key d) then d else x) <$> docs.
End Collection.

Definition Task_findById (st : Store) (id : ObjectId) : option Task :=
  findById _id (tasks st) id.

Definition Task_save (st : Store) (t : Task) : Store :=
  mkStore (save _id (tasks st) t) (requests st) (users st) (nextId st).

Definition Request_findById (st : Store) (id : ObjectId)
  : option TaskAssignmentRequest :=
  findById req_id (requests st) id.

Definition Request_save (st : Store) (r : TaskAssignmentRequest) : Store :=
  mkStore (tasks st) (save req_id (requests st) r) (users st) (nextId st).

(** [TaskAssignmentRequest.find({ taskId })]. *)
Definition Request_find_byTask (st : Store) (tid : ObjectId)
  : list TaskAssignmentRequest :=
  filter (λ r, taskId r = tid) (requests st).

(** [Task.countDocuments({ assignedTo: userId, priority: "High",
    status: { $ne: "Completed" } })]. *)
Definition countHighPriorityTasks (st : Store) (userId : ObjectId) : nat :=
  length (filter (λ t, userId ∈ assignedTo t ∧ priority t = High
                       ∧ status t ≠ Completed) (tasks st)).

(** [.populate("assignedTo", ...)] on a task document: every reference of the
    array is swapped for its user document, and a reference for which the
    users collection holds no document is dropped.  Both [task.assignedTo] and
    [task._doc.assignedTo] then hold the user documents. *)
Definition populate (st : Store) (task : Task) : Task :=
  set_assignedTo task (filter (λ u, u ∈ users st) (assignedTo task)).

(** ** Status resolution on the listing path ([getTasks], lines 67-199) *)

Record AssignmentInfo : Set := mkInfo {
  info_status : RequestStatus;
  info_rejectionReason : option string
}.

(** [assignmentRequests.forEach(req => assignmentMap[uid] = {...})]: a later
    request of the same candidate overwrites the earlier entry. *)
Definition buildAssignmentMap (assignmentRequests : list TaskAssignmentRequest)
  : gmap nat AssignmentInfo :=
  foldl (λ m r, <[assignedToUserId r := mkInfo (req_status r) (rejectionReason r)]> m)
        ∅ assignmentRequests.

(** [Object.values(assignmentMap)]. *)
Definition Object_values (m : gmap nat AssignmentInfo) : list AssignmentInfo :=
  snd <$> map_to_list m.

(** [assignmentMap[userId]?.status === s]. *)
Definition statusIs (m : gmap nat AssignmentInfo) (userId : ObjectId)
    (s : RequestStatus) : bool :=
  match m !! userId with
  | Some req => bool_decide (info_status req = s)
  | None => false
  end.

Definition hasPending (m : gmap nat AssignmentInfo) : bool :=
  existsb (λ req, bool_decide (info_status req = ReqPending)) (Object_values m).

Definition hasApproved (m : gmap nat AssignmentInfo) : bool :=
  existsb (λ req, bool_decide (info_status req = ReqApproved)) (Object_values m).

(** A property name under which [assignmentMap] is read.  The map is filled
    under [req.assignedToUserId.toString()], the string of an id; [toString()]
    of a user document is the rendering of the whole document, which is the
    string of no id. *)
Inductive PropertyName : Set :=
  | IdString (id : ObjectId)
  | DocumentString (user : ObjectId).

(** [assignmentMap[name]]. *)
Definition lookupName (m : gmap nat AssignmentInfo) (name : PropertyName)
  : option AssignmentInfo :=
  match name with
  | IdString id => m !! id
  | DocumentString _ => None
  end.

(** [task] is the populated document of the [tasks.map] callback, so
    [task._doc.assignedTo.map((id) => id.toString())] takes [toString()] of
    user documents. *)
Definition allRejected (task : Task) (m : gmap nat AssignmentInfo) : bool :=
  let originalAssignedToIds := DocumentString <$> assignedTo task in
  bool_decide (0 < length originalAssignedToIds)
  && forallb (λ userId,
                match lookupName m userId with
                | Some req => bool_decide (info_status req = ReqRejected)
                | None => false
                end) originalAssignedToIds.

(** [task.assignedTo[0]._id.toString()] is the string of the id of the first
    populated user. *)
Definition singleUserRejected (task : Task) (m : gmap nat AssignmentInfo) : bool :=
  bool_decide (length (assignedTo task) = 1)
  && match assignedTo task !! 0 with
     | Some u => statusIs m u ReqRejected
     | None => false
     end.

Definition todoStarted (task : Task) : bool :=
  existsb completed (todoChecklist task).

Definition allTodoCompleted (task : Task) : bool :=
  bool_decide (0 < length (todoChecklist task))
  && forallb completed (todoChecklist task).

(** The [let status = task.status; if ... else if ...] cascade, on the
    populated document [task]. *)
Definition resolveStatus (task : Task)
    (assignmentRequests : list TaskAssignmentRequest) : TaskStatus :=
  let assignmentMap := buildAssignmentMap assignmentRequests in
  if allRejected task assignmentMap || singleUserRejected task assignmentMap
  then Rejected
  else if hasPending assignmentMap then PendingApproval
  else if hasApproved assignmentMap && allTodoCompleted task then Completed
  else if hasApproved assignmentMap && todoStarted task then InProgress
  else if hasApproved assignmentMap && negb (todoStarted task) then Pending
  else status task.

(** One entry of the [assignedTo] array sent back by [getTasks]. *)
Record AssignedUserView : Set := mkUserView {
  view_user : ObjectId;
  rejected : bool;
  pending : bool;
  view_rejectionReason : option string
}.

Definition annotate (m : gmap nat AssignmentInfo) (user : ObjectId)
  : AssignedUserView :=
  mkUserView user (statusIs m user ReqRejected) (statusIs m user ReqPending)
             (orNull (m !! user ≫= info_rejectionReason)).

(** One element of [tasksWithAssignmentInfo]:
    [{ ...taskWithoutStatus, assignedTo, completedTodoCount, status }]. *)
Record TaskView : Set := mkTaskView {
  tv_id : ObjectId;
  tv_title : string;
  tv_priority : Priority;
  tv_todoChecklist : list ChecklistItem;
  tv_progress : nat;
  tv_assignedTo : list AssignedUserView;
  tv_completedTodoCount : nat;
  tv_status : TaskStatus
}.

(** The callback of [tasks.map(async (task) => ...)] in [getTasks]; [task] is
    a populated document, so [task.assignedTo] holds the assigned users whose
    user document exists. *)
Definition taskWithAssignmentInfo (st : Store) (task : Task) : TaskView :=
  let assignmentRequests := Request_find_byTask st (_id task) in
  let assignmentMap := buildAssignmentMap assignmentRequests in
  let assignedToFiltered :=
    List.filter (λ user,
      match assignmentMap !! user with
      | None => true
      | Some req =>
          bool_decide (info_status req = ReqApproved)
          || bool_decide (info_status req = ReqPending)
          || bool_decide (info_status req = ReqRejected)
      end) (assignedTo task) in
  let assignedToWithRejection := annotate assignmentMap <$> assignedToFiltered in
  let assignedToIds := assignedTo task in
  let pendingOrRejectedUserIds :=
    fst <$> List.filter (λ '(userId, req),
      (bool_decide (info_status req = ReqPending)
       || bool_decide (info_status req = ReqRejected))
      && negb (bool_decide (userId ∈ assignedToIds))) (map_to_list assignmentMap) in
  let extraUsers :=
    if bool_decide (0 < length pendingOrRejectedUserIds)
    then filter (λ u, u ∈ pendingOrRejectedUserIds) (users st)
    else [] in
  let completedCount :=
    length (filter (λ item, completed item = true) (todoChecklist task)) in
  mkTaskView (_id task) (title task) (priority task) (todoChecklist task)
             (progress task)
             (assignedToWithRejection ++ (annotate assignmentMap <$> extraUsers))
             completedCount
             (resolveStatus task assignmentRequests).

(** The query string of [getTasks]; a parameter is [None] when it is not
    given.  [assignedTo] is the string of a user id. *)
Record TaskQuery : Set := mkQuery {
  q_status : option string;
  q_sortBy : option string;
  q_sortOrder : option string;
  q_assignedTo : option ObjectId;
  q_search : option string
}.

(** The Mongo filter [{ status, assignedTo, title: { $regex, $options: "i" } }],
    each key optional. *)
Record TaskFilter : Set := mkFilter {
  f_status : option string;
  f_assignedTo : option ObjectId;
  f_title : option string
}.

(** [regexMatch pattern title] is the outcome of the store's case-insensitive
    [$regex] match of [pattern] against [title]. *)
Definition matchesFilter (regexMatch : string → string → bool)
    (f : TaskFilter) (t : Task) : bool :=
  match f_status f with
  | Some s => bool_decide (statusName (status t) = s)
  | None => true
  end
  && match f_assignedTo f with
     | Some u => bool_decide (u ∈ assignedTo t)
     | None => true
     end
  && match f_title f with
     | Some pattern => regexMatch pattern (title t)
     | None => true
     end.

Inductive SortField : Set := createdAt | dueDate.

(** [dueDateOf id] is the [dueDate] of task [id]. *)
Definition dueNoLater (dueDateOf : ObjectId → nat) (a b : Task) : Prop :=
  dueDateOf (_id a) ≤ dueDateOf (_id b).

Definition dueNoEarlier (dueDateOf : ObjectId → nat) (a b : Task) : Prop :=
  dueDateOf (_id b) ≤ dueDateOf (_id a).

#[global] Instance dueNoLater_dec dueDateOf : RelDecision (dueNoLater dueDateOf).
Proof. intros a b. unfold dueNoLater. apply _. Defined.
#[global] Instance dueNoEarlier_dec dueDateOf : RelDecision (dueNoEarlier dueDateOf).
Proof. intros a b. unfold dueNoEarlier. apply _. Defined.
#[global] Instance dueNoLater_total dueDateOf : Total (dueNoLater dueDateOf).
Proof. intros a b. unfold dueNoLater. lia. Defined.
#[global] Instance dueNoEarlier_total dueDateOf : Total (dueNoEarlier dueDateOf).
Proof. intros a b. unfold dueNoEarlier. lia. Defined.

(** [.sort({ [sortField]: sortDirection })].  The documents come from the
    collection in the order of [createdAt].  Among documents of equal
    [dueDate] the store promises no order, and the embedding keeps the one of
    its merge sort. *)
Definition sortTasks (dueDateOf : ObjectId → nat) (sortField : SortField)
    (ascending : bool) (docs : list Task) : list Task :=
  match sortField, ascending with
  | createdAt, true => docs
  | createdAt, false => reverse docs
  | dueDate, true => merge_sort (dueNoLater dueDateOf) docs
  | dueDate, false => merge_sort (dueNoEarlier dueDateOf) docs
  end.

Record StatusSummary : Set := mkSummary {
  all : nat;
  pendingTasks : nat;
  inProgressTasks : nat;
  completedTasks : nat
}.

Definition getTasks (regexMatch : string → string → bool)
    (dueDateOf : ObjectId → nat) (st : Store) (q : TaskQuery) (user : Caller)
  : list TaskView * StatusSummary :=
  let sortBy := default "createdAt"%string (q_sortBy q) in
  let sortOrder := default "desc"%string (q_sortOrder q) in
  let filter_status :=
    match orNull (q_status q) with
    | Some s => if bool_decide (s ≠ "All"%string) then Some s else None
    | None => None
    end in
  let filter_title := orNull (q_search q) in
  let sortField :=
    if bool_decide (sortBy ∈ ["createdAt"; "dueDate"]%string)
    then (if bool_decide (sortBy = "dueDate"%string) then dueDate else createdAt)
    else createdAt in
  let ascending :=
    if bool_decide (sortOrder ∈ ["asc"; "desc"]%string)
    then bool_decide (sortOrder = "asc"%string)
    else false in
  let statusFilter :=
    if bool_decide (role user = admin)
    then mkFilter filter_status (q_assignedTo q) filter_title
    else mkFilter filter_status (Some (caller_id user)) filter_title in
  let tasks_ :=
    populate st
      <$> sortTasks dueDateOf sortField ascending
            (List.filter (matchesFilter regexMatch statusFilter) (tasks st)) in
  let countDocuments f :=
    length (List.filter (matchesFilter regexMatch f) (tasks st)) in
  let withStatus s :=
    mkFilter (Some s) (f_assignedTo statusFilter) (f_title statusFilter) in
  (taskWithAssignmentInfo st <$> tasks_,
   mkSummary (countDocuments statusFilter)
             (countDocuments (withStatus "Pending"%string))
             (countDocuments (withStatus "In Progress"%string))
             (countDocuments (withStatus "Completed"%string))).

(** [getTaskById] sends the stored document, its [assignedTo] populated. *)
Definition getTaskById (st : Store) (id : ObjectId) : Response Task :=
  match Task_findById st id with
  | None => Fail TaskNotFound
  | Some task => Json (populate st task)
  end.

(** ** Overload check *)

(** The test [count >= 2] of [createTask] and [checkHighPriorityTasks]. *)
Definition isOverloaded (st : Store) (userId : ObjectId) : bool :=
  bool_decide (2 ≤ countHighPriorityTasks st userId).

(** A body field that is expected to be an array of user ids. *)
Inductive ArrayField : Set :=
  | Absent
  | NotAnArray
  | IdArray (ids : list ObjectId).

Definition checkHighPriorityTasks (st : Store) (userIds : ArrayField)
  : Response (list ObjectId) :=
  match userIds with
  | IdArray ids =>
      Json (foldl (λ usersWithHighPriorityTasks userId,
                     if isOverloaded st userId
                     then usersWithHighPriorityTasks ++ [userId]
                     else usersWithHighPriorityTasks) [] ids)
  | _ => Fail InvalidUserIds
  end.

(** ** Assignment workflow *)

Definition createTaskAssignmentRequest (st : Store)
    (tid assignedTo_user : ObjectId) (user : Caller)
  : Store * Response TaskAssignmentRequest :=
  let existingRequest :=
    List.find (λ r, bool_decide (taskId r = tid ∧ assignedToUserId r = assignedTo_user
                                 ∧ req_status r = ReqPending)) (requests st) in
  match existingRequest with
  | Some _ => (st, Fail PendingRequestExists)
  | None =>
      let newRequest :=
        mkRequest (nextId st) tid (caller_id user) assignedTo_user ReqPending None in
      (mkStore (tasks st) (requests st ++ [newRequest]) (users st) (S (nextId st)),
       Json newRequest)
  end.

Definition respond (r : TaskAssignmentRequest) (s : RequestStatus)
    (reason : option string) : TaskAssignmentRequest :=
  mkRequest (req_id r) (taskId r) (assignedByAdminId r) (assignedToUserId r) s reason.

(** The status written by the reject branch (lines 762-792). *)
Definition statusAfterReject (task : Task)
    (allRequests : list TaskAssignmentRequest) : TaskStatus :=
  let assignedUserIds := assignedTo task in
  let requestUserIds := assignedToUserId <$> allRequests in
  let directAssignedUserIds := filter (λ id, id ∉ requestUserIds) assignedUserIds in
  let directAssignedApprovedCount := length directAssignedUserIds in
  let approvedRequestsCount :=
    length (filter (λ r, req_status r = ReqApproved) allRequests) in
  let rejectedRequestsCount :=
    length (filter (λ r, req_status r = ReqRejected) allRequests) in
  let pendingRequestsCount :=
    length (filter (λ r, req_status r = ReqPending) allRequests) in
  if bool_decide (rejectedRequestsCount = length allRequests
                  ∧ directAssignedApprovedCount = 0)
  then Rejected
  else if bool_decide (0 < pendingRequestsCount) then PendingApproval
  else if bool_decide (0 < approvedRequestsCount + directAssignedApprovedCount)
  then Pending
  else PendingApproval.

Definition respondToAssignmentRequest (st : Store) (requestId : ObjectId)
    (user : Caller) (action : string) (reason : option string)
  : Store * Response TaskAssignmentRequest :=
  match Request_findById st requestId with
  | None => (st, Fail RequestNotFound)
  | Some request =>
    if bool_decide (assignedToUserId request ≠ caller_id user)
    then (st, Fail NotAuthorizedToRespond)
    else if bool_decide (action = "approve"%string) then
      match Task_findById st (taskId request) with
      | None => (st, Fail TaskNotFound)
      | Some task =>
          let st1 :=
            if bool_decide (assignedToUserId request ∈ assignedTo task) then st
            else Task_save st
                   (set_assignedTo task (assignedTo task ++ [assignedToUserId request])) in
          let request' := respond request ReqApproved None in
          (Request_save st1 request', Json request')
      end
    else if bool_decide (action = "reject"%string) then
      let request' := respond request ReqRejected (orNull reason) in
      let st1 := Request_save st request' in
      let allRequests := Request_find_byTask st1 (taskId request') in
      match Task_findById st1 (taskId request') with
      | Some task =>
          (Task_save st1 (set_status task (statusAfterReject task allRequests)),
           Json request')
      | None => (st1, Json request')
      end
    else (st, Fail InvalidAction)
  end.

(** ** Task handlers *)

(** Defaults that the Task schema (not part of the controllers) fills in on
    [Task.create] for the attributes the controller does not pass. *)
Record SchemaDefaults : Set := mkDefaults {
  default_priority : Priority;
  default_progress : nat;
  default_status : TaskStatus
}.

Record CreateTaskBody : Set := mkCreateBody {
  cb_title : string;
  cb_priority : option Priority;
  cb_assignedTo : ArrayField;
  cb_todoChecklist : list ChecklistItem
}.

(** The [for (const userId of assignedTo)] loop that fills
    [usersWithHighPriorityTasks] and [usersWithoutHighPriorityTasks]. *)
Definition partitionCandidates (st : Store) (candidates : list ObjectId)
  : list ObjectId * list ObjectId :=
  foldl (λ '(withHigh, withoutHigh) userId,
           if bool_decide (2 ≤ countHighPriorityTasks st userId)
           then (withHigh ++ [userId], withoutHigh)
           else (withHigh, withoutHigh ++ [userId]))
        ([], []) candidates.

Definition createTask (dflt : SchemaDefaults) (st : Store)
    (body : CreateTaskBody) (user : Caller)
  : Store * Response (Task * bool) :=
  match cb_assignedTo body with
  | IdArray candidates =>
      let '(usersWithHighPriorityTasks, usersWithoutHighPriorityTasks) :=
        partitionCandidates st candidates in
      let task :=
        mkTask (nextId st) (cb_title body)
               (default (default_priority dflt) (cb_priority body))
               usersWithoutHighPriorityTasks (cb_todoChecklist body)
               (default_progress dflt) (default_status dflt) in
      let st1 :=
        mkStore (tasks st ++ [task]) (requests st) (users st) (S (nextId st)) in
      let st2 :=
        foldl (λ s userId, fst (createTaskAssignmentRequest s (_id task) userId user))
              st1 usersWithHighPriorityTasks in
      (st2, Json (task, bool_decide (0 < length usersWithHighPriorityTasks)))
  | _ => (st, Fail AssignedToNotArray)
  end.

Record UpdateTaskBody : Set := mkUpdateBody {
  ub_title : option string;
  ub_priority : option Priority;
  ub_todoChecklist : option (list ChecklistItem);
  ub_assignedTo : ArrayField
}.

(** [updateTask]: the fields are overwritten one by one and the document is
    saved; [progress] and [status] are not among them. *)
Definition updateTask (st : Store) (id : ObjectId) (body : UpdateTaskBody)
  : Store * Response Task :=
  match Task_findById st id with
  | None => (st, Fail TaskNotFound)
  | Some task =>
    match ub_assignedTo body with
    | NotAnArray => (st, Fail AssignedToNotArray)
    | given =>
      let usersMissing :=
        match given with
        | IdArray ids =>
            let usersExist := filter (λ u, u ∈ ids) (users st) in
            bool_decide (length usersExist ≠ length ids)
        | _ => false
        end in
      if usersMissing then (st, Fail UsersNotFound)
      else
        let updatedTask :=
          mkTask (_id task)
                 (default (title task) (orNull (ub_title body)))
                 (default (priority task) (ub_priority body))
                 (match given with IdArray ids => ids | _ => assignedTo task end)
                 (default (todoChecklist task) (ub_todoChecklist body))
                 (progress task) (status task) in
        (Task_save st updatedTask, Json updatedTask)
    end
  end.

Definition complete (item : ChecklistItem) : ChecklistItem :=
  mkItem (text item) true.

Definition updateTaskStatus (st : Store) (id : ObjectId) (user : Caller)
    (newStatus : option TaskStatus) : Store * Response Task :=
  match Task_findById st id with
  | None => (st, Fail TaskNotFound)
  | Some task =>
    let isAssigned := existsb (λ userId, bool_decide (userId = caller_id user))
                              (assignedTo task) in
    if negb isAssigned && bool_decide (role user ≠ admin)
    then (st, Fail NotAuthorizedToUpdate)
    else
      let s := default (status task) newStatus in
      let task' :=
        if bool_decide (s = Completed)
        then mkTask (_id task) (title task) (priority task) (assignedTo task)
                    (complete <$> todoChecklist task) 100 s
        else set_status task s in
      (Task_save st task', Json task')
  end.

(** [Math.round((completedCount / totalItems) * 100)] for [totalItems > 0].
    The quotient and the product are binary64 operations.  Their rounding
    error is far below the distance from [100 * c / t] to the nearest
    half-integer, unless [100 * c / t] is itself a half-integer: there the
    computed double either reaches the half, and [Math.round] goes up, or
    falls just short of it, and [Math.round] goes down ([(23 / 40) * 100] is
    [57.49999999999999]).  [reachesHalf c t] stands for that outcome. *)
Definition roundPercent (reachesHalf : nat → nat → bool)
    (completedCount totalItems : nat) : nat :=
  let q := (200 * completedCount + totalItems) / (2 * totalItems) in
  if bool_decide ((200 * completedCount + totalItems) mod (2 * totalItems) = 0)
     && negb (reachesHalf completedCount totalItems)
  then q - 1
  else q.

(** The outcome at an exact half as the source has it: the binary64
    evaluation of [(completedCount / totalItems) * 100], compared with the
    half [q - 1/2] that the exact value is.  The integers involved are
    converted exactly. *)
Module Binary64.
Import PrimInt63 PrimFloat.

Fixpoint int_of_nat (n : nat) : int :=
  match n with
  | O => 0%uint63
  | S n => PrimInt63.add (int_of_nat n) 1%uint63
  end.

Definition float_of_nat (n : nat) : float := PrimFloat.of_uint63 (int_of_nat n).

Definition percent (completedCount totalItems : nat) : float :=
  PrimFloat.mul
    (PrimFloat.div (float_of_nat completedCount) (float_of_nat totalItems))
    (float_of_nat 100).

Definition reachesHalf (completedCount totalItems : nat) : bool :=
  let q := (200 * completedCount + totalItems) / (2 * totalItems) in
  let half :=
    PrimFloat.sub (float_of_nat q)
                  (PrimFloat.div (float_of_nat 1) (float_of_nat 2)) in
  negb (PrimFloat.ltb (percent completedCount totalItems) half).
End Binary64.

Definition progressOf (reachesHalf : nat → nat → bool)
    (todoChecklist : list ChecklistItem) : nat :=
  let completedCount := length (filter (λ item, completed item = true) todoChecklist) in
  let totalItems := length todoChecklist in
  if bool_decide (0 < totalItems)
  then roundPercent reachesHalf completedCount totalItems
  else 0.

Definition statusOfProgress (progress : nat) : TaskStatus :=
  if bool_decide (progress = 100) then Completed
  else if bool_decide (0 < progress) then InProgress
  else Pending.

(** The answer carries the task read back with [assignedTo] populated. *)
Definition updateTaskChecklist (reachesHalf : nat → nat → bool) (st : Store)
    (id : ObjectId) (user : Caller) (todoChecklist : list ChecklistItem)
  : Store * Response (option Task) :=
  match Task_findById st id with
  | None => (st, Fail TaskNotFound)
  | Some task =>
    if negb (bool_decide (caller_id user ∈ assignedTo task))
       && bool_decide (role user ≠ admin)
    then (st, Fail NotAuthorizedToUpdate)
    else if bool_decide (status task = Rejected)
    then (st, Fail ChecklistOfRejectedTask)
    else
      let progress := progressOf reachesHalf todoChecklist in
      let task' :=
        mkTask (_id task) (title task) (priority task) (assignedTo task)
               todoChecklist progress (statusOfProgress progress) in
      let st' := Task_save st task' in
      (st', Json (populate st' <$> Task_findById st' id))
  end.

(** * The other handlers *)

(** [deleteTask]: [task.deleteOne()] removes the document with the task's
    [_id]; the requests that reference it stay. *)
Definition deleteTask (st : Store) (id : ObjectId) : Store * Response unit :=
  match Task_findById st id with
  | None => (st, Fail TaskNotFound)
  | Some task =>
      (mkStore (filter (λ t, _id t ≠ _id task) (tasks st))
               (requests st) (users st) (nextId st),
       Json ())
  end.

(** [populate] of a single reference: the document, or [null] when there is
    none. *)
Definition populateTask (st : Store) (id : ObjectId) : option Task :=
  Task_findById st id.

Definition populateUser (st : Store) (id : ObjectId) : option ObjectId :=
  if bool_decide (id ∈ users st) then Some id else None.

(** One element of the answer of [getUserAssignmentRequests]: the request
    with [taskId] and [assignedByAdminId] populated. *)
Record InboxEntry : Set := mkInboxEntry {
  inbox_request : TaskAssignmentRequest;
  inbox_task : option Task;
  inbox_assignedBy : option ObjectId
}.

Definition getUserAssignmentRequests (st : Store) (user : Caller)
  : list InboxEntry :=
  (λ r, mkInboxEntry r (populateTask st (taskId r))
                     (populateUser st (assignedByAdminId r)))
    <$> filter (λ r, assignedToUserId r = caller_id user ∧ req_status r = ReqPending)
               (requests st).

(** One element of the answer of [getAllAssignmentRequests], which populates
    [assignedToUserId] as well. *)
Record PendingEntry : Set := mkPendingEntry {
  pending_request : TaskAssignmentRequest;
  pending_task : option Task;
  pending_assignedTo : option ObjectId;
  pending_assignedBy : option ObjectId
}.

Definition getAllAssignmentRequests (st : Store) : list PendingEntry :=
  (λ r, mkPendingEntry r (populateTask st (taskId r))
                       (populateUser st (assignedToUserId r))
                       (populateUser st (assignedByAdminId r)))
    <$> filter (λ r, req_status r = ReqPending) (requests st).

(** ** Dashboards *)

(** [\s] on the characters of a status string: space, tab, line feed,
    vertical tab, form feed and carriage return. *)
Definition isWhitespace (c : Ascii.ascii) : bool :=
  bool_decide (Ascii.nat_of_ascii c ∈ [32; 9; 10; 11; 12; 13]).

(** [s.replace(/\s+/g, "")]. *)
Fixpoint removeWhitespace (s : string) : string :=
  match s with
  | EmptyString => EmptyString
  | String c rest =>
      if isWhitespace c then removeWhitespace rest
      else String c (removeWhitespace rest)
  end.

(** [aggregate([{ $group: { _id: "$field", count: { $sum: 1 } } }])]: one
    item per value of the field that occurs, with the number of documents
    that carry it. *)
Definition groupCount (field : Task → string) (docs : list Task)
  : list (string * nat) :=
  (λ v, (v, length (filter (λ t, field t = v) docs)))
    <$> remove_dups (field <$> docs).

(** [names.reduce((acc, name) => { acc[format(name)] =
    raw.find(item => item._id === name)?.count || 0; return acc }, {})]. *)
Definition countsByName (format : string → string) (names : list string)
    (raw : list (string * nat)) : gmap string nat :=
  foldl (λ acc name,
           <[format name :=
               default 0 (snd <$> List.find (λ item, bool_decide (item.1 = name)) raw)]>
             acc)
        ∅ names.

Record DashboardData : Set := mkDashboard {
  stat_totalTasks : nat;
  stat_pendingTasks : nat;
  stat_completedTasks : nat;
  stat_overdueTasks : nat;
  chart_taskDistribution : gmap string nat;
  chart_taskPriorityLevels : gmap string nat;
  recentTasks : list Task
}.

(** The body shared by [getDashboardData] (over every task) and
    [getUserDashboardData] (over the tasks whose [assignedTo] holds the
    caller).  [pastDue id] tells whether the [dueDate] of task [id] lies
    before [new Date()]; the documents come in insertion order, which is the
    order of [createdAt]. *)
Definition dashboardOf (pastDue : ObjectId → bool) (docs : list Task)
  : DashboardData :=
  let totalTasks := length docs in
  let taskDistribution :=
    countsByName removeWhitespace ["Pending"; "In Progress"; "Completed"]%string
                 (groupCount (λ t, statusName (status t)) docs) in
  mkDashboard
    totalTasks
    (length (filter (λ t, status t = Pending) docs))
    (length (filter (λ t, status t = Completed) docs))
    (length (filter (λ t, status t ≠ Completed ∧ pastDue (_id t) = true) docs))
    (<["All"%string := totalTasks]> taskDistribution)
    (countsByName id ["Low"; "Medium"; "High"]%string
                  (groupCount (λ t, priorityName (priority t)) docs))
    (take 10 (reverse docs)).

Definition getDashboardData (pastDue : ObjectId → bool) (st : Store)
  : DashboardData :=
  dashboardOf pastDue (tasks st).

Definition getUserDashboardData (pastDue : ObjectId → bool) (st : Store)
    (user : Caller) : DashboardData :=
  dashboardOf pastDue (filter (λ t, caller_id user ∈ assignedTo t) (tasks st)).

(** ** Tasks of every user, grouped by status ([getUsersWithTasksGrouped]) *)

(** [tasks.reduce((acc, task) => { if (!acc[task.status]) acc[task.status] = [];
    acc[task.status].push(task); return acc },
    { Pending: [], "In Progress": [], Completed: [] })]. *)
Definition groupByStatus (tasks : list Task) : gmap string (list Task) :=
  foldl (λ acc task,
           let k := statusName (status task) in
           <[k := default [] (acc !! k) ++ [task]]> acc)
        (<["Completed"%string := []]>
           (<["In Progress"%string := []]> (<["Pending"%string := []]> ∅)))
        tasks.

(** One entry per user document; [sort({ createdAt: -1 })] is the reverse of
    the insertion order of the collection. *)
Definition getUsersWithTasksGrouped (st : Store)
  : list (ObjectId * gmap string (list Task)) :=
  (λ user,
     (user, groupByStatus (reverse (filter (λ t, user ∈ assignedTo t) (tasks st)))))
    <$> users st.

(** * Specification-side notions *)

Definition infoOf (r : TaskAssignmentRequest) : AssignmentInfo :=
  mkInfo (req_status r) (rejectionReason r).

(** The last request of a candidate in query order. *)
Definition latestRequest (reqs : list TaskAssignmentRequest) (u : ObjectId)
  : option TaskAssignmentRequest :=
  last (filter (λ r, assignedToUserId r = u) reqs).

(** The candidate [u] is mapped to a request in state [s]. *)
Definition mapped (m : gmap nat AssignmentInfo) (u : ObjectId)
    (s : RequestStatus) : Prop :=
  ∃ req, m !! u = Some req ∧ info_status req = s.

Definition anyMapped (m : gmap nat AssignmentInfo) (s : RequestStatus) : Prop :=
  ∃ u, mapped m u s.

(** ** The resolver's rules, as the specification words them *)

Definition AllRejected (task : Task) (m : gmap nat AssignmentInfo) : Prop :=
  assignedTo task ≠ [] ∧ ∀ u, u ∈ assignedTo task → mapped m u ReqRejected.

Definition SingleUserRejected (task : Task) (m : gmap nat AssignmentInfo) : Prop :=
  ∃ u, assignedTo task = [u] ∧ mapped m u ReqRejected.

Definition AllItemsComplete (task : Task) : Prop :=
  todoChecklist task ≠ [] ∧ ∀ item, item ∈ todoChecklist task → completed item = true.

Definition SomeItemComplete (task : Task) : Prop :=
  ∃ item, item ∈ todoChecklist task ∧ completed item = true.

(** Rules 4 to 9 in precedence order: a rule applies only when none of the
    rules before it does. *)
Inductive Resolve (task : Task) (m : gmap nat AssignmentInfo) : TaskStatus → Prop :=
  | Resolve_rejected :
      AllRejected task m ∨ SingleUserRejected task m →
      Resolve task m Rejected
  | Resolve_pendingApproval :
      ¬ (AllRejected task m ∨ SingleUserRejected task m) →
      anyMapped m ReqPending →
      Resolve task m PendingApproval
  | Resolve_completed :
      ¬ (AllRejected task m ∨ SingleUserRejected task m) →
      ¬ anyMapped m ReqPending →
      anyMapped m ReqApproved → AllItemsComplete task →
      Resolve task m Completed
  | Resolve_inProgress :
      ¬ (AllRejected task m ∨ SingleUserRejected task m) →
      ¬ anyMapped m ReqPending →
      anyMapped m ReqApproved → ¬ AllItemsComplete task → SomeItemComplete task →
      Resolve task m InProgress
  | Resolve_pending :
      ¬ (AllRejected task m ∨ SingleUserRejected task m) →
      ¬ anyMapped m ReqPending →
      anyMapped m ReqApproved → ¬ SomeItemComplete task →
      Resolve task m Pending
  | Resolve_stored :
      ¬ (AllRejected task m ∨ SingleUserRejected task m) →
      ¬ anyMapped m ReqPending →
      ¬ anyMapped m ReqApproved →
      Resolve task m (status task).

(** ** The rules that the listing evaluates

    The same cascade with [singleUserRejected] as its only rejection rule,
    read on the populated document. *)
Inductive Listed (task : Task) (m : gmap nat AssignmentInfo) : TaskStatus → Prop :=
  | Listed_rejected :
      SingleUserRejected task m →
      Listed task m Rejected
  | Listed_pendingApproval :
      ¬ SingleUserRejected task m →
      anyMapped m ReqPending →
      Listed task m PendingApproval
  | Listed_completed :
      ¬ SingleUserRejected task m →
      ¬ anyMapped m ReqPending →
      anyMapped m ReqApproved → AllItemsComplete task →
      Listed task m Completed
  | Listed_inProgress :
      ¬ SingleUserRejected task m →
      ¬ anyMapped m ReqPending →
      anyMapped m ReqApproved → ¬ AllItemsComplete task → SomeItemComplete task →
      Listed task m InProgress
  | Listed_pending :
      ¬ SingleUserRejected task m →
      ¬ anyMapped m ReqPending →
      anyMapped m ReqApproved → ¬ SomeItemComplete task →
      Listed task m Pending
  | Listed_stored :
      ¬ SingleUserRejected task m →
      ¬ anyMapped m ReqPending →
      ¬ anyMapped m ReqApproved →
      Listed task m (status task).

(** Reflection of a boolean test of the code against its reading in [Prop]. *)
Ltac reflect_test b lem H :=
  destruct b eqn:H;
  [apply lem in H | apply not_true_iff_false in H; rewrite lem in H].

(** ** Direct assignees and rejected requests *)

(** Users of [assignedTo] with no associated request at all. *)
Definition directAssignees (task : Task) (reqs : list TaskAssignmentRequest)
  : list ObjectId :=
  filter (λ u, u ∉ assignedToUserId <$> reqs) (assignedTo task).

Definition everyRequestIs (s : RequestStatus) (reqs : list TaskAssignmentRequest)
  : Prop :=
  Forall (λ r, req_status r = s) reqs.

(** ** The recompute of the reject branch, as the specification words it *)

Inductive RejectRule (task : Task) (allRequests : list TaskAssignmentRequest)
  : TaskStatus → Prop :=
  | RejectRule_rejected :
      everyRequestIs ReqRejected allRequests →
      directAssignees task allRequests = [] →
      RejectRule task allRequests Rejected
  | RejectRule_pendingApproval :
      ¬ (everyRequestIs ReqRejected allRequests
         ∧ directAssignees task allRequests = []) →
      (∃ r, r ∈ allRequests ∧ req_status r = ReqPending) →
      RejectRule task allRequests PendingApproval
  | RejectRule_pending :
      ¬ (everyRequestIs ReqRejected allRequests
         ∧ directAssignees task allRequests = []) →
      ¬ (∃ r, r ∈ allRequests ∧ req_status r = ReqPending) →
      0 < length (filter (λ r, req_status r = ReqApproved) allRequests)
          + length (directAssignees task allRequests) →
      RejectRule task allRequests Pending
  | RejectRule_fallback :
      ¬ (everyRequestIs ReqRejected allRequests
         ∧ directAssignees task allRequests = []) →
      ¬ (∃ r, r ∈ allRequests ∧ req_status r = ReqPending) →
      ¬ 0 < length (filter (λ r, req_status r = ReqApproved) allRequests)
            + length (directAssignees task allRequests) →
      RejectRule task allRequests PendingApproval.

(** ** Scenarios

    Users 1 and 2 each carry two High-priority tasks that are not Completed;
    user 3 carries none; user 9 is the admin. *)
Module Scenario.
Definition schema : SchemaDefaults := mkDefaults Medium 0 Pending.
Definition boss : Caller := mkCaller 9 admin.
Definition ann : Caller := mkCaller 1 member.
Definition bob : Caller := mkCaller 2 member.
Definition carl : Caller := mkCaller 3 member.
Definition busy (id : ObjectId) : Task :=
  mkTask id "busy" High [1; 2] [] 0 Pending.
Definition start : Store :=
  mkStore [busy 100; busy 101] [] [1; 2; 3; 9] 102.

(** The admin creates task 102 for users 1 and 2: requests 103 and 104. *)
Definition created : Store :=
  fst (createTask schema start
         (mkCreateBody "release" (Some Low) (IdArray [1; 2]) []) boss).
(** User 1 rejects request 103, then user 2 approves request 104. *)
Definition ann_rejected : Store :=
  fst (respondToAssignmentRequest created 103 ann "reject" (Some "no time"%string)).
Definition bob_approved : Store :=
  fst (respondToAssignmentRequest ann_rejected 104 bob "approve" None).

(** The admin creates task 102 for user 1 alone, user 1 rejects request 103,
    and the admin then assigns users 1 and 3 through [updateTask]. *)
Definition created_for_ann : Store :=
  fst (createTask schema start
         (mkCreateBody "audit" (Some Low) (IdArray [1]) []) boss).
Definition ann_declined : Store :=
  fst (respondToAssignmentRequest created_for_ann 103 ann "reject" None).
Definition reassigned : Store :=
  fst (updateTask ann_declined 102
         (mkUpdateBody None None None (IdArray [1; 3]))).

(** A request for user 1 on task 555, which does not exist. *)
Definition dangling : Store :=
  fst (createTaskAssignmentRequest start 555 1 boss).

(** The admin creates task 102 for users 3, 9 and 1: users 3 and 9 are
    assigned, user 1 gets request 103.  The admin then asks users 3 and 9 as
    well (requests 104 and 105), and both reject. *)
Definition surveyed : Store :=
  fst (createTask schema start
         (mkCreateBody "survey" (Some Low) (IdArray [3; 9; 1]) []) boss).
Definition asked : Store :=
  fst (createTaskAssignmentRequest
         (fst (createTaskAssignmentRequest surveyed 102 3 boss)) 102 9 boss).
Definition both_declined : Store :=
  fst (respondToAssignmentRequest
         (fst (respondToAssignmentRequest asked 104 carl "reject" None))
         105 boss "reject" None).

(** The admin creates task 102 for user 3 and for user 7, who has no user
    document, and asks user 3 (request 103), who rejects: user 7 counts as a
    direct assignee and the reject branch stores Pending. *)
Definition with_stranger : Store :=
  fst (createTask schema start
         (mkCreateBody "move" (Some Low) (IdArray [7; 3]) []) boss).
Definition stranger_left : Store :=
  fst (respondToAssignmentRequest
         (fst (createTaskAssignmentRequest with_stranger 102 3 boss))
         103 carl "reject" None).
End Scenario.

(** ** Rounding, as the specification words it *)

(** [round (100 * c / t)] for [t > 0], a half going up:
    [floor (100 * c / t + 1/2)]. *)
Definition roundedPercent (c t : nat) : nat := (200 * c + t) / (2 * t).

(** [100 * c / t] lies exactly half-way between two integers. *)
Definition atExactHalf (c t : nat) : Prop := (200 * c + t) mod (2 * t) = 0.

(** [p] is an integer nearest to [100 * c / t] for [t > 0], that is
    [p - 1/2 ≤ 100 * c / t ≤ p + 1/2]: at an exact half both neighbours
    qualify. *)
Definition isRoundedPercent (c t p : nat) : Prop :=
  2 * t * p ≤ 200 * c + t ∧ 200 * c ≤ 2 * t * p + t.

Definition completedCount (todoChecklist : list ChecklistItem) : nat :=
  length (filter (λ item, completed item = true) todoChecklist).

Definition everyItemCompleted (todoChecklist : list ChecklistItem) : Prop :=
  Forall (λ item, completed item = true) todoChecklist.

(** The document written by a successful [updateTaskChecklist]. *)
Definition withChecklist (reachesHalf : nat → nat → bool) (task : Task)
    (todoChecklist : list ChecklistItem) : Task :=
  mkTask (_id task) (title task) (priority task) (assignedTo task)
         todoChecklist (progressOf reachesHalf todoChecklist)
         (statusOfProgress (progressOf reachesHalf todoChecklist)).

Module ChecklistScenario.
(** No checklist below has [100 * completed / total] at an exact half. *)
Definition halves : nat → nat → bool := λ _ _, true.
(** 201 items, all completed but the last. *)
Definition almost_done : list ChecklistItem :=
  replicate 200 (mkItem "step" true) ++ [mkItem "last" false].
(** User 1 replaces the checklist of task 100. *)
Definition long_list : Store :=
  fst (updateTaskChecklist halves Scenario.start 100 Scenario.ann almost_done).
Definition emptied : Store :=
  fst (updateTaskChecklist halves Scenario.start 100 Scenario.ann []).
(** The admin replaces the checklist of task 100 through [updateTask]. *)
Definition edited : Store :=
  fst (updateTask Scenario.start 100
         (mkUpdateBody None None (Some [mkItem "only" true]) Absent)).
(** 40 items, the first 23 completed: [100 * 23 / 40] is the half 57.5.
    User 1 sends them for task 100. *)
Definition at_a_half : list ChecklistItem :=
  replicate 23 (mkItem "done" true) ++ replicate 17 (mkItem "open" false).
Definition halfway : Store :=
  fst (updateTaskChecklist Binary64.reachesHalf Scenario.start 100 Scenario.ann
         at_a_half).
End ChecklistScenario.

(** ** Pending requests of a (task, candidate) pair *)

Definition isPendingFor (tid uid : ObjectId) (r : TaskAssignmentRequest) : Prop :=
  taskId r = tid ∧ assignedToUserId r = uid ∧ req_status r = ReqPending.

Definition pendingExists (st : Store) (tid uid : ObjectId) : Prop :=
  ∃ r, r ∈ requests st ∧ isPendingFor tid uid r.

(** ** The uniqueness invariant of Pending requests *)

(** The Pending requests of a pair, in query order. *)
Definition pendingFor (tid uid : ObjectId) (reqs : list TaskAssignmentRequest)
  : list TaskAssignmentRequest :=
  filter (λ r, taskId r = tid ∧ assignedToUserId r = uid ∧ req_status r = ReqPending)
         reqs.

(** At most one Pending request per (task, candidate) pair. *)
Definition atMostOnePending (st : Store) : Prop :=
  ∀ tid uid, length (pendingFor tid uid (requests st)) ≤ 1.

(** * Properties *)

(** ** Collections *)

Section CollectionFacts.
Context {A : Type} (key : A → ObjectId).

Lemma findById_Some docs id d :
  findById key docs id = Some d → key d = id ∧ d ∈ docs.
Proof.
  unfold findById. intros H. apply find_some in H as [Hin Hk].
  apply bool_decide_eq_true in Hk. split; [done|]. by apply list_elem_of_In.
Qed.

Lemma findById_None docs id :
  findById key docs id = None ↔ ∀ d, d ∈ docs → key d ≠ id.
Proof.
  unfold findById. induction docs as [|x docs IH]; simpl.
  - split; [|done]. intros _ d Hd. by apply elem_of_nil in Hd.
  - case_bool_decide as Hx.
    + split; [done|]. intros H. exfalso. apply (H x); [left|done].
    + rewrite IH. split.
      * intros H d Hd. apply elem_of_cons in Hd as [->|Hd]; [done|by apply H].
      * intros H d Hd. apply H. by right.
Qed.

Lemma findById_save_eq docs d :
  is_Some (findById key docs (key d)) →
  findById key (save key docs d) (key d) = Some d.
Proof.
  unfold findById, save. induction docs as [|x docs IH]; simpl.
  - intros [? ?]; discriminate.
  - intros H. case_bool_decide as Hx; simpl.
    + by rewrite bool_decide_true.
    + rewrite bool_decide_false by done. by apply IH.
Qed.

Lemma findById_save_ne docs d id :
  key d ≠ id → findById key (save key docs d) id = findById key docs id.
Proof.
  intros Hne. unfold findById, save. induction docs as [|x docs IH]; simpl; [done|].
  destruct (bool_decide (key x = key d)) eqn:Hx; simpl.
  - apply bool_decide_eq_true in Hx.
    rewrite !bool_decide_false by congruence. apply IH.
  - destruct (bool_decide (key x = id)); [done|apply IH].
Qed.

Lemma elem_of_save docs d x :
  x ∈ save key docs d → x = d ∨ (x ∈ docs ∧ key x ≠ key d).
Proof.
  unfold save. intros (y & -> & Hy)%list_elem_of_fmap.
  case_bool_decide; [by left|by right].
Qed.

Lemma save_absent docs d :
  (∀ x, x ∈ docs → key x ≠ key d) → save key docs d = docs.
Proof.
  unfold save. induction docs as [|x docs IH]; simpl; [done|].
  intros H. rewrite bool_decide_false by (apply H; left).
  f_equal. apply IH. intros y Hy. apply H. by right.
Qed.

Lemma save_idemp docs d : save key (save key docs d) d = save key docs d.
Proof.
  unfold save. rewrite <- list_fmap_compose. apply list_fmap_ext.
  intros i x _. simpl. destruct (bool_decide (key x = key d)) eqn:Hx.
  - by rewrite bool_decide_true.
  - by rewrite Hx.
Qed.
End CollectionFacts.

Lemma filter_empty_iff {A : Type} (P : A → Prop) `{∀ x, Decision (P x)}
    (l : list A) :
  filter P l = [] ↔ ∀ x, x ∈ l → ¬ P x.
Proof.
  split.
  - intros Hnil x Hx HP. by apply (filter_nil_not_elem_of P l x).
  - induction l as [|x l IH]; intros Hall; [done|].
    rewrite filter_cons_False by (apply Hall; left).
    apply IH. intros y Hy. apply Hall. by right.
Qed.

Lemma Task_findById_Some st id t :
  Task_findById st id = Some t → _id t = id ∧ t ∈ tasks st.
Proof. apply findById_Some. Qed.

Lemma Request_findById_Some st id r :
  Request_findById st id = Some r → req_id r = id ∧ r ∈ requests st.
Proof. apply findById_Some. Qed.

(** ** The assignment map *)

Lemma buildAssignmentMap_snoc reqs r :
  buildAssignmentMap (reqs ++ [r])
  = <[assignedToUserId r := infoOf r]> (buildAssignmentMap reqs).
Proof. unfold buildAssignmentMap. by rewrite foldl_snoc. Qed.

Lemma latestRequest_snoc reqs r u :
  latestRequest (reqs ++ [r]) u
  = if decide (assignedToUserId r = u) then Some r else latestRequest reqs u.
Proof.
  unfold latestRequest. rewrite filter_app, filter_cons, filter_nil.
  destruct (decide (assignedToUserId r = u)) as [Hu|Hu].
  - by rewrite last_snoc.
  - by rewrite app_nil_r.
Qed.

(** Last write wins: the map holds, for each candidate, the latest request. *)
Lemma buildAssignmentMap_lookup reqs u :
  buildAssignmentMap reqs !! u = infoOf <$> latestRequest reqs u.
Proof.
  induction reqs as [|r reqs IH] using rev_ind; [done|].
  rewrite buildAssignmentMap_snoc, latestRequest_snoc, lookup_insert.
  destruct (decide (assignedToUserId r = u)); [done|apply IH].
Qed.

Lemma latestRequest_Some reqs u r :
  latestRequest reqs u = Some r → r ∈ reqs ∧ assignedToUserId r = u.
Proof.
  unfold latestRequest. intros H.
  assert (Hin : r ∈ filter (λ r, assignedToUserId r = u) reqs).
  { apply last_Some in H as [l' ->]. apply elem_of_app. right. by left. }
  apply list_elem_of_filter in Hin as [? ?]. done.
Qed.

Lemma latestRequest_None reqs u :
  latestRequest reqs u = None ↔ u ∉ assignedToUserId <$> reqs.
Proof.
  unfold latestRequest. rewrite last_None. split.
  - intros Hnil (r & -> & Hr)%list_elem_of_fmap.
    assert (Hin : r ∈ filter (λ x, assignedToUserId x = assignedToUserId r) reqs)
      by (by apply list_elem_of_filter).
    rewrite Hnil in Hin. by apply elem_of_nil in Hin.
  - intros Hno. apply filter_empty_iff.
    intros r Hr Hu. apply Hno, list_elem_of_fmap. by exists r.
Qed.

Lemma mapped_latest reqs u s :
  mapped (buildAssignmentMap reqs) u s
  ↔ ∃ r, latestRequest reqs u = Some r ∧ req_status r = s.
Proof.
  unfold mapped. rewrite buildAssignmentMap_lookup. split.
  - intros (i & Hi & Hs). destruct (latestRequest reqs u) as [r|]; [|done].
    exists r. simpl in Hi. injection Hi as <-. done.
  - intros (r & -> & Hs). by exists (infoOf r).
Qed.

Lemma statusIs_true m u s : statusIs m u s = true ↔ mapped m u s.
Proof.
  unfold statusIs, mapped. destruct (m !! u) as [i|].
  - rewrite bool_decide_eq_true. split; [by exists i|].
    by intros (? & [= <-] & ?).
  - split; [done|]. by intros (? & ? & ?).
Qed.

Lemma existsb_values m s :
  existsb (λ req, bool_decide (info_status req = s)) (Object_values m) = true
  ↔ anyMapped m s.
Proof.
  unfold Object_values, anyMapped, mapped. rewrite existsb_exists. split.
  - intros (i & Hin & Hs). apply bool_decide_eq_true in Hs.
    apply list_elem_of_In, list_elem_of_fmap in Hin as ([u j] & -> & Hin).
    apply elem_of_map_to_list in Hin. by exists u, j.
  - intros (u & i & Hu & Hs). exists i. split; [|by apply bool_decide_eq_true].
    apply list_elem_of_In, list_elem_of_fmap. exists (u, i).
    split; [done|]. by apply elem_of_map_to_list.
Qed.

Lemma hasPending_true m : hasPending m = true ↔ anyMapped m ReqPending.
Proof. apply existsb_values. Qed.

Lemma hasApproved_true m : hasApproved m = true ↔ anyMapped m ReqApproved.
Proof. apply existsb_values. Qed.

(** ** The resolver against its rules *)

(** [assignmentMap] holds no entry under the string of a document, so the
    [every] of [allRejected] fails on its first element. *)
Lemma allRejected_false task m : allRejected task m = false.
Proof.
  unfold allRejected. destruct (assignedTo task) as [|u l]; [done|].
  rewrite fmap_cons. cbn [forallb lookupName]. apply andb_false_r.
Qed.

Lemma singleUserRejected_true task m :
  singleUserRejected task m = true ↔ SingleUserRejected task m.
Proof.
  unfold singleUserRejected, SingleUserRejected.
  rewrite andb_true_iff, bool_decide_eq_true.
  destruct (assignedTo task) as [|u [|v l]]; simpl.
  - split; [by intros [? ?]|by intros (? & ? & ?)].
  - rewrite statusIs_true. split.
    + intros [_ H]. by exists u.
    + by intros (? & [= <-] & ?).
  - split; [by intros [? ?]|by intros (? & ? & ?)].
Qed.

Lemma allTodoCompleted_true task :
  allTodoCompleted task = true ↔ AllItemsComplete task.
Proof.
  unfold allTodoCompleted, AllItemsComplete.
  rewrite andb_true_iff, bool_decide_eq_true, forallb_forall.
  setoid_rewrite list_elem_of_In. split.
  - intros [Hlen Hall]. split; [|done].
    intros E; rewrite E in Hlen; simpl in Hlen; lia.
  - intros [Hne Hall]. split; [|done].
    destruct (todoChecklist task); [done|simpl; lia].
Qed.

Lemma todoStarted_true task : todoStarted task = true ↔ SomeItemComplete task.
Proof.
  unfold todoStarted, SomeItemComplete. rewrite existsb_exists.
  by setoid_rewrite list_elem_of_In.
Qed.

Lemma AllItemsComplete_some task : AllItemsComplete task → SomeItemComplete task.
Proof.
  intros [Hne Hall]. destruct (todoChecklist task) as [|item l] eqn:E; [done|].
  exists item. rewrite E. split; [left|apply Hall; left].
Qed.

Lemma resolveStatus_sound task reqs :
  Listed task (buildAssignmentMap reqs) (resolveStatus task reqs).
Proof.
  unfold resolveStatus. set (m := buildAssignmentMap reqs).
  rewrite allRejected_false. cbn [orb].
  reflect_test (singleUserRejected task m) (singleUserRejected_true task m) HS.
  { by apply Listed_rejected. }
  reflect_test (hasPending m) (hasPending_true m) HP.
  { by apply Listed_pendingApproval. }
  reflect_test (hasApproved m) (hasApproved_true m) HAp; simpl.
  2: { by apply Listed_stored. }
  reflect_test (allTodoCompleted task) (allTodoCompleted_true task) HC.
  { by apply Listed_completed. }
  reflect_test (todoStarted task) (todoStarted_true task) HT; simpl.
  - by apply Listed_inProgress.
  - by apply Listed_pending.
Qed.

Lemma Listed_deterministic task m s1 s2 :
  Listed task m s1 → Listed task m s2 → s1 = s2.
Proof.
  intros H1 H2.
  destruct H1; destruct H2; try done; try tauto;
    exfalso; eauto using AllItemsComplete_some.
Qed.

Lemma resolveStatus_unique task reqs s :
  Listed task (buildAssignmentMap reqs) s → resolveStatus task reqs = s.
Proof.
  intros H. eapply Listed_deterministic; [apply resolveStatus_sound|done].
Qed.

(** The cascade of [getTasks] is the first-match relation [Listed]. *)
Lemma resolveStatus_listed task reqs s :
  Listed task (buildAssignmentMap reqs) s ↔ resolveStatus task reqs = s.
Proof.
  split; [apply resolveStatus_unique|].
  intros <-. apply resolveStatus_sound.
Qed.

Example scenario_both_declined :
  Scenario.both_declined
  = mkStore [Scenario.busy 100; Scenario.busy 101;
             mkTask 102 "survey" Low [3; 9] [] 0 PendingApproval]
            [mkRequest 103 102 9 1 ReqPending None;
             mkRequest 104 102 9 3 ReqRejected None;
             mkRequest 105 102 9 9 ReqRejected None]
            [1; 2; 3; 9] 106.
Proof. vm_compute. reflexivity. Qed.

(** C2. The rejection rule of the listing is not the one of the
    specification.  Task 102 is created for users 3, 9 and the overloaded
    user 1 (request 103, Pending); users 3 and 9 are then asked too and both
    reject (requests 104 and 105).  The assigned users of task 102 are 3 and
    9, and the latest request of each is Rejected: allRejected holds, and the
    rules of the specification, first match winning, give Rejected.  The
    cascade of [getTasks] skips the rule and gives Pending Approval, which is
    what the listing shows. *)
Theorem listing_skips_allRejected :
  ∃ task reqs,
    Task_findById Scenario.both_declined 102 = Some task
    ∧ reqs = filter (λ r, taskId r = 102) (requests Scenario.both_declined)
    ∧ assignedTo (populate Scenario.both_declined task) = [3; 9]
    ∧ (∀ u, u ∈ [3; 9] → req_status <$> latestRequest reqs u = Some ReqRejected)
    ∧ Resolve (populate Scenario.both_declined task) (buildAssignmentMap reqs)
              Rejected
    ∧ resolveStatus (populate Scenario.both_declined task) reqs = PendingApproval
    ∧ ∀ regexMatch dueDateOf,
        (λ v, (tv_id v, tv_status v))
          <$> fst (getTasks regexMatch dueDateOf Scenario.both_declined
                     (mkQuery None None None None None) Scenario.boss)
        = [(102, PendingApproval); (101, Pending); (100, Pending)].
Proof.
  exists (mkTask 102 "survey" Low [3; 9] [] 0 PendingApproval).
  eexists. split; [reflexivity|]. split; [reflexivity|].
  split; [reflexivity|].
  assert (Hlatest : ∀ u, u ∈ [3; 9] →
            req_status
              <$> latestRequest
                    (filter (λ r, taskId r = 102) (requests Scenario.both_declined)) u
            = Some ReqRejected).
  { intros u Hu. apply elem_of_cons in Hu as [->|Hu]; [reflexivity|].
    apply elem_of_cons in Hu as [->|Hu]; [reflexivity|inversion Hu]. }
  split; [exact Hlatest|]. split.
  - apply Resolve_rejected. left. split; [discriminate|].
    intros u Hu. apply mapped_latest. specialize (Hlatest u Hu).
    destruct (latestRequest _ u) as [r|]; [|discriminate].
    exists r. split; [done|]. by injection Hlatest.
  - split; [vm_compute; reflexivity|]. intros regexMatch dueDateOf.
    vm_compute. reflexivity.
Qed.

(** ** Rejection *)

Lemma anyMapped_request reqs s :
  anyMapped (buildAssignmentMap reqs) s → ∃ r, r ∈ reqs ∧ req_status r = s.
Proof.
  intros (u & (r & Hr & Hs)%mapped_latest).
  apply latestRequest_Some in Hr as [Hr _]. by exists r.
Qed.

Lemma everyRequestIs_elem s reqs :
  everyRequestIs s reqs ↔ ∀ r, r ∈ reqs → req_status r = s.
Proof. apply Forall_forall. Qed.

Lemma mapped_of_requests reqs u s :
  everyRequestIs s reqs → u ∈ assignedToUserId <$> reqs →
  mapped (buildAssignmentMap reqs) u s.
Proof.
  intros Hall Hu. apply mapped_latest.
  pose proof (proj1 (everyRequestIs_elem _ _) Hall) as Hall'.
  destruct (latestRequest reqs u) as [r|] eqn:E.
  - exists r. split; [done|]. apply Hall'. by apply latestRequest_Some in E as [? _].
  - by apply latestRequest_None in E.
Qed.

Lemma filter_all {A : Type} (P : A → Prop) `{∀ x, Decision (P x)} (l : list A) :
  (∀ x, x ∈ l → P x) → filter P l = l.
Proof.
  induction l as [|x l IH]; intros Hall; [done|].
  rewrite filter_cons_True by (apply Hall; left).
  f_equal. apply IH. intros y Hy. apply Hall. by right.
Qed.

Lemma statusAfterReject_all_rejected task reqs :
  everyRequestIs ReqRejected reqs →
  statusAfterReject task reqs
  = if decide (directAssignees task reqs = []) then Rejected else Pending.
Proof.
  intros Hall'. pose proof (proj1 (everyRequestIs_elem _ _) Hall') as Hall.
  unfold statusAfterReject. fold (directAssignees task reqs).
  rewrite (filter_all (λ r, req_status r = ReqRejected)) by done.
  assert (HP : filter (λ r, req_status r = ReqPending) reqs = []).
  { apply filter_empty_iff. intros r Hr. rewrite (Hall r Hr). done. }
  rewrite HP. simpl.
  destruct (decide (directAssignees task reqs = [])) as [->|Hne].
  - by rewrite bool_decide_true.
  - rewrite bool_decide_false.
    + rewrite bool_decide_true; [done|].
      destruct (directAssignees task reqs); [done|simpl; lia].
    + intros [_ Hlen]. by apply length_zero_iff_nil in Hlen.
Qed.

Lemma no_mapped_of_requests reqs s s' :
  everyRequestIs s reqs → s' ≠ s → ¬ anyMapped (buildAssignmentMap reqs) s'.
Proof.
  intros Hall Hne (r & Hr & Hs)%anyMapped_request.
  rewrite (proj1 (everyRequestIs_elem _ _) Hall r Hr) in Hs. by apply Hne.
Qed.

(** C4 (amended). [doc] is the task as the listing reads it, its assigned
    users being those of the stored list that have a user document.  When
    [doc] has exactly one assigned user and that user's latest request is
    Rejected, the listing resolves to Rejected whatever the checklist and the
    stored status.  When [doc] has at least two assigned users, every request
    is Rejected and some assigned user has no request (a direct assignee), no
    rule applies and the listing returns the stored status unchanged.  The
    recompute of the reject branch, with every request Rejected, writes
    Rejected exactly when there is no direct assignee. *)
Theorem rejected_resolution st task reqs :
  let doc := populate st task in
  (∀ u r, assignedTo doc = [u] → latestRequest reqs u = Some r →
          req_status r = ReqRejected → resolveStatus doc reqs = Rejected)
  ∧ (2 ≤ length (assignedTo doc) → everyRequestIs ReqRejected reqs →
     directAssignees task reqs ≠ [] → resolveStatus doc reqs = status task)
  ∧ (everyRequestIs ReqRejected reqs →
     (statusAfterReject task reqs = Rejected ↔ directAssignees task reqs = [])).
Proof.
  intros doc. split; [|split].
  - intros u r Hone Hr Hs. apply resolveStatus_unique.
    apply Listed_rejected. exists u. split; [done|].
    apply mapped_latest. by exists r.
  - intros Hlen Hall _.
    change (status task) with (status doc).
    apply resolveStatus_unique, Listed_stored.
    + intros (u & Hu & _). rewrite Hu in Hlen. simpl in Hlen. lia.
    + by apply (no_mapped_of_requests reqs ReqRejected).
    + by apply (no_mapped_of_requests reqs ReqRejected).
  - intros Hall. rewrite statusAfterReject_all_rejected by done.
    destruct (decide (directAssignees task reqs = [])); [done|].
    split; [done|]. intros E. done.
Qed.

Example scenario_created :
  Scenario.created
  = mkStore [Scenario.busy 100; Scenario.busy 101;
             mkTask 102 "release" Low [] [] 0 Pending]
            [mkRequest 103 102 9 1 ReqPending None;
             mkRequest 104 102 9 2 ReqPending None]
            [1; 2; 3; 9] 105.
Proof. vm_compute. reflexivity. Qed.

Example scenario_bob_approved :
  Scenario.bob_approved
  = mkStore [Scenario.busy 100; Scenario.busy 101;
             mkTask 102 "release" Low [2] [] 0 PendingApproval]
            [mkRequest 103 102 9 1 ReqRejected (Some "no time"%string);
             mkRequest 104 102 9 2 ReqApproved None]
            [1; 2; 3; 9] 105.
Proof. vm_compute. reflexivity. Qed.

Example scenario_reassigned :
  Scenario.reassigned
  = mkStore [Scenario.busy 100; Scenario.busy 101;
             mkTask 102 "audit" Low [1; 3] [] 0 Rejected]
            [mkRequest 103 102 9 1 ReqRejected None]
            [1; 2; 3; 9] 104.
Proof. vm_compute. reflexivity. Qed.

Lemma rejected_resolution_witness :
  resolveStatus
    (populate Scenario.start (mkTask 7 "solo" Low [3] [mkItem "a" true] 100 Completed))
    [mkRequest 8 7 9 3 ReqRejected None] = Rejected
  ∧ resolveStatus
      (populate Scenario.start (mkTask 7 "mixed" Low [3; 9] [] 0 InProgress))
      [mkRequest 8 7 9 3 ReqRejected None] = InProgress
  ∧ (statusAfterReject (mkTask 7 "pair" Low [3; 9] [] 0 Pending)
                       [mkRequest 8 7 9 3 ReqRejected None;
                        mkRequest 9 7 9 9 ReqRejected None] = Rejected
     ↔ directAssignees (mkTask 7 "pair" Low [3; 9] [] 0 Pending)
                       [mkRequest 8 7 9 3 ReqRejected None;
                        mkRequest 9 7 9 9 ReqRejected None] = []).
Proof.
  split; [|split].
  - apply (proj1 (rejected_resolution Scenario.start
                    (mkTask 7 "solo" Low [3] [mkItem "a" true] 100 Completed)
                    [mkRequest 8 7 9 3 ReqRejected None])
                 3 (mkRequest 8 7 9 3 ReqRejected None));
      reflexivity.
  - apply (proj1 (proj2 (rejected_resolution Scenario.start
                           (mkTask 7 "mixed" Low [3; 9] [] 0 InProgress)
                           [mkRequest 8 7 9 3 ReqRejected None]))).
    + simpl; lia.
    + repeat constructor.
    + discriminate.
  - apply (proj2 (proj2 (rejected_resolution Scenario.start
                           (mkTask 7 "pair" Low [3; 9] [] 0 Pending)
                           [mkRequest 8 7 9 3 ReqRejected None;
                            mkRequest 9 7 9 9 ReqRejected None]))).
    repeat constructor.
Defined.

(** C4, as stated, fails: in the store reached by creating task 102 for the
    overloaded user 1, rejecting the request and assigning users 1 and 3
    through [updateTask], the task has two assigned users, its only request is
    Rejected, user 3 is a direct assignee, and the task still resolves to
    Rejected (the stored status, which the listing returns). *)
Lemma rejected_despite_direct_assignee :
  ∃ task,
    Task_findById Scenario.reassigned 102 = Some task
    ∧ assignedTo (populate Scenario.reassigned task) = [1; 3]
    ∧ everyRequestIs ReqRejected (Request_find_byTask Scenario.reassigned 102)
    ∧ directAssignees task (Request_find_byTask Scenario.reassigned 102) = [3]
    ∧ resolveStatus (populate Scenario.reassigned task)
                    (Request_find_byTask Scenario.reassigned 102) = Rejected
    ∧ ∀ regexMatch dueDateOf,
        (λ v, (tv_id v, tv_status v))
          <$> fst (getTasks regexMatch dueDateOf Scenario.reassigned
                     (mkQuery (Some "Rejected"%string) None None None None)
                     Scenario.boss)
        = [(102, Rejected)].
Proof.
  exists (mkTask 102 "audit" Low [1; 3] [] 0 Rejected).
  split; [reflexivity|]. split; [reflexivity|].
  split; [repeat constructor|]. split; [reflexivity|].
  split; [vm_compute; reflexivity|].
  intros regexMatch dueDateOf. vm_compute. reflexivity.
Qed.

(** ** Responding to a request *)

Section Respond.
Variables (st : Store) (rid : ObjectId) (user : Caller) (reason : option string).
Variable request : TaskAssignmentRequest.
Hypothesis Hfound : Request_findById st rid = Some request.
Hypothesis Hresponder : assignedToUserId request = caller_id user.

Let approved := respond request ReqApproved None.
Let declined := respond request ReqRejected (orNull reason).

Lemma request_key : req_id request = rid.
Proof. by apply Request_findById_Some in Hfound as [? _]. Qed.

Lemma approve_task_missing :
  Task_findById st (taskId request) = None →
  respondToAssignmentRequest st rid user "approve" reason
  = (st, Fail TaskNotFound).
Proof.
  intros Hno. unfold respondToAssignmentRequest. rewrite Hfound.
  rewrite bool_decide_false by (intros H; by apply H).
  rewrite bool_decide_true by done. by rewrite Hno.
Qed.

Lemma approve_task_found task :
  Task_findById st (taskId request) = Some task →
  respondToAssignmentRequest st rid user "approve" reason
  = (Request_save
       (if bool_decide (assignedToUserId request ∈ assignedTo task) then st
        else Task_save st
               (set_assignedTo task (assignedTo task ++ [assignedToUserId request])))
       approved,
     Json approved).
Proof.
  intros Htask. unfold respondToAssignmentRequest. rewrite Hfound.
  rewrite bool_decide_false by (intros H; by apply H).
  rewrite bool_decide_true by done. by rewrite Htask.
Qed.

Lemma reject_task_missing :
  Task_findById st (taskId request) = None →
  respondToAssignmentRequest st rid user "reject" reason
  = (Request_save st declined, Json declined).
Proof.
  intros Hno. unfold respondToAssignmentRequest. rewrite Hfound.
  rewrite bool_decide_false by (intros H; by apply H).
  rewrite bool_decide_false by done. rewrite bool_decide_true by done.
  simpl. unfold Task_findById in *. simpl. by rewrite Hno.
Qed.

Lemma reject_task_found task :
  Task_findById st (taskId request) = Some task →
  respondToAssignmentRequest st rid user "reject" reason
  = (Task_save (Request_save st declined)
       (set_status task
          (statusAfterReject task
             (Request_find_byTask (Request_save st declined) (taskId request)))),
     Json declined).
Proof.
  intros Htask. unfold respondToAssignmentRequest. rewrite Hfound.
  rewrite bool_decide_false by (intros H; by apply H).
  rewrite bool_decide_false by done. rewrite bool_decide_true by done.
  simpl. unfold Task_findById in *. simpl. by rewrite Htask.
Qed.

Lemma saved_request_found r :
  req_id r = rid → Request_findById (Request_save st r) rid = Some r.
Proof.
  intros Hr. unfold Request_findById, Request_save. simpl.
  rewrite <- Hr. apply findById_save_eq. rewrite Hr.
  exists request. exact Hfound.
Qed.
End Respond.

Lemma filter_length_all {A : Type} (P : A → Prop) `{∀ x, Decision (P x)}
    (l : list A) :
  length (filter P l) = length l ↔ Forall P l.
Proof.
  induction l as [|x l IH]; [by split|].
  rewrite filter_cons. destruct (decide (P x)) as [HP|HP]; simpl.
  - rewrite Forall_cons. split.
    + intros [= Hlen]. split; [done|by apply IH].
    + intros [_ Hall]. f_equal. by apply IH.
  - pose proof (length_filter P l). rewrite Forall_cons. split; [lia|tauto].
Qed.

Lemma filter_length_pos {A : Type} (P : A → Prop) `{∀ x, Decision (P x)}
    (l : list A) :
  0 < length (filter P l) ↔ ∃ x, x ∈ l ∧ P x.
Proof.
  split.
  - destruct (filter P l) as [|x l'] eqn:E; simpl; [lia|]. intros _.
    assert (Hin : x ∈ filter P l) by (rewrite E; left).
    apply list_elem_of_filter in Hin as [? ?]. by exists x.
  - intros (x & Hx & HP).
    assert (Hin : x ∈ filter P l) by (by apply list_elem_of_filter).
    destruct (filter P l); [by apply elem_of_nil in Hin|simpl; lia].
Qed.

Lemma statusAfterReject_sound task reqs :
  RejectRule task reqs (statusAfterReject task reqs).
Proof.
  unfold statusAfterReject. fold (directAssignees task reqs).
  case_bool_decide as H1.
  { destruct H1 as [Hall Hdir]. apply RejectRule_rejected.
    - by apply filter_length_all in Hall.
    - by apply length_zero_iff_nil. }
  assert (Hnot : ¬ (everyRequestIs ReqRejected reqs ∧ directAssignees task reqs = [])).
  { intros [Hall Hdir]. apply H1. split.
    - by apply filter_length_all.
    - by rewrite Hdir. }
  case_bool_decide as H2.
  { apply RejectRule_pendingApproval; [done|]. by apply filter_length_pos in H2. }
  assert (Hnop : ¬ (∃ r, r ∈ reqs ∧ req_status r = ReqPending)).
  { intros Hex. by apply H2, filter_length_pos. }
  case_bool_decide as H3.
  - by apply RejectRule_pending.
  - by apply RejectRule_fallback.
Qed.

Lemma RejectRule_deterministic task reqs s1 s2 :
  RejectRule task reqs s1 → RejectRule task reqs s2 → s1 = s2.
Proof. intros H1 H2. destruct H1; destruct H2; try done; tauto. Qed.

Lemma Task_findById_saved st id t0 t :
  Task_findById st id = Some t0 → _id t = id →
  Task_findById (Task_save st t) id = Some t.
Proof.
  intros Hfound <-. apply findById_save_eq. by exists t0.
Qed.

Lemma Task_findById_Request_save st r id :
  Task_findById (Request_save st r) id = Task_findById st id.
Proof. done. Qed.

(** C5. When the candidate rejects a request whose task exists, that request
    and no other is rewritten, as Rejected; the task's assignedTo list is left
    as it was; and the task's status is rewritten by the narrow rule,
    evaluated on the requests of that task and of no other task (the answered
    one now Rejected) and on its assignedTo: Rejected if every request is
    Rejected and there is no direct assignee; else Pending Approval if a
    request is Pending; else Pending if approved requests plus direct
    assignees are positive; else Pending Approval. *)
Theorem reject_recompute st rid user reason request task :
  Request_findById st rid = Some request →
  assignedToUserId request = caller_id user →
  Task_findById st (taskId request) = Some task →
  let st' := fst (respondToAssignmentRequest st rid user "reject" reason) in
  let declined :=
    mkRequest rid (taskId request) (assignedByAdminId request)
              (assignedToUserId request) ReqRejected (orNull reason) in
  let allRequests := filter (λ r, taskId r = taskId request) (requests st') in
  requests st'
  = (λ r, if decide (req_id r = rid) then declined else r) <$> requests st
  ∧ declined ∈ allRequests
  ∧ ∃ task',
      Task_findById st' (taskId request) = Some task'
      ∧ assignedTo task' = assignedTo task
      ∧ ∀ s, RejectRule task allRequests s ↔ status task' = s.
Proof.
  intros Hfound Hresp Htask st' declined allRequests. subst st' allRequests.
  rewrite (reject_task_found st rid user reason request Hfound Hresp task Htask).
  apply Request_findById_Some in Hfound as Hreq. destruct Hreq as [Hrid Hin].
  assert (Hdeclined : respond request ReqRejected (orNull reason) = declined)
    by (subst declined; unfold respond; by rewrite Hrid).
  rewrite Hdeclined. cbn [fst]. unfold Request_find_byTask.
  cbn [requests Task_save Request_save].
  assert (Hsave : save req_id (requests st) declined
                  = (λ r, if decide (req_id r = rid) then declined else r)
                      <$> requests st).
  { unfold save. apply list_fmap_ext. intros i r _. cbn [req_id declined].
    destruct (decide (req_id r = rid)) as [E|E].
    - by rewrite bool_decide_true.
    - by rewrite bool_decide_false. }
  split; [exact Hsave|]. split.
  - apply list_elem_of_filter. split; [done|].
    rewrite Hsave. apply list_elem_of_fmap. exists request.
    by rewrite decide_True.
  - eexists. split; [|split].
    + apply Task_findById_Some in Htask as Hid. destruct Hid as [Hid _].
      apply (Task_findById_saved _ _ task); [|done].
      by rewrite Task_findById_Request_save.
    + done.
    + intros s. cbn [status set_status]. split.
      * intros H. eapply RejectRule_deterministic; [apply statusAfterReject_sound|done].
      * intros <-. apply statusAfterReject_sound.
Qed.

Lemma reject_recompute_witness :
  Request_findById Scenario.created 103 = Some (mkRequest 103 102 9 1 ReqPending None)
  ∧ assignedToUserId (mkRequest 103 102 9 1 ReqPending None) = caller_id Scenario.ann
  ∧ Task_findById Scenario.created 102 = Some (mkTask 102 "release" Low [] [] 0 Pending)
  ∧ requests Scenario.ann_rejected
    = [mkRequest 103 102 9 1 ReqRejected (Some "no time"%string);
       mkRequest 104 102 9 2 ReqPending None]
  ∧ ∃ task',
      Task_findById Scenario.ann_rejected 102 = Some task'
      ∧ assignedTo task' = []
      ∧ ∀ s, RejectRule (mkTask 102 "release" Low [] [] 0 Pending)
                        (filter (λ r, taskId r = 102) (requests Scenario.ann_rejected)) s
             ↔ status task' = s.
Proof.
  split; [reflexivity|]. split; [reflexivity|]. split; [reflexivity|].
  pose proof (reject_recompute Scenario.created 103 Scenario.ann
                (Some "no time"%string) (mkRequest 103 102 9 1 ReqPending None)
                (mkTask 102 "release" Low [] [] 0 Pending)
                eq_refl eq_refl eq_refl) as (Hreqs & _ & Htask).
  split; [exact Hreqs|exact Htask].
Defined.

(** The scenario of the specification: rejecting the only Pending request of
    a task with no direct assignee and no Approved request makes it Rejected. *)
Example reject_only_request :
  status <$> Task_findById Scenario.ann_declined 102 = Some Rejected.
Proof. vm_compute. reflexivity. Qed.

(** C10. When the candidate answers a request whose task does not exist,
    approve fails with NotFound and changes nothing (the request keeps its
    state), whereas reject succeeds: the request becomes Rejected with its
    rejection reason set, and no task is touched. *)
Theorem respond_task_missing st rid user reason request :
  Request_findById st rid = Some request →
  assignedToUserId request = caller_id user →
  Task_findById st (taskId request) = None →
  (∃ f, respondToAssignmentRequest st rid user "approve" reason = (st, Fail f)
        ∧ errorKind f = NotFound)
  ∧ let declined := respond request ReqRejected (orNull reason) in
    let st' := fst (respondToAssignmentRequest st rid user "reject" reason) in
    snd (respondToAssignmentRequest st rid user "reject" reason) = Json declined
    ∧ Request_findById st' rid = Some declined
    ∧ req_status declined = ReqRejected
    ∧ rejectionReason declined = orNull reason
    ∧ tasks st' = tasks st.
Proof.
  intros Hfound Hresp Hno. split.
  - exists TaskNotFound. split; [|done]. by apply (approve_task_missing _ _ _ _ request).
  - intros declined st'. subst st'.
    rewrite (reject_task_missing st rid user reason request Hfound Hresp Hno).
    simpl. split; [done|]. split; [|done].
    apply (saved_request_found st rid request Hfound).
    by apply Request_findById_Some in Hfound as [? _].
Qed.

Lemma respond_task_missing_witness :
  Request_findById Scenario.dangling 102 = Some (mkRequest 102 555 9 1 ReqPending None)
  ∧ assignedToUserId (mkRequest 102 555 9 1 ReqPending None) = caller_id Scenario.ann
  ∧ Task_findById Scenario.dangling 555 = None
  ∧ respondToAssignmentRequest Scenario.dangling 102 Scenario.ann "approve" None
    = (Scenario.dangling, Fail TaskNotFound)
  ∧ Request_findById
      (fst (respondToAssignmentRequest Scenario.dangling 102 Scenario.ann "reject"
              (Some "busy"%string))) 102
    = Some (mkRequest 102 555 9 1 ReqRejected (Some "busy"%string)).
Proof.
  split; [reflexivity|]. split; [reflexivity|]. split; [reflexivity|].
  split; [reflexivity|].
  exact (proj1 (proj2 (proj2 (respond_task_missing Scenario.dangling 102 Scenario.ann
                                (Some "busy"%string)
                                (mkRequest 102 555 9 1 ReqPending None)
                                eq_refl eq_refl eq_refl)))).
Defined.

(** ** Approval *)

Lemma approve_keeps_status st rid user reason request task :
  Request_findById st rid = Some request →
  assignedToUserId request = caller_id user →
  Task_findById st (taskId request) = Some task →
  status <$> Task_findById (fst (respondToAssignmentRequest st rid user "approve" reason))
                           (taskId request)
  = Some (status task).
Proof.
  intros Hfound Hresp Htask.
  rewrite (approve_task_found st rid user reason request Hfound Hresp task Htask).
  cbn [fst]. rewrite Task_findById_Request_save. case_bool_decide.
  - by rewrite Htask.
  - apply Task_findById_Some in Htask as Hid. destruct Hid as [Hid _].
    by erewrite Task_findById_saved.
Qed.

(** C3 (amended). When the candidate approves a request whose task exists, the
    request becomes Approved with its rejection reason cleared, and the
    candidate is appended to the task's assignedTo list exactly when not
    already there; approving the same request again changes nothing, so no
    duplicate entry is ever produced. *)
Theorem approve_request st rid user reason request task :
  Request_findById st rid = Some request →
  assignedToUserId request = caller_id user →
  Task_findById st (taskId request) = Some task →
  let candidate := assignedToUserId request in
  let approved := respond request ReqApproved None in
  let st' := fst (respondToAssignmentRequest st rid user "approve" reason) in
  snd (respondToAssignmentRequest st rid user "approve" reason) = Json approved
  ∧ Request_findById st' rid = Some approved
  ∧ req_status approved = ReqApproved ∧ rejectionReason approved = None
  ∧ (∃ task',
       Task_findById st' (taskId request) = Some task'
       ∧ assignedTo task'
         = if decide (candidate ∈ assignedTo task) then assignedTo task
           else assignedTo task ++ [candidate])
  ∧ ∀ reason', respondToAssignmentRequest st' rid user "approve" reason'
               = (st', Json approved).
Proof.
  intros Hfound Hresp Htask candidate approved st'.
  assert (Hst' : respondToAssignmentRequest st rid user "approve" reason
                 = (st', Json approved))
    by (subst st'; by rewrite (approve_task_found st rid user reason request
                                 Hfound Hresp task Htask)).
  assert (Hid : _id task = taskId request)
    by (by apply Task_findById_Some in Htask as [? _]).
  assert (Hrid : req_id request = rid)
    by (by apply Request_findById_Some in Hfound as [? _]).
  assert (Heq : st' = Request_save
                  (if bool_decide (candidate ∈ assignedTo task) then st
                   else Task_save st (set_assignedTo task (assignedTo task ++ [candidate])))
                  approved).
  { subst st'. by rewrite (approve_task_found st rid user reason request
                             Hfound Hresp task Htask). }
  assert (Hreq' : Request_findById st' rid = Some approved).
  { rewrite Heq. case_bool_decide.
    - by apply (saved_request_found st rid request Hfound).
    - by apply (saved_request_found (Task_save st _) rid request Hfound). }
  assert (Htask' : ∃ task',
             Task_findById st' (taskId request) = Some task'
             ∧ assignedTo task'
               = (if decide (candidate ∈ assignedTo task) then assignedTo task
                  else assignedTo task ++ [candidate])
             ∧ candidate ∈ assignedTo task').
  { rewrite Heq, Task_findById_Request_save.
    destruct (decide (candidate ∈ assignedTo task)) as [Hin|Hin].
    - rewrite bool_decide_true by done. by exists task.
    - rewrite bool_decide_false by done. eexists. split; [|split].
      + by apply (Task_findById_saved st (taskId request) task).
      + done.
      + simpl. apply elem_of_app. right. by left. }
  rewrite Hst'. simpl. split; [done|]. split; [done|]. split; [done|]. split; [done|].
  split.
  - destruct Htask' as (task' & ? & ? & _). by exists task'.
  - intros reason'. destruct Htask' as (task' & Hfind' & _ & Hin').
    rewrite (approve_task_found st' rid user reason' approved Hreq' Hresp task' Hfind').
    rewrite bool_decide_true by done.
    f_equal. rewrite Heq. unfold Request_save. simpl. f_equal. apply save_idemp.
Qed.

Lemma approve_request_witness :
  Request_findById Scenario.ann_rejected 104 = Some (mkRequest 104 102 9 2 ReqPending None)
  ∧ assignedToUserId (mkRequest 104 102 9 2 ReqPending None) = caller_id Scenario.bob
  ∧ Task_findById Scenario.ann_rejected 102
    = Some (mkTask 102 "release" Low [] [] 0 PendingApproval)
  ∧ Request_findById Scenario.bob_approved 104
    = Some (mkRequest 104 102 9 2 ReqApproved None)
  ∧ respondToAssignmentRequest Scenario.bob_approved 104 Scenario.bob "approve" None
    = (Scenario.bob_approved, Json (mkRequest 104 102 9 2 ReqApproved None)).
Proof.
  split; [reflexivity|]. split; [reflexivity|]. split; [reflexivity|].
  pose proof (approve_request Scenario.ann_rejected 104 Scenario.bob None
                (mkRequest 104 102 9 2 ReqPending None)
                (mkTask 102 "release" Low [] [] 0 PendingApproval)
                eq_refl eq_refl eq_refl) as (_ & Hreq & _ & _ & _ & Htwice).
  split; [exact Hreq|exact (Htwice None)].
Defined.

(** C3, as stated, fails twice.  An approval of a request whose task does not
    exist is refused and the request stays Pending.  And an approval does not
    recompute the task's status: after user 2 approves request 104 the stored
    status of task 102 is still Pending Approval, although both the resolver
    and the rule of the reject branch give Pending on the new state. *)
Lemma approve_not_as_stated :
  (respondToAssignmentRequest Scenario.dangling 102 Scenario.ann "approve" None
   = (Scenario.dangling, Fail TaskNotFound)
   ∧ req_status <$> Request_findById Scenario.dangling 102 = Some ReqPending)
  ∧ (∃ task,
       Task_findById Scenario.bob_approved 102 = Some task
       ∧ status task = PendingApproval
       ∧ resolveStatus task (Request_find_byTask Scenario.bob_approved 102) = Pending
       ∧ statusAfterReject task (Request_find_byTask Scenario.bob_approved 102)
         = Pending).
Proof.
  split; [split; reflexivity|].
  exists (mkTask 102 "release" Low [2] [] 0 PendingApproval).
  repeat split; vm_compute; reflexivity.
Qed.

(** ** Listing against fetching *)

Lemma populate_fields st task :
  _id (populate st task) = _id task
  ∧ todoChecklist (populate st task) = todoChecklist task
  ∧ progress (populate st task) = progress task
  ∧ status (populate st task) = status task.
Proof. done. Qed.

Lemma sortTasks_Permutation dueDateOf sortField ascending docs :
  sortTasks dueDateOf sortField ascending docs ≡ₚ docs.
Proof.
  destruct sortField, ascending; simpl.
  - done.
  - apply reverse_Permutation.
  - apply merge_sort_Permutation.
  - apply merge_sort_Permutation.
Qed.

(** Every listed task is a stored task, shown with the status that the
    cascade gives on its populated document and its own requests. *)
Lemma getTasks_resolved regexMatch dueDateOf st q user view :
  view ∈ fst (getTasks regexMatch dueDateOf st q user) →
  ∃ task, task ∈ tasks st ∧ tv_id view = _id task
          ∧ tv_status view
            = resolveStatus (populate st task) (Request_find_byTask st (_id task)).
Proof.
  unfold getTasks. cbn [fst]. rewrite <- list_fmap_compose.
  intros (task & -> & Hin)%list_elem_of_fmap.
  exists task. split; [|done].
  rewrite sortTasks_Permutation in Hin.
  apply list_elem_of_In, filter_In in Hin as [Hin _]. by apply list_elem_of_In.
Qed.

(** What [getTaskById] sends is the stored document, populated: its status is
    the stored status. *)
Lemma getTaskById_stored st id doc :
  getTaskById st id = Json doc
  ↔ ∃ task, Task_findById st id = Some task ∧ doc = populate st task.
Proof.
  unfold getTaskById. destruct (Task_findById st id) as [task|]; split.
  - intros [= <-]. by exists task.
  - by intros (? & [= <-] & ->).
  - discriminate.
  - by intros (? & ? & _).
Qed.

(** C1. The listing resolves the status, fetching by id does not: in the store
    reached once user 1 has rejected request 103 and user 2 has approved
    request 104, [getTaskById] answers task 102 with the stored status
    Pending Approval, while the resolver, and with it [getTasks], gives
    Pending for the same task. *)
Theorem getTaskById_stale_status :
  (∃ task,
     getTaskById Scenario.bob_approved 102 = Json task
     ∧ status task = PendingApproval
     ∧ resolveStatus task (Request_find_byTask Scenario.bob_approved 102) = Pending)
  ∧ ∀ regexMatch dueDateOf,
      (λ v, (tv_id v, tv_status v))
        <$> fst (getTasks regexMatch dueDateOf Scenario.bob_approved
                   (mkQuery None None None None None) Scenario.boss)
      = [(102, Pending); (101, Pending); (100, Pending)].
Proof.
  split.
  - exists (mkTask 102 "release" Low [2] [] 0 PendingApproval).
    repeat split; vm_compute; reflexivity.
  - intros regexMatch dueDateOf. vm_compute. reflexivity.
Qed.

(** ** Progress *)

Lemma completedCount_le todo : completedCount todo ≤ length todo.
Proof. apply length_filter. Qed.

Lemma completedCount_all todo :
  completedCount todo = length todo ↔ everyItemCompleted todo.
Proof. apply filter_length_all. Qed.

Section ProgressFacts.
Variable reachesHalf : nat → nat → bool.

Lemma roundPercent_spec c t :
  0 < t → isRoundedPercent c t (roundPercent reachesHalf c t).
Proof.
  intros Ht. unfold isRoundedPercent, roundPercent.
  set (a := 200 * c + t).
  pose proof (Nat.div_mod_eq a (2 * t)) as Hdm.
  pose proof (Nat.mod_upper_bound a (2 * t) ltac:(lia)) as Hr.
  set (q := a / (2 * t)) in *. set (r := a mod (2 * t)) in *.
  destruct (bool_decide (r = 0) && negb (reachesHalf c t)) eqn:E.
  - apply andb_true_iff in E as [E%bool_decide_eq_true _].
    assert (q ≠ 0) by (intros Hq; rewrite Hq, E in Hdm; lia).
    rewrite Nat.mul_sub_distr_l. lia.
  - lia.
Qed.

Lemma roundPercent_off_half c t :
  (200 * c + t) mod (2 * t) ≠ 0 →
  roundPercent reachesHalf c t = (200 * c + t) / (2 * t).
Proof. intros Hne. unfold roundPercent. by rewrite bool_decide_false. Qed.

Lemma progressOf_empty : progressOf reachesHalf [] = 0.
Proof. done. Qed.

Lemma progressOf_off_half todo :
  todo ≠ [] → ¬ atExactHalf (completedCount todo) (length todo) →
  progressOf reachesHalf todo = roundedPercent (completedCount todo) (length todo).
Proof.
  intros Hne Hoff. unfold progressOf. fold (completedCount todo).
  assert (0 < length todo) by (destruct todo; [done|simpl; lia]).
  rewrite bool_decide_true by done. by apply roundPercent_off_half.
Qed.

Lemma progressOf_rounded todo :
  todo ≠ [] →
  isRoundedPercent (completedCount todo) (length todo) (progressOf reachesHalf todo).
Proof.
  intros Hne. unfold progressOf. fold (completedCount todo).
  assert (0 < length todo) by (destruct todo; [done|simpl; lia]).
  rewrite bool_decide_true by done. by apply roundPercent_spec.
Qed.

Lemma progressOf_le todo : progressOf reachesHalf todo ≤ 100.
Proof.
  destruct (decide (todo = [])) as [->|Hne]; [rewrite progressOf_empty; lia|].
  pose proof (progressOf_rounded todo Hne) as [H1 _].
  pose proof (completedCount_le todo).
  destruct (decide (progressOf reachesHalf todo ≤ 100)) as [|Hgt]; [done|exfalso].
  assert (0 < length todo) by (destruct todo; [done|simpl; lia]).
  assert (2 * length todo * 101 ≤ 2 * length todo * progressOf reachesHalf todo)
    by (apply Nat.mul_le_mono_l; lia).
  lia.
Qed.

Lemma progressOf_100_inv todo :
  progressOf reachesHalf todo = 100 →
  todo ≠ [] ∧ 199 * length todo ≤ 200 * completedCount todo.
Proof.
  intros H100. destruct (decide (todo = [])) as [->|Hne];
    [by rewrite progressOf_empty in H100|].
  split; [done|].
  pose proof (progressOf_rounded todo Hne) as [H1 _]. rewrite H100 in H1. lia.
Qed.

Lemma progressOf_100_intro todo :
  todo ≠ [] → 199 * length todo < 200 * completedCount todo →
  progressOf reachesHalf todo = 100.
Proof.
  intros Hne Hlt.
  pose proof (progressOf_rounded todo Hne) as [_ H2].
  pose proof (progressOf_le todo).
  destruct (decide (progressOf reachesHalf todo = 100)) as [|Hne100]; [done|exfalso].
  assert (2 * length todo * progressOf reachesHalf todo ≤ 2 * length todo * 99)
    by (apply Nat.mul_le_mono_l; lia).
  lia.
Qed.

Lemma progressOf_complete todo :
  todo ≠ [] → everyItemCompleted todo → progressOf reachesHalf todo = 100.
Proof.
  intros Hne Hall. apply progressOf_100_intro; [done|].
  apply completedCount_all in Hall.
  assert (0 < length todo) by (destruct todo; [done|simpl; lia]). lia.
Qed.

Lemma progressOf_100_short todo :
  progressOf reachesHalf todo = 100 → length todo < 200 → everyItemCompleted todo.
Proof.
  intros [_ Hle]%progressOf_100_inv Hshort. apply completedCount_all.
  pose proof (completedCount_le todo). lia.
Qed.

Lemma updateTaskChecklist_ok st id user todo task :
  Task_findById st id = Some task →
  caller_id user ∈ assignedTo task ∨ role user = admin →
  status task ≠ Rejected →
  updateTaskChecklist reachesHalf st id user todo
  = (Task_save st (withChecklist reachesHalf task todo),
     Json (Some (populate st (withChecklist reachesHalf task todo)))).
Proof.
  intros Hfound Hauth Hst. unfold updateTaskChecklist. rewrite Hfound.
  assert (Hguard : negb (bool_decide (caller_id user ∈ assignedTo task))
                   && bool_decide (role user ≠ admin) = false).
  { destruct Hauth as [Hin|Hadm].
    - by rewrite bool_decide_true.
    - rewrite (bool_decide_false (role user ≠ admin)) by (intros H; by apply H).
      apply andb_false_r. }
  rewrite Hguard. rewrite bool_decide_false by done.
  fold (withChecklist reachesHalf task todo). f_equal.
  rewrite (Task_findById_saved st id task (withChecklist reachesHalf task todo));
    [done|done|].
  by apply Task_findById_Some in Hfound as [? _].
Qed.

Lemma updateTaskChecklist_rejected st id user todo task :
  Task_findById st id = Some task →
  caller_id user ∈ assignedTo task ∨ role user = admin →
  status task = Rejected →
  updateTaskChecklist reachesHalf st id user todo
  = (st, Fail ChecklistOfRejectedTask).
Proof.
  intros Hfound Hauth Hst. unfold updateTaskChecklist. rewrite Hfound.
  assert (Hguard : negb (bool_decide (caller_id user ∈ assignedTo task))
                   && bool_decide (role user ≠ admin) = false).
  { destruct Hauth as [Hin|Hadm].
    - by rewrite bool_decide_true.
    - rewrite (bool_decide_false (role user ≠ admin)) by (intros H; by apply H).
      apply andb_false_r. }
  rewrite Hguard. by rewrite bool_decide_true.
Qed.

Lemma updateTaskChecklist_Json st id user todo st' payload :
  updateTaskChecklist reachesHalf st id user todo = (st', Json payload) →
  ∃ task, Task_findById st id = Some task
          ∧ st' = Task_save st (withChecklist reachesHalf task todo)
          ∧ Task_findById st' id = Some (withChecklist reachesHalf task todo).
Proof.
  unfold updateTaskChecklist. destruct (Task_findById st id) as [task|] eqn:Hfound;
    [|intros [=]].
  destruct (negb _ && _); [intros [=]|].
  destruct (bool_decide (status task = Rejected)); [intros [=]|].
  fold (withChecklist reachesHalf task todo). intros [= <- _].
  exists task. split; [done|]. split; [done|].
  apply (Task_findById_saved st id task); [done|].
  by apply Task_findById_Some in Hfound as [? _].
Qed.
End ProgressFacts.

Lemma statusOfProgress_cases p :
  (p = 100 → statusOfProgress p = Completed)
  ∧ (0 < p ∧ p ≠ 100 → statusOfProgress p = InProgress)
  ∧ (p = 0 → statusOfProgress p = Pending).
Proof.
  unfold statusOfProgress. repeat split.
  - intros ->. done.
  - intros [Hpos Hne]. rewrite bool_decide_false by done.
    by rewrite bool_decide_true.
  - intros ->. done.
Qed.

(** C8 (amended). A checklist replacement on an existing task by an assignee
    or an admin is refused as Forbidden, the store untouched, when the stored
    status is Rejected; otherwise the task gets the new checklist, a progress
    that is an integer nearest to [100 * completed / total] (0 for an empty
    checklist), equal to [round (100 * completed / total)] whenever the
    quotient is not exactly half-way between two integers, and the status read
    off the progress: 100 Completed, strictly between 0 and 100 In Progress,
    0 Pending. *)
Theorem checklist_update reachesHalf st id user todo task :
  Task_findById st id = Some task →
  caller_id user ∈ assignedTo task ∨ role user = admin →
  (status task = Rejected →
   ∃ f, updateTaskChecklist reachesHalf st id user todo = (st, Fail f)
        ∧ errorKind f = Forbidden)
  ∧ (status task ≠ Rejected →
     ∃ task',
       updateTaskChecklist reachesHalf st id user todo
       = (Task_save st task', Json (Some (populate st task')))
       ∧ Task_findById (Task_save st task') id = Some task'
       ∧ todoChecklist task' = todo
       ∧ (todo = [] → progress task' = 0)
       ∧ (todo ≠ [] →
          isRoundedPercent (completedCount todo) (length todo) (progress task'))
       ∧ (todo ≠ [] → ¬ atExactHalf (completedCount todo) (length todo) →
          progress task' = roundedPercent (completedCount todo) (length todo))
       ∧ progress task' ≤ 100
       ∧ (progress task' = 100 → status task' = Completed)
       ∧ (0 < progress task' < 100 → status task' = InProgress)
       ∧ (progress task' = 0 → status task' = Pending)).
Proof.
  intros Hfound Hauth. split.
  - intros Hrej. exists ChecklistOfRejectedTask. split; [|done].
    by apply (updateTaskChecklist_rejected _ _ _ _ _ task).
  - intros Hst. exists (withChecklist reachesHalf task todo).
    pose proof (statusOfProgress_cases (progressOf reachesHalf todo))
      as (H100 & Hmid & H0).
    split; [by apply updateTaskChecklist_ok|].
    split.
    { apply (Task_findById_saved st id task); [done|].
      by apply Task_findById_Some in Hfound as [? _]. }
    simpl. split; [done|]. split; [by intros ->|].
    split; [apply progressOf_rounded|]. split; [apply progressOf_off_half|].
    split; [apply progressOf_le|].
    split; [done|]. split; [|done]. intros [? ?]. apply Hmid. lia.
Qed.

Lemma checklist_update_witness :
  Task_findById Scenario.start 100 = Some (Scenario.busy 100)
  ∧ (caller_id Scenario.ann ∈ assignedTo (Scenario.busy 100)
     ∨ role Scenario.ann = admin)
  ∧ status (Scenario.busy 100) ≠ Rejected
  ∧ ∃ task',
      updateTaskChecklist ChecklistScenario.halves Scenario.start 100 Scenario.ann
        [mkItem "a" true; mkItem "b" false]
      = (Task_save Scenario.start task', Json (Some (populate Scenario.start task')))
      ∧ (progress task' = 100 → status task' = Completed).
Proof.
  assert (Hauth : caller_id Scenario.ann ∈ assignedTo (Scenario.busy 100)
                  ∨ role Scenario.ann = admin) by (left; left).
  split; [reflexivity|]. split; [exact Hauth|].
  split; [discriminate|].
  destruct (proj2 (checklist_update ChecklistScenario.halves Scenario.start 100
                     Scenario.ann [mkItem "a" true; mkItem "b" false]
                     (Scenario.busy 100) eq_refl Hauth)
              ltac:(discriminate))
    as (task' & Heq & _ & _ & _ & _ & _ & _ & H100 & _).
  exists task'. split; [exact Heq|exact H100].
Defined.

(** C8, as stated, fails at an exact half.  With 23 of 40 items completed
    [100 * completed / total] is 57.5 and [round] gives 58; the binary64
    product [(23 / 40) * 100] falls short of 57.5, and [updateTaskChecklist]
    stores progress 57. *)
Lemma checklist_update_below_round :
  length ChecklistScenario.at_a_half = 40
  ∧ completedCount ChecklistScenario.at_a_half = 23
  ∧ roundedPercent 23 40 = 58
  ∧ ∃ task,
      updateTaskChecklist Binary64.reachesHalf Scenario.start 100 Scenario.ann
        ChecklistScenario.at_a_half
      = (ChecklistScenario.halfway, Json (Some task))
      ∧ Task_findById ChecklistScenario.halfway 100 = Some task
      ∧ todoChecklist task = ChecklistScenario.at_a_half
      ∧ progress task = 57 ∧ status task = InProgress.
Proof.
  split; [vm_compute; reflexivity|]. split; [vm_compute; reflexivity|].
  split; [vm_compute; reflexivity|].
  exists (mkTask 100 "busy" High [1; 2] ChecklistScenario.at_a_half 57 InProgress).
  repeat split; vm_compute; reflexivity.
Qed.

(** The scenario of the specification: one of two items done gives progress 50
    and In Progress, whatever the evaluation does at a half. *)
Example half_done reachesHalf :
  (λ t, (progress t, status t))
    <$> Task_findById
          (fst (updateTaskChecklist reachesHalf Scenario.start 100 Scenario.ann
                  [mkItem "a" true; mkItem "b" false])) 100
  = Some (50, InProgress).
Proof. reflexivity. Qed.

(** C6 (amended). After every successful checklist replacement through
    [updateTaskChecklist], progress is an integer nearest to
    [100 * completed / total], equal to [round (100 * completed / total)]
    whenever the quotient is not exactly half-way between two integers, and 0
    when the checklist is empty; a non-empty checklist with every item
    completed has progress 100; progress 100 implies that the checklist is
    non-empty with at least 99.5 percent of its items completed, and more
    than 99.5 percent completed implies progress 100; so for a checklist of
    fewer than 200 items progress 100 means that every item is completed. *)
Theorem progress_after_checklist_update reachesHalf st id user todo st' payload :
  updateTaskChecklist reachesHalf st id user todo = (st', Json payload) →
  ∃ task',
    Task_findById st' id = Some task'
    ∧ todoChecklist task' = todo
    ∧ (todo = [] → progress task' = 0)
    ∧ (todo ≠ [] →
       isRoundedPercent (completedCount todo) (length todo) (progress task'))
    ∧ (todo ≠ [] → ¬ atExactHalf (completedCount todo) (length todo) →
       progress task' = roundedPercent (completedCount todo) (length todo))
    ∧ (todo ≠ [] → everyItemCompleted todo → progress task' = 100)
    ∧ (progress task' = 100 →
       todo ≠ [] ∧ 199 * length todo ≤ 200 * completedCount todo)
    ∧ (todo ≠ [] → 199 * length todo < 200 * completedCount todo →
       progress task' = 100)
    ∧ (progress task' = 100 → length todo < 200 → everyItemCompleted todo).
Proof.
  intros (task & _ & _ & Hfound')%updateTaskChecklist_Json.
  exists (withChecklist reachesHalf task todo). split; [done|]. simpl.
  split; [done|]. split; [by intros ->|].
  split; [apply progressOf_rounded|]. split; [apply progressOf_off_half|].
  split; [apply progressOf_complete|].
  split; [apply progressOf_100_inv|].
  split; [apply progressOf_100_intro|apply progressOf_100_short].
Qed.

Lemma progress_after_checklist_update_witness :
  updateTaskChecklist ChecklistScenario.halves Scenario.start 100 Scenario.ann
    [mkItem "a" true; mkItem "b" true]
  = (fst (updateTaskChecklist ChecklistScenario.halves Scenario.start 100 Scenario.ann
            [mkItem "a" true; mkItem "b" true]),
     Json (Some (mkTask 100 "busy" High [1; 2] [mkItem "a" true; mkItem "b" true]
                        100 Completed)))
  ∧ ∃ task',
      Task_findById
        (fst (updateTaskChecklist ChecklistScenario.halves Scenario.start 100
                Scenario.ann [mkItem "a" true; mkItem "b" true])) 100
      = Some task'
      ∧ progress task' = 100.
Proof.
  split; [reflexivity|].
  destruct (progress_after_checklist_update ChecklistScenario.halves Scenario.start
              100 Scenario.ann [mkItem "a" true; mkItem "b" true] _ _ eq_refl)
    as (task' & Hfound & _ & _ & _ & _ & Hfull & _).
  exists task'. split; [exact Hfound|].
  apply Hfull; [discriminate|repeat constructor].
Defined.

(** C6, as stated, fails.  With 200 of 201 items completed
    [updateTaskChecklist] stores progress 100 (and Completed) although an item
    is open; with an empty checklist every item is completed, vacuously, and
    progress is 0; [updateTask] replaces the checklist without touching
    progress, which stays 0 for a checklist whose only item is completed; and
    with 23 of 40 items completed, where [round] gives 58,
    [updateTaskChecklist] stores 57. *)
Lemma progress_not_as_stated :
  (∃ task,
     Task_findById ChecklistScenario.long_list 100 = Some task
     ∧ todoChecklist task = ChecklistScenario.almost_done
     ∧ progress task = 100 ∧ status task = Completed
     ∧ ¬ everyItemCompleted (todoChecklist task))
  ∧ (∃ task,
       Task_findById ChecklistScenario.emptied 100 = Some task
       ∧ everyItemCompleted (todoChecklist task) ∧ progress task = 0)
  ∧ (∃ task,
       Task_findById ChecklistScenario.edited 100 = Some task
       ∧ todoChecklist task = [mkItem "only" true]
       ∧ progress task = 0
       ∧ ¬ isRoundedPercent (completedCount (todoChecklist task))
                            (length (todoChecklist task)) (progress task))
  ∧ (∃ task,
       Task_findById ChecklistScenario.halfway 100 = Some task
       ∧ todoChecklist task = ChecklistScenario.at_a_half
       ∧ progress task = 57
       ∧ roundedPercent (completedCount (todoChecklist task))
                        (length (todoChecklist task)) = 58).
Proof.
  split; [|split; [|split]].
  - exists (withChecklist ChecklistScenario.halves (Scenario.busy 100)
                          ChecklistScenario.almost_done).
    split; [vm_compute; reflexivity|]. split; [reflexivity|].
    split; [vm_compute; reflexivity|]. split; [vm_compute; reflexivity|].
    intros Hall%completedCount_all. vm_compute in Hall. discriminate.
  - exists (withChecklist ChecklistScenario.halves (Scenario.busy 100) []).
    split; [vm_compute; reflexivity|]. split; [constructor|reflexivity].
  - exists (mkTask 100 "busy" High [1; 2] [mkItem "only" true] 0 Pending).
    split; [vm_compute; reflexivity|].
    split; [reflexivity|]. split; [reflexivity|].
    unfold isRoundedPercent. vm_compute. lia.
  - exists (mkTask 100 "busy" High [1; 2] ChecklistScenario.at_a_half 57 InProgress).
    repeat split; vm_compute; reflexivity.
Qed.

(** The binary64 evaluation at some exact halves: 12.5, 37.5 and 99.5 are
    reached; 57.5 (23 of 40, 46 of 80), 14.5 and 28.5 are not. *)
Example binary64_halves :
  (λ '(c, t), Binary64.reachesHalf c t)
    <$> [(1, 8); (3, 8); (199, 200); (23, 40); (46, 80); (29, 200); (57, 200)]
  = [true; true; true; false; false; false; false].
Proof. vm_compute. reflexivity. Qed.

(** The long checklist is not at a half: the stored progress does not depend
    on how the evaluation falls there. *)
Example long_list_off_half reachesHalf :
  progressOf reachesHalf ChecklistScenario.almost_done = 100.
Proof.
  assert (Hc : completedCount ChecklistScenario.almost_done = 200)
    by (vm_compute; reflexivity).
  assert (Hl : length ChecklistScenario.almost_done = 201)
    by (vm_compute; reflexivity).
  apply progressOf_100_intro.
  - intros E. rewrite E in Hl. discriminate.
  - rewrite Hc, Hl. lia.
Qed.

(** ** Creating a request *)

Lemma find_is_Some {A : Type} (f : A → bool) (l : list A) :
  is_Some (List.find f l) ↔ ∃ x, x ∈ l ∧ f x = true.
Proof.
  split.
  - intros [x Hx]. apply find_some in Hx as [Hin Hf]. exists x.
    split; [by apply list_elem_of_In|done].
  - intros (x & Hin & Hf). destruct (List.find f l) eqn:E; [by eexists|].
    apply list_elem_of_In in Hin. pose proof (find_none f l E x Hin). congruence.
Qed.

Lemma existingRequest_found st tid uid :
  is_Some (List.find (λ r, bool_decide (taskId r = tid ∧ assignedToUserId r = uid
                                        ∧ req_status r = ReqPending)) (requests st))
  ↔ pendingExists st tid uid.
Proof.
  rewrite find_is_Some. unfold pendingExists, isPendingFor.
  by setoid_rewrite bool_decide_eq_true.
Qed.

Lemma createTaskAssignmentRequest_conflict st tid uid user :
  pendingExists st tid uid →
  createTaskAssignmentRequest st tid uid user = (st, Fail PendingRequestExists).
Proof.
  intros [r Hr]%existingRequest_found. unfold createTaskAssignmentRequest.
  by rewrite Hr.
Qed.

Lemma createTaskAssignmentRequest_created st tid uid user :
  ¬ pendingExists st tid uid →
  createTaskAssignmentRequest st tid uid user
  = (mkStore (tasks st)
             (requests st ++ [mkRequest (nextId st) tid (caller_id user) uid ReqPending None])
             (users st) (S (nextId st)),
     Json (mkRequest (nextId st) tid (caller_id user) uid ReqPending None)).
Proof.
  intros Hno. unfold createTaskAssignmentRequest.
  destruct (List.find _ (requests st)) as [r|] eqn:E; [|done].
  exfalso. apply Hno, existingRequest_found. by eexists.
Qed.

(** A successful answer rewrites the answered request, as Approved or
    Rejected, and no other request. *)
Lemma respond_Json st rid user action reason st' answer :
  respondToAssignmentRequest st rid user action reason = (st', Json answer) →
  ∃ request,
    Request_findById st rid = Some request
    ∧ (answer = respond request ReqApproved None
       ∨ answer = respond request ReqRejected (orNull reason))
    ∧ requests st' = save req_id (requests st) answer.
Proof.
  unfold respondToAssignmentRequest.
  destruct (Request_findById st rid) as [request|] eqn:Hfound; [|intros [=]].
  destruct (bool_decide (assignedToUserId request ≠ caller_id user)); [intros [=]|].
  destruct (bool_decide (action = "approve"%string)).
  { destruct (Task_findById st (taskId request)) as [task|]; [|intros [=]].
    intros [= <- <-]. exists request. split; [done|]. split; [by left|].
    by destruct (bool_decide _). }
  destruct (bool_decide (action = "reject"%string)); [|intros [=]].
  destruct (Task_findById _ _); intros [= <- <-]; exists request;
    (split; [done|]); (split; [by right|done]).
Qed.

(** C7. [createTaskAssignmentRequest] fails, with Conflict and without
    changing the store, exactly when a Pending request already exists for the
    (task, candidate) pair; otherwise it appends a new Pending request and
    leaves every task, hence every assignedTo list, as it was; and once the
    pair's Pending request has been answered (approved or rejected), a new
    request for the pair is created. *)
Theorem create_request st tid uid user :
  (pendingExists st tid uid
   ↔ ∃ f, snd (createTaskAssignmentRequest st tid uid user) = Fail f
          ∧ errorKind f = Conflict)
  ∧ (pendingExists st tid uid →
     fst (createTaskAssignmentRequest st tid uid user) = st)
  ∧ (¬ pendingExists st tid uid →
     ∃ newRequest,
       createTaskAssignmentRequest st tid uid user
       = (mkStore (tasks st) (requests st ++ [newRequest]) (users st) (S (nextId st)),
          Json newRequest)
       ∧ isPendingFor tid uid newRequest)
  ∧ (∀ rid responder action reason st' answer,
       (∀ r, r ∈ requests st → isPendingFor tid uid r → req_id r = rid) →
       respondToAssignmentRequest st rid responder action reason = (st', Json answer) →
       req_status answer ≠ ReqPending
       ∧ ∃ newRequest,
           snd (createTaskAssignmentRequest st' tid uid user) = Json newRequest
           ∧ isPendingFor tid uid newRequest).
Proof.
  split; [|split; [|split]].
  - split.
    + intros Hex. exists PendingRequestExists.
      by rewrite createTaskAssignmentRequest_conflict.
    + intros (f & Hf & _). apply existingRequest_found.
      unfold createTaskAssignmentRequest in Hf.
      destruct (List.find _ (requests st)); [by eexists|discriminate].
  - intros Hex. by rewrite createTaskAssignmentRequest_conflict.
  - intros Hno. eexists. split; [by apply createTaskAssignmentRequest_created|done].
  - intros rid responder action reason st' answer Honly Hresp.
    apply respond_Json in Hresp as (request & Hfound & Hanswer & Hreqs).
    assert (Hst : req_status answer ≠ ReqPending) by (by destruct Hanswer as [->| ->]).
    assert (Hrid : req_id answer = rid).
    { apply Request_findById_Some in Hfound as [Hid _]. by destruct Hanswer as [->| ->]. }
    split; [done|].
    assert (Hno : ¬ pendingExists st' tid uid).
    { intros (r & Hin & Hpend). rewrite Hreqs in Hin.
      apply elem_of_save in Hin as [->|[Hin Hne]].
      - by destruct Hpend as (_ & _ & ?).
      - apply Hne. rewrite Hrid. by apply Honly. }
    rewrite (createTaskAssignmentRequest_created st' tid uid user Hno). simpl.
    by eexists.
Qed.

Lemma create_request_witness :
  (pendingExists Scenario.created 102 1
   ∧ fst (createTaskAssignmentRequest Scenario.created 102 1 Scenario.boss)
     = Scenario.created)
  ∧ (¬ pendingExists Scenario.start 102 1
     ∧ ∃ newRequest,
         createTaskAssignmentRequest Scenario.start 102 1 Scenario.boss
         = (mkStore (tasks Scenario.start) (requests Scenario.start ++ [newRequest])
                    (users Scenario.start) (S (nextId Scenario.start)),
            Json newRequest)
         ∧ isPendingFor 102 1 newRequest)
  ∧ ((∀ r, r ∈ requests Scenario.created → isPendingFor 102 1 r → req_id r = 103)
     ∧ respondToAssignmentRequest Scenario.created 103 Scenario.ann "reject"
         (Some "no time"%string)
       = (Scenario.ann_rejected,
          Json (mkRequest 103 102 9 1 ReqRejected (Some "no time"%string)))
     ∧ ∃ newRequest,
         snd (createTaskAssignmentRequest Scenario.ann_rejected 102 1 Scenario.boss)
         = Json newRequest
         ∧ isPendingFor 102 1 newRequest).
Proof.
  assert (Hex : pendingExists Scenario.created 102 1).
  { exists (mkRequest 103 102 9 1 ReqPending None). split; [left|repeat split]. }
  assert (Hno : ¬ pendingExists Scenario.start 102 1).
  { intros (r & Hin & _). inversion Hin. }
  assert (Honly : ∀ r, r ∈ requests Scenario.created → isPendingFor 102 1 r
                       → req_id r = 103).
  { intros r Hin (_ & Hu & _).
    apply elem_of_cons in Hin as [->|Hin]; [reflexivity|].
    apply elem_of_cons in Hin as [->|Hin]; [discriminate|inversion Hin]. }
  split; [|split].
  - split; [exact Hex|].
    exact (proj1 (proj2 (create_request Scenario.created 102 1 Scenario.boss)) Hex).
  - split; [exact Hno|].
    exact (proj1 (proj2 (proj2 (create_request Scenario.start 102 1 Scenario.boss))) Hno).
  - split; [exact Honly|]. split; [reflexivity|].
    exact (proj2 (proj2 (proj2 (proj2 (create_request Scenario.created 102 1 Scenario.boss)))
                    103 Scenario.ann "reject"%string (Some "no time"%string)
                    Scenario.ann_rejected
                    (mkRequest 103 102 9 1 ReqRejected (Some "no time"%string))
                    Honly eq_refl)).
Defined.

(** ** Overload and task creation *)

Lemma partitionCandidates_filter st candidates :
  partitionCandidates st candidates
  = (filter (λ u, isOverloaded st u = true) candidates,
     filter (λ u, isOverloaded st u ≠ true) candidates).
Proof.
  unfold partitionCandidates.
  enough (Hgen : ∀ withHigh withoutHigh,
    foldl (λ '(withHigh, withoutHigh) userId,
             if bool_decide (2 ≤ countHighPriorityTasks st userId)
             then (withHigh ++ [userId], withoutHigh)
             else (withHigh, withoutHigh ++ [userId]))
          (withHigh, withoutHigh) candidates
    = (withHigh ++ filter (λ u, isOverloaded st u = true) candidates,
       withoutHigh ++ filter (λ u, isOverloaded st u ≠ true) candidates))
    by apply (Hgen [] []).
  induction candidates as [|u candidates IH]; intros withHigh withoutHigh; simpl.
  - by rewrite !app_nil_r.
  - rewrite !filter_cons.
    change (bool_decide (2 ≤ countHighPriorityTasks st u)) with (isOverloaded st u).
    destruct (decide (isOverloaded st u = true)) as [E|E].
    + rewrite E, IH. rewrite decide_False by (intros H; by apply H).
      by rewrite <- app_assoc.
    + apply not_true_is_false in E as E'. rewrite E', IH.
      rewrite decide_True by done. by rewrite <- app_assoc.
Qed.

(** The loop of [createTask] over the overloaded candidates. *)
Lemma requests_loop tid user (over : list ObjectId) : ∀ s,
  let s' := foldl (λ s userId, fst (createTaskAssignmentRequest s tid userId user))
                  s over in
  tasks s' = tasks s
  ∧ (∃ news, requests s' = requests s ++ news
             ∧ Forall (λ r, taskId r = tid ∧ assignedToUserId r ∈ over) news)
  ∧ ∀ u, u ∈ over → pendingExists s' tid u.
Proof.
  induction over as [|u over IH]; intros s; simpl.
  - split; [done|]. split; [exists []; by rewrite app_nil_r|].
    intros u Hu. inversion Hu.
  - set (s1 := fst (createTaskAssignmentRequest s tid u user)).
    assert (H1 : tasks s1 = tasks s
                 ∧ (∃ news, requests s1 = requests s ++ news
                            ∧ Forall (λ r, taskId r = tid ∧ assignedToUserId r = u) news)
                 ∧ pendingExists s1 tid u).
    { subst s1. unfold createTaskAssignmentRequest.
      destruct (List.find _ (requests s)) as [r|] eqn:E; simpl.
      - split; [done|]. split; [exists []; by rewrite app_nil_r|].
        apply existingRequest_found. by eexists.
      - split; [done|]. split; [eexists; split; [done|by repeat constructor]|].
        eexists. split; [apply elem_of_app; right; left|done]. }
    destruct H1 as (Ht1 & (news1 & Hr1 & Hn1) & Hp1).
    destruct (IH s1) as (Ht & (news & Hr & Hn) & Hp).
    split; [by rewrite Ht|]. split.
    + exists (news1 ++ news). rewrite Hr, Hr1, app_assoc. split; [done|].
      apply Forall_app. split.
      * eapply Forall_impl; [exact Hn1|]. intros r [? ->]. split; [done|left].
      * eapply Forall_impl; [exact Hn|]. intros r [? ?]. split; [done|by right].
    + intros v Hv. apply elem_of_cons in Hv as [->|Hv]; [|by apply Hp].
      destruct Hp1 as (r & Hin & Hpend). exists r. split; [|done].
      rewrite Hr. apply elem_of_app. by left.
Qed.

(** C9. A user is overloaded exactly when at least two tasks have the user in
    assignedTo, priority High and a stored status other than Completed; and
    [createTask], given fresh ids, leaves every overloaded candidate out of
    the new task's assignedTo and creates a Pending request for the candidate
    instead, while every other candidate is put in assignedTo and gets no
    request. *)
Theorem overload_routing dflt st body user candidates :
  (∀ u, isOverloaded st u = true
        ↔ 2 ≤ length (filter (λ t, u ∈ assignedTo t ∧ priority t = High
                                   ∧ status t ≠ Completed) (tasks st)))
  ∧ (cb_assignedTo body = IdArray candidates →
     (∀ r, r ∈ requests st → taskId r ≠ nextId st) →
     ∃ st' task flag,
       createTask dflt st body user = (st', Json (task, flag))
       ∧ _id task = nextId st
       ∧ tasks st' = tasks st ++ [task]
       ∧ (∀ u, u ∈ candidates → isOverloaded st u = true →
          (u ∉ assignedTo task)
          ∧ ∃ r, r ∈ requests st' ∧ (r ∉ requests st) ∧ isPendingFor (_id task) u r)
       ∧ (∀ u, u ∈ candidates → isOverloaded st u ≠ true →
          u ∈ assignedTo task
          ∧ ∀ r, r ∈ requests st' → assignedToUserId r = u → r ∈ requests st)).
Proof.
  split.
  - intros u. unfold isOverloaded, countHighPriorityTasks. apply bool_decide_eq_true.
  - intros Hbody Hfresh. unfold createTask. rewrite Hbody.
    rewrite partitionCandidates_filter.
    set (over := filter (λ u, isOverloaded st u = true) candidates).
    set (direct := filter (λ u, isOverloaded st u ≠ true) candidates).
    set (task := mkTask (nextId st) _ _ direct _ _ _).
    set (st1 := mkStore (tasks st ++ [task]) _ _ _).
    destruct (requests_loop (_id task) user over st1) as (Ht & (news & Hr & Hn) & Hp).
    eexists _, task, _. split; [reflexivity|]. split; [done|]. split; [exact Ht|].
    rewrite Forall_forall in Hn. split.
    + intros u Hu Hover. split.
      * intros Hin. apply list_elem_of_filter in Hin as [Hnot _]. by apply Hnot.
      * assert (Hu' : u ∈ over) by (by apply list_elem_of_filter).
        destruct (Hp u Hu') as (r & Hin & Hpend). exists r.
        split; [exact Hin|]. split; [|exact Hpend].
        intros Hold. apply (Hfresh r Hold). by destruct Hpend as [? _].
    + intros u Hu Hnot. split; [by apply list_elem_of_filter|].
      intros r Hin Hru. rewrite Hr in Hin. simpl in Hin.
      apply elem_of_app in Hin as [Hin|Hin]; [done|].
      destruct (Hn r Hin) as [_ Hov]. rewrite Hru in Hov.
      apply list_elem_of_filter in Hov as [Hov _]. done.
Qed.

Lemma overload_routing_witness :
  cb_assignedTo (mkCreateBody "plan" None (IdArray [1; 3]) []) = IdArray [1; 3]
  ∧ (∀ r, r ∈ requests Scenario.start → taskId r ≠ nextId Scenario.start)
  ∧ isOverloaded Scenario.start 1 = true
  ∧ isOverloaded Scenario.start 3 ≠ true
  ∧ ∃ st' task flag,
      createTask Scenario.schema Scenario.start
                 (mkCreateBody "plan" None (IdArray [1; 3]) []) Scenario.boss
      = (st', Json (task, flag))
      ∧ (1 ∉ assignedTo task)
      ∧ (∃ r, r ∈ requests st' ∧ (r ∉ requests Scenario.start)
              ∧ isPendingFor (_id task) 1 r)
      ∧ 3 ∈ assignedTo task.
Proof.
  assert (Hfresh : ∀ r, r ∈ requests Scenario.start → taskId r ≠ nextId Scenario.start)
    by (intros r Hin; inversion Hin).
  split; [reflexivity|]. split; [exact Hfresh|]. split; [reflexivity|].
  split; [discriminate|].
  destruct (proj2 (overload_routing Scenario.schema Scenario.start
                     (mkCreateBody "plan" None (IdArray [1; 3]) []) Scenario.boss
                     [1; 3]) eq_refl Hfresh)
    as (st' & task & flag & Heq & _ & _ & Hover & Hfree).
  exists st', task, flag. split; [exact Heq|].
  destruct (Hover 1 ltac:(left) eq_refl) as [Hout Hreq].
  destruct (Hfree 3 ltac:(right; left) ltac:(discriminate)) as [Hin _].
  split; [exact Hout|]. split; [exact Hreq|exact Hin].
Defined.

Example createTask_scenario :
  createTask Scenario.schema Scenario.start
             (mkCreateBody "plan" None (IdArray [1; 3]) []) Scenario.boss
  = (mkStore [Scenario.busy 100; Scenario.busy 101;
              mkTask 102 "plan" Medium [3] [] 0 Pending]
             [mkRequest 103 102 9 1 ReqPending None]
             [1; 2; 3; 9] 104,
     Json (mkTask 102 "plan" Medium [3] [] 0 Pending, true)).
Proof. vm_compute. reflexivity. Qed.


(** * Further properties *)

(** ** The resolver *)

Lemma Listed_ext task m1 m2 s :
  (∀ u r, mapped m1 u r ↔ mapped m2 u r) →
  Listed task m1 s → Listed task m2 s.
Proof.
  intros Hm.
  assert (HS : SingleUserRejected task m1 ↔ SingleUserRejected task m2).
  { unfold SingleUserRejected. by setoid_rewrite Hm. }
  assert (HM : ∀ r, anyMapped m1 r ↔ anyMapped m2 r).
  { intros r. unfold anyMapped. by setoid_rewrite Hm. }
  intros H. destruct H.
  - apply Listed_rejected. tauto.
  - apply Listed_pendingApproval; [tauto|by apply HM].
  - apply Listed_completed; [tauto|by rewrite <- HM|by apply HM|done].
  - apply Listed_inProgress; [tauto|by rewrite <- HM|by apply HM|done|done].
  - apply Listed_pending; [tauto|by rewrite <- HM|by apply HM|done].
  - apply Listed_stored; [tauto|by rewrite <- HM|by rewrite <- HM].
Qed.

(** X1. The resolver looks only at the latest request of each candidate: two
    request lists that agree on the state of every candidate's last request
    resolve every task alike, whatever older requests they hold. *)
Theorem resolveStatus_latest_only task reqs1 reqs2 :
  (∀ u, req_status <$> latestRequest reqs1 u = req_status <$> latestRequest reqs2 u) →
  resolveStatus task reqs1 = resolveStatus task reqs2.
Proof.
  intros Hlatest. symmetry. apply resolveStatus_unique.
  apply (Listed_ext task (buildAssignmentMap reqs1)); [|apply resolveStatus_sound].
  intros u r. rewrite !mapped_latest. specialize (Hlatest u).
  destruct (latestRequest reqs1 u) as [r1|], (latestRequest reqs2 u) as [r2|];
    simpl in Hlatest; try discriminate.
  - injection Hlatest as Hst. split; intros (x & [= <-] & Hx); eexists; split; eauto;
      congruence.
  - split; intros (x & [=] & _).
Qed.

Lemma resolveStatus_latest_only_witness :
  (∀ u, req_status <$> latestRequest [mkRequest 20 7 9 5 ReqPending None;
                                       mkRequest 21 7 9 5 ReqRejected None] u
        = req_status <$> latestRequest [mkRequest 30 7 9 5 ReqRejected None] u)
  ∧ resolveStatus (mkTask 7 "t" Low [5; 6] [] 0 Pending)
                  [mkRequest 20 7 9 5 ReqPending None;
                   mkRequest 21 7 9 5 ReqRejected None]
    = resolveStatus (mkTask 7 "t" Low [5; 6] [] 0 Pending)
                    [mkRequest 30 7 9 5 ReqRejected None].
Proof.
  assert (H : ∀ u, req_status <$> latestRequest [mkRequest 20 7 9 5 ReqPending None;
                                                  mkRequest 21 7 9 5 ReqRejected None] u
                   = req_status <$> latestRequest [mkRequest 30 7 9 5 ReqRejected None] u).
  { intros u. unfold latestRequest. rewrite !filter_cons, !filter_nil. simpl.
    destruct (decide (5 = u)); reflexivity. }
  split; [exact H|].
  exact (resolveStatus_latest_only (mkTask 7 "t" Low [5; 6] [] 0 Pending) _ _ H).
Defined.

(** X2. Writing the resolved status back into the task does not change what
    the resolver returns: resolution is stable under its own result. *)
Theorem resolveStatus_stable task reqs :
  resolveStatus (set_status task (resolveStatus task reqs)) reqs
  = resolveStatus task reqs.
Proof.
  unfold resolveStatus at 1 3.
  change (allRejected (set_status task ?s) ?m) with (allRejected task m).
  change (singleUserRejected (set_status task ?s) ?m) with (singleUserRejected task m).
  change (allTodoCompleted (set_status task ?s)) with (allTodoCompleted task).
  change (todoStarted (set_status task ?s)) with (todoStarted task).
  set (m := buildAssignmentMap reqs).
  destruct (allRejected task m || singleUserRejected task m) eqn:E1; [done|].
  destruct (hasPending m) eqn:E2; [done|].
  destruct (hasApproved m && allTodoCompleted task) eqn:E3; [done|].
  destruct (hasApproved m && todoStarted task) eqn:E4; [done|].
  destruct (hasApproved m && negb (todoStarted task)) eqn:E5; [done|].
  simpl. unfold resolveStatus. fold m. by rewrite E1, E2, E3, E4, E5.
Qed.

Lemma anyMapped_latest reqs s :
  anyMapped (buildAssignmentMap reqs) s
  ↔ ∃ u r, latestRequest reqs u = Some r ∧ req_status r = s.
Proof. unfold anyMapped. by setoid_rewrite mapped_latest. Qed.

Lemma SingleUserRejected_latest task reqs :
  SingleUserRejected task (buildAssignmentMap reqs)
  ↔ ∃ u r, assignedTo task = [u] ∧ latestRequest reqs u = Some r
           ∧ req_status r = ReqRejected.
Proof.
  unfold SingleUserRejected. setoid_rewrite mapped_latest. split.
  - intros (u & Hu & r & Hr & Hs). by exists u, r.
  - intros (u & r & Hu & Hr & Hs). exists u. split; [done|]. by exists r.
Qed.

Lemma AllItemsComplete_Forall task :
  AllItemsComplete task
  ↔ todoChecklist task ≠ [] ∧ Forall (λ item, completed item = true) (todoChecklist task).
Proof. unfold AllItemsComplete. by rewrite Forall_forall. Qed.

Lemma SomeItemComplete_Exists task :
  SomeItemComplete task ↔ Exists (λ item, completed item = true) (todoChecklist task).
Proof. unfold SomeItemComplete. by rewrite Exists_exists. Qed.

(** X23. The status that [getTasks] shows for a populated task document,
    rule by rule and first match winning, in terms of the latest request of
    each candidate.  The only rejection rule is that of a task shown with
    exactly one assigned user: a task shown with none or with two or more is
    shown as Rejected only when Rejected is its stored status and no
    candidate's latest request is Pending or Approved. *)
Theorem listing_cascade task reqs :
  let latest s := ∃ u r, latestRequest reqs u = Some r ∧ req_status r = s in
  let single := ∃ u r, assignedTo task = [u] ∧ latestRequest reqs u = Some r
                       ∧ req_status r = ReqRejected in
  let finished := todoChecklist task ≠ []
                  ∧ Forall (λ item, completed item = true) (todoChecklist task) in
  let started := Exists (λ item, completed item = true) (todoChecklist task) in
  (single → resolveStatus task reqs = Rejected)
  ∧ (¬ single → latest ReqPending → resolveStatus task reqs = PendingApproval)
  ∧ (¬ single → ¬ latest ReqPending → latest ReqApproved → finished →
     resolveStatus task reqs = Completed)
  ∧ (¬ single → ¬ latest ReqPending → latest ReqApproved → ¬ finished → started →
     resolveStatus task reqs = InProgress)
  ∧ (¬ single → ¬ latest ReqPending → latest ReqApproved → ¬ started →
     resolveStatus task reqs = Pending)
  ∧ (¬ single → ¬ latest ReqPending → ¬ latest ReqApproved →
     resolveStatus task reqs = status task)
  ∧ (length (assignedTo task) ≠ 1 → resolveStatus task reqs = Rejected →
     status task = Rejected ∧ ¬ latest ReqPending ∧ ¬ latest ReqApproved).
Proof.
  intros latest single finished started. subst latest single finished started.
  cbv beta.
  rewrite <- (SingleUserRejected_latest task reqs).
  rewrite <- !(anyMapped_latest reqs).
  rewrite <- (AllItemsComplete_Forall task), <- (SomeItemComplete_Exists task).
  split; [intros Hs; by apply resolveStatus_unique, Listed_rejected|].
  split; [intros Hs Hp; by apply resolveStatus_unique, Listed_pendingApproval|].
  split; [intros Hs Hp Ha Hf; by apply resolveStatus_unique, Listed_completed|].
  split; [intros Hs Hp Ha Hf Ht; by apply resolveStatus_unique, Listed_inProgress|].
  split; [intros Hs Hp Ha Ht; by apply resolveStatus_unique, Listed_pending|].
  split; [intros Hs Hp Ha; by apply resolveStatus_unique, Listed_stored|].
  intros Hlen Hres. pose proof (resolveStatus_sound task reqs) as HL.
  rewrite Hres in HL.
  inversion HL as [(u & Hu & _)| | | | |]; [by rewrite Hu in Hlen|done].
Qed.

Lemma listing_cascade_witness :
  resolveStatus (mkTask 7 "pair" Low [3; 9] [] 0 Pending)
                [mkRequest 8 7 9 3 ReqRejected None;
                 mkRequest 9 7 9 9 ReqRejected None] = Pending.
Proof.
  assert (Hlatest : ∀ u r,
            latestRequest [mkRequest 8 7 9 3 ReqRejected None;
                           mkRequest 9 7 9 9 ReqRejected None] u = Some r →
            req_status r = ReqRejected).
  { intros u r. unfold latestRequest. rewrite !filter_cons, !filter_nil. simpl.
    destruct (decide (3 = u)), (decide (9 = u)); simpl; by intros [= <-]. }
  apply (proj1 (proj2 (proj2 (proj2 (proj2 (proj2
           (listing_cascade (mkTask 7 "pair" Low [3; 9] [] 0 Pending)
                            [mkRequest 8 7 9 3 ReqRejected None;
                             mkRequest 9 7 9 9 ReqRejected None]))))))).
  - intros (u & r & Hone & _). discriminate.
  - intros (u & r & Hr & Hs). rewrite (Hlatest u r Hr) in Hs. discriminate.
  - intros (u & r & Hr & Hs). rewrite (Hlatest u r Hr) in Hs. discriminate.
Defined.

Lemma not_mapped_empty u s : ¬ mapped (∅ : gmap nat AssignmentInfo) u s.
Proof. intros (req & Hreq & _). by rewrite lookup_empty in Hreq. Qed.

Lemma resolveStatus_no_requests task : resolveStatus task [] = status task.
Proof.
  apply resolveStatus_unique, Listed_stored.
  - intros (u & _ & Hu). by apply not_mapped_empty in Hu.
  - intros (u & Hu). by apply not_mapped_empty in Hu.
  - intros (u & Hu). by apply not_mapped_empty in Hu.
Qed.

Lemma List_filter_all {A : Type} (f : A → bool) (l : list A) :
  (∀ x, f x = true) → List.filter f l = l.
Proof.
  intros Hf. induction l as [|x l IH]; simpl; [done|]. by rewrite Hf, IH.
Qed.

(** X3. A task that no request refers to is listed with its stored status;
    its assigned users that have a user document are shown once each and in
    stored order, with neither the rejected nor the pending mark and no
    rejection reason, and nobody else is shown. *)
Theorem listing_without_requests st task :
  (∀ r, r ∈ requests st → taskId r ≠ _id task) →
  taskWithAssignmentInfo st (populate st task)
  = mkTaskView (_id task) (title task) (priority task) (todoChecklist task)
               (progress task)
               ((λ u, mkUserView u false false None)
                  <$> filter (λ u, u ∈ users st) (assignedTo task))
               (completedCount (todoChecklist task))
               (status task).
Proof.
  intros Hnone.
  assert (Hreqs : Request_find_byTask st (_id task) = []).
  { apply filter_empty_iff. intros r Hr. by apply Hnone. }
  unfold taskWithAssignmentInfo. cbn [_id populate set_assignedTo]. rewrite Hreqs.
  change (buildAssignmentMap []) with (∅ : gmap nat AssignmentInfo).
  rewrite map_to_list_empty. simpl. rewrite app_nil_r.
  rewrite resolveStatus_no_requests. fold (completedCount (todoChecklist task)).
  f_equal. rewrite List_filter_all; [|intros u; by rewrite lookup_empty].
  apply list_fmap_ext. intros i u _. unfold annotate, statusIs.
  by rewrite lookup_empty.
Qed.

Example scenario_with_stranger :
  Scenario.with_stranger
  = mkStore [Scenario.busy 100; Scenario.busy 101;
             mkTask 102 "move" Low [7; 3] [] 0 Pending]
            [] [1; 2; 3; 9] 103.
Proof. vm_compute. reflexivity. Qed.

Lemma listing_without_requests_witness :
  (∀ r, r ∈ requests Scenario.with_stranger
        → taskId r ≠ _id (mkTask 102 "move" Low [7; 3] [] 0 Pending))
  ∧ tv_status (taskWithAssignmentInfo Scenario.with_stranger
                 (populate Scenario.with_stranger
                    (mkTask 102 "move" Low [7; 3] [] 0 Pending))) = Pending
  ∧ tv_assignedTo (taskWithAssignmentInfo Scenario.with_stranger
                     (populate Scenario.with_stranger
                        (mkTask 102 "move" Low [7; 3] [] 0 Pending)))
    = [mkUserView 3 false false None].
Proof.
  assert (Hnone : ∀ r, r ∈ requests Scenario.with_stranger
                       → taskId r ≠ _id (mkTask 102 "move" Low [7; 3] [] 0 Pending))
    by (intros r Hin; inversion Hin).
  split; [exact Hnone|].
  rewrite (listing_without_requests Scenario.with_stranger
             (mkTask 102 "move" Low [7; 3] [] 0 Pending) Hnone).
  split; reflexivity.
Defined.

Lemma statusAfterReject_Rejected task reqs :
  statusAfterReject task reqs = Rejected →
  everyRequestIs ReqRejected reqs ∧ directAssignees task reqs = [].
Proof.
  intros H. pose proof (statusAfterReject_sound task reqs) as Hrule.
  rewrite H in Hrule. by inversion Hrule.
Qed.

Lemma resolve_after_rejected_store task reqs :
  everyRequestIs ReqRejected reqs → status task = Rejected →
  resolveStatus task reqs = Rejected.
Proof.
  intros Hall Hst.
  pose proof (resolveStatus_sound task reqs) as H.
  destruct H; try done.
  - exfalso. by apply (no_mapped_of_requests reqs ReqRejected ReqPending Hall).
  - exfalso. by apply (no_mapped_of_requests reqs ReqRejected ReqApproved Hall).
  - exfalso. by apply (no_mapped_of_requests reqs ReqRejected ReqApproved Hall).
  - exfalso. by apply (no_mapped_of_requests reqs ReqRejected ReqApproved Hall).
Qed.

(** X4. Whenever the reject branch stores Rejected, the listing agrees: the
    resolver, run on the task and requests as the branch leaves them, returns
    Rejected too, on the stored document and on the populated one that
    [getTasks] reads. *)
Theorem reject_rejected_agrees st rid user reason request task task' :
  Request_findById st rid = Some request →
  assignedToUserId request = caller_id user →
  Task_findById st (taskId request) = Some task →
  let st' := fst (respondToAssignmentRequest st rid user "reject" reason) in
  Task_findById st' (taskId request) = Some task' →
  status task' = Rejected →
  resolveStatus task' (Request_find_byTask st' (taskId request)) = Rejected
  ∧ tv_status (taskWithAssignmentInfo st' (populate st' task')) = Rejected.
Proof.
  intros Hfound Hresp Htask st'. subst st'.
  rewrite (reject_task_found st rid user reason request Hfound Hresp task Htask).
  cbn [fst]. intros Hfind' Hst.
  assert (Hid : _id task = taskId request)
    by (by apply Task_findById_Some in Htask as [? _]).
  rewrite (Task_findById_saved _ (taskId request) task _) in Hfind';
    [|by rewrite Task_findById_Request_save|done].
  injection Hfind' as <-. cbn [status set_status] in Hst.
  destruct (statusAfterReject_Rejected _ _ Hst) as [Hall _].
  split.
  - by apply resolve_after_rejected_store.
  - unfold taskWithAssignmentInfo. cbn [tv_status _id populate set_assignedTo set_status].
    rewrite Hid. by apply resolve_after_rejected_store.
Qed.

Lemma reject_rejected_agrees_witness :
  Request_findById Scenario.created_for_ann 103
  = Some (mkRequest 103 102 9 1 ReqPending None)
  ∧ assignedToUserId (mkRequest 103 102 9 1 ReqPending None) = caller_id Scenario.ann
  ∧ Task_findById Scenario.created_for_ann 102
    = Some (mkTask 102 "audit" Low [] [] 0 Pending)
  ∧ Task_findById Scenario.ann_declined 102
    = Some (mkTask 102 "audit" Low [] [] 0 Rejected)
  ∧ status (mkTask 102 "audit" Low [] [] 0 Rejected) = Rejected
  ∧ resolveStatus (mkTask 102 "audit" Low [] [] 0 Rejected)
                  (Request_find_byTask Scenario.ann_declined 102) = Rejected.
Proof.
  split; [reflexivity|]. split; [reflexivity|]. split; [reflexivity|].
  split; [reflexivity|]. split; [reflexivity|].
  exact (proj1 (reject_rejected_agrees Scenario.created_for_ann 103 Scenario.ann None
                  (mkRequest 103 102 9 1 ReqPending None)
                  (mkTask 102 "audit" Low [] [] 0 Pending)
                  (mkTask 102 "audit" Low [] [] 0 Rejected)
                  eq_refl eq_refl eq_refl eq_refl eq_refl)).
Defined.

(** ** Checklist status against resolved status *)

Lemma todoStarted_count task :
  todoStarted task = true ↔ 0 < completedCount (todoChecklist task).
Proof.
  rewrite todoStarted_true. unfold SomeItemComplete, completedCount.
  by rewrite filter_length_pos.
Qed.

Lemma allTodoCompleted_every task :
  allTodoCompleted task = true
  ↔ todoChecklist task ≠ [] ∧ everyItemCompleted (todoChecklist task).
Proof.
  rewrite allTodoCompleted_true. unfold AllItemsComplete, everyItemCompleted.
  by rewrite Forall_forall.
Qed.

Lemma progressOf_zero reachesHalf todo :
  completedCount todo = 0 → progressOf reachesHalf todo = 0.
Proof.
  intros Hc. destruct (decide (todo = [])) as [->|Hne]; [done|].
  pose proof (progressOf_rounded reachesHalf todo Hne) as [H1 _].
  rewrite Hc in H1.
  assert (0 < length todo) by (destruct todo; [done|simpl; lia]).
  destruct (progressOf reachesHalf todo) as [|p]; [done|exfalso].
  assert (2 * length todo * 1 ≤ 2 * length todo * S p)
    by (apply Nat.mul_le_mono_l; lia).
  lia.
Qed.

Lemma progressOf_pos_short reachesHalf todo :
  0 < completedCount todo → length todo < 200 → 0 < progressOf reachesHalf todo.
Proof.
  intros Hc Hshort.
  assert (Hne : todo ≠ []) by (intros ->; by apply Nat.lt_irrefl in Hc).
  pose proof (progressOf_rounded reachesHalf todo Hne) as [_ H2].
  destruct (progressOf reachesHalf todo) as [|p]; [|lia].
  rewrite Nat.mul_0_r in H2. simpl in H2. lia.
Qed.

Lemma checklist_resolved reachesHalf doc reqs :
  length (todoChecklist doc) < 200 →
  status doc = statusOfProgress (progressOf reachesHalf (todoChecklist doc)) →
  ¬ SingleUserRejected doc (buildAssignmentMap reqs) →
  ¬ anyMapped (buildAssignmentMap reqs) ReqPending →
  resolveStatus doc reqs = status doc.
Proof.
  intros Hshort Hstatus Hrej Hpend. set (todo := todoChecklist doc) in *.
  unfold resolveStatus. set (m := buildAssignmentMap reqs) in *.
  assert (E1 : singleUserRejected doc m = false).
  { apply not_true_is_false. by rewrite singleUserRejected_true. }
  assert (E2 : hasPending m = false).
  { apply not_true_is_false. by rewrite hasPending_true. }
  rewrite allRejected_false, E1, E2. cbn [orb].
  destruct (hasApproved m); [|done]. simpl. rewrite Hstatus.
  pose proof (statusOfProgress_cases (progressOf reachesHalf todo))
    as (H100 & Hmid & H0).
  destruct (allTodoCompleted doc) eqn:EA.
  { apply allTodoCompleted_every in EA as [Hne Hall]. symmetry. apply H100.
    by apply progressOf_complete. }
  destruct (todoStarted doc) eqn:ES; simpl.
  - apply todoStarted_count in ES. fold todo in ES.
    symmetry. apply Hmid. split.
    + by apply progressOf_pos_short.
    + intros Hfull. pose proof (progressOf_100_short _ _ Hfull Hshort) as Hall.
      assert (HA : allTodoCompleted doc = true).
      { apply allTodoCompleted_every. split; [|exact Hall].
        fold todo. intros E. rewrite E in ES.
        by apply Nat.lt_irrefl in ES. }
      congruence.
  - symmetry. apply H0, progressOf_zero.
    apply not_true_iff_false in ES. rewrite todoStarted_count in ES.
    fold todo in ES. lia.
Qed.

(** X5. After a checklist replacement of fewer than 200 items, the listing
    shows the task with its stored status, unless it shows the task with
    exactly one assigned user whose latest request is Rejected, or the latest
    request of some candidate of the task is Pending. *)
Theorem checklist_status_agrees reachesHalf st id user todo st' payload task' :
  updateTaskChecklist reachesHalf st id user todo = (st', Json payload) →
  length todo < 200 →
  Task_findById st' id = Some task' →
  let reqs := filter (λ r, taskId r = id) (requests st') in
  let shown := filter (λ u, u ∈ users st') (assignedTo task') in
  ¬ (∃ u r, shown = [u] ∧ latestRequest reqs u = Some r
            ∧ req_status r = ReqRejected) →
  ¬ (∃ u r, latestRequest reqs u = Some r ∧ req_status r = ReqPending) →
  tv_status (taskWithAssignmentInfo st' (populate st' task')) = status task'.
Proof.
  intros (task & _ & _ & Hfound)%updateTaskChecklist_Json Hshort Hfind.
  rewrite Hfound in Hfind. injection Hfind as <-.
  apply Task_findById_Some in Hfound as [Hid _].
  intros reqs shown Hrej Hpend.
  unfold taskWithAssignmentInfo. cbn [tv_status].
  destruct (populate_fields st' (withChecklist reachesHalf task todo))
    as (-> & Htodo & _ & Hstatus).
  rewrite Hid. fold (Request_find_byTask st' id). rewrite <- Hstatus.
  apply (checklist_resolved reachesHalf).
  - by rewrite Htodo.
  - by rewrite Htodo.
  - intros (u & Hu & (r & Hr & Hs)%mapped_latest). apply Hrej. by exists u, r.
  - intros (u & (r & Hr & Hs)%mapped_latest). apply Hpend. by exists u, r.
Qed.

Example scenario_stranger_left :
  Scenario.stranger_left
  = mkStore [Scenario.busy 100; Scenario.busy 101;
             mkTask 102 "move" Low [7; 3] [] 0 Pending]
            [mkRequest 103 102 9 3 ReqRejected None]
            [1; 2; 3; 9] 104.
Proof. vm_compute. reflexivity. Qed.

Lemma checklist_status_agrees_witness :
  updateTaskChecklist ChecklistScenario.halves Scenario.bob_approved 102 Scenario.bob
    [mkItem "a" true; mkItem "b" false]
  = (fst (updateTaskChecklist ChecklistScenario.halves Scenario.bob_approved 102
            Scenario.bob [mkItem "a" true; mkItem "b" false]),
     Json (Some (mkTask 102 "release" Low [2] [mkItem "a" true; mkItem "b" false]
                        50 InProgress)))
  ∧ tv_status
      (taskWithAssignmentInfo
         (fst (updateTaskChecklist ChecklistScenario.halves Scenario.bob_approved 102
                 Scenario.bob [mkItem "a" true; mkItem "b" false]))
         (populate
            (fst (updateTaskChecklist ChecklistScenario.halves Scenario.bob_approved
                    102 Scenario.bob [mkItem "a" true; mkItem "b" false]))
            (mkTask 102 "release" Low [2] [mkItem "a" true; mkItem "b" false]
                    50 InProgress)))
    = InProgress.
Proof.
  split; [reflexivity|].
  apply (checklist_status_agrees ChecklistScenario.halves Scenario.bob_approved 102
           Scenario.bob [mkItem "a" true; mkItem "b" false] _ _
           (mkTask 102 "release" Low [2] [mkItem "a" true; mkItem "b" false]
                   50 InProgress) eq_refl).
  - simpl. lia.
  - reflexivity.
  - intros (u & r & Hshown & Hr & Hs). injection Hshown as <-.
    injection Hr as <-. discriminate.
  - intros (u & r & Hr & Hs).
    change (latestRequest [mkRequest 103 102 9 1 ReqRejected (Some "no time"%string);
                           mkRequest 104 102 9 2 ReqApproved None] u = Some r) in Hr.
    revert Hr. unfold latestRequest. rewrite !filter_cons, !filter_nil. simpl.
    destruct (decide (1 = u)), (decide (2 = u)); simpl;
      intros [= <-]; discriminate.
Defined.

(** With an assignee that has no user document the listing can show Rejected
    over a stored Pending: task 102 is stored with users 7 and 3, only user 3
    is shown, and user 3's request is Rejected. *)
Example stranger_listing :
  status <$> Task_findById Scenario.stranger_left 102 = Some Pending
  ∧ ∀ regexMatch dueDateOf,
      (λ v, (tv_id v, view_user <$> tv_assignedTo v, tv_status v))
        <$> fst (getTasks regexMatch dueDateOf Scenario.stranger_left
                   (mkQuery None None None (Some 3) None) Scenario.boss)
      = [(102, [3], Rejected)].
Proof. split; [reflexivity|]. intros. vm_compute. reflexivity. Qed.

(** ** Refused answers *)

Lemma respond_Fail st rid user action reason st' f :
  respondToAssignmentRequest st rid user action reason = (st', Fail f) → st' = st.
Proof.
  unfold respondToAssignmentRequest.
  destruct (Request_findById st rid) as [request|]; [|by intros [= <- _]].
  destruct (bool_decide (assignedToUserId request ≠ caller_id user));
    [by intros [= <- _]|].
  destruct (bool_decide (action = "approve"%string)).
  { destruct (Task_findById st (taskId request)); [intros [=]|by intros [= <- _]]. }
  destruct (bool_decide (action = "reject"%string)); [|by intros [= <- _]].
  destruct (Task_findById _ _); intros [=].
Qed.

(** X6. [respondToAssignmentRequest] checks, in this order, that the request
    exists (NotFound), that the caller is its candidate (Forbidden), and that
    the action is approve or reject (InvalidInput); so a stranger sending an
    invalid action is told Forbidden.  No refused answer changes the store. *)
Theorem respond_refusals st rid user action reason :
  (Request_findById st rid = None →
   respondToAssignmentRequest st rid user action reason = (st, Fail RequestNotFound))
  ∧ (∀ request,
       Request_findById st rid = Some request →
       assignedToUserId request ≠ caller_id user →
       respondToAssignmentRequest st rid user action reason
       = (st, Fail NotAuthorizedToRespond))
  ∧ (∀ request,
       Request_findById st rid = Some request →
       assignedToUserId request = caller_id user →
       action ≠ "approve"%string → action ≠ "reject"%string →
       respondToAssignmentRequest st rid user action reason
       = (st, Fail InvalidAction))
  ∧ (∀ st' f,
       respondToAssignmentRequest st rid user action reason = (st', Fail f) →
       st' = st).
Proof.
  split; [|split; [|split]].
  - intros Hnone. unfold respondToAssignmentRequest. by rewrite Hnone.
  - intros request Hfound Hne. unfold respondToAssignmentRequest.
    rewrite Hfound. by rewrite bool_decide_true.
  - intros request Hfound Hresp Ha Hr. unfold respondToAssignmentRequest.
    rewrite Hfound. rewrite bool_decide_false by (intros H; by apply H).
    by rewrite !bool_decide_false.
  - intros st' f. apply respond_Fail.
Qed.

Lemma respond_refusals_witness :
  Request_findById Scenario.created 999 = None
  ∧ respondToAssignmentRequest Scenario.created 999 Scenario.ann "approve" None
    = (Scenario.created, Fail RequestNotFound)
  ∧ Request_findById Scenario.created 103 = Some (mkRequest 103 102 9 1 ReqPending None)
  ∧ assignedToUserId (mkRequest 103 102 9 1 ReqPending None) ≠ caller_id Scenario.bob
  ∧ respondToAssignmentRequest Scenario.created 103 Scenario.bob "shrug" None
    = (Scenario.created, Fail NotAuthorizedToRespond)
  ∧ assignedToUserId (mkRequest 103 102 9 1 ReqPending None) = caller_id Scenario.ann
  ∧ "shrug"%string ≠ "approve"%string ∧ "shrug"%string ≠ "reject"%string
  ∧ respondToAssignmentRequest Scenario.created 103 Scenario.ann "shrug" None
    = (Scenario.created, Fail InvalidAction).
Proof.
  split; [reflexivity|].
  split; [exact (proj1 (respond_refusals Scenario.created 999 Scenario.ann
                          "approve" None) eq_refl)|].
  split; [reflexivity|]. split; [discriminate|].
  split; [exact (proj1 (proj2 (respond_refusals Scenario.created 103 Scenario.bob
                                 "shrug" None))
                   (mkRequest 103 102 9 1 ReqPending None) eq_refl
                   ltac:(discriminate))|].
  split; [reflexivity|]. split; [discriminate|]. split; [discriminate|].
  exact (proj1 (proj2 (proj2 (respond_refusals Scenario.created 103 Scenario.ann
                                "shrug" None)))
           (mkRequest 103 102 9 1 ReqPending None) eq_refl eq_refl
           ltac:(discriminate) ltac:(discriminate)).
Defined.

(** ** At most one Pending request per pair *)

Lemma pending_count_save tid uid reqs answer :
  req_status answer ≠ ReqPending →
  length (pendingFor tid uid (save req_id reqs answer))
  ≤ length (pendingFor tid uid reqs).
Proof.
  intros Hans. unfold pendingFor, save. induction reqs as [|r reqs IH]; [done|].
  rewrite fmap_cons, !filter_cons.
  destruct (bool_decide (req_id r = req_id answer)).
  - rewrite decide_False by (by intros (_ & _ & ?)).
    destruct (decide (_ ∧ _)); simpl; lia.
  - destruct (decide (_ ∧ _)); simpl; lia.
Qed.

Lemma createTaskAssignmentRequest_unique st tid uid user :
  atMostOnePending st →
  atMostOnePending (fst (createTaskAssignmentRequest st tid uid user)).
Proof.
  intros Hinv. unfold createTaskAssignmentRequest.
  destruct (List.find _ (requests st)) as [r|] eqn:E; [done|].
  intros tid' uid'. simpl. unfold pendingFor.
  rewrite filter_app, length_app, filter_cons, filter_nil.
  destruct (decide (_ ∧ _)) as [(Ht & Hu & _)|_].
  - simpl in Ht, Hu. subst tid' uid'.
    assert (Hnone : pendingFor tid uid (requests st) = []).
    { apply filter_empty_iff. intros r Hr Hp.
      assert (Hex : pendingExists st tid uid) by (by exists r).
      apply existingRequest_found in Hex as [x Hx]. congruence. }
    unfold pendingFor in Hnone. rewrite Hnone. simpl. lia.
  - simpl. specialize (Hinv tid' uid'). unfold pendingFor in Hinv. lia.
Qed.

Lemma respond_unique st rid user action reason :
  atMostOnePending st →
  atMostOnePending (fst (respondToAssignmentRequest st rid user action reason)).
Proof.
  intros Hinv.
  destruct (respondToAssignmentRequest st rid user action reason)
    as [st' [answer|f]] eqn:E; simpl.
  - apply respond_Json in E as (request & _ & Hans & Hreqs).
    intros tid uid. rewrite Hreqs.
    etransitivity; [apply pending_count_save|apply Hinv].
    by destruct Hans as [->| ->].
  - by apply respond_Fail in E as ->.
Qed.

Lemma foldl_invariant {A B : Type} (P : A → Prop) (f : A → B → A) (l : list B) :
  (∀ a b, P a → P (f a b)) → ∀ a, P a → P (foldl f a l).
Proof.
  intros Hf. induction l as [|b l IH]; intros a Ha; simpl; [done|].
  apply IH. by apply Hf.
Qed.

Lemma createTask_unique dflt st body user :
  atMostOnePending st → atMostOnePending (fst (createTask dflt st body user)).
Proof.
  intros Hinv. unfold createTask.
  destruct (cb_assignedTo body) as [| |candidates]; [done|done|].
  destruct (partitionCandidates st candidates) as [withHigh withoutHigh]. simpl.
  apply (foldl_invariant atMostOnePending).
  - intros s u Hs. by apply createTaskAssignmentRequest_unique.
  - exact Hinv.
Qed.

(** X7. At most one Pending request per (task, candidate) pair is an
    invariant of the store: [createTaskAssignmentRequest],
    [respondToAssignmentRequest] and [createTask] keep it, whatever their
    arguments and outcome. *)
Theorem pending_uniqueness_kept dflt st tid uid rid user action reason body :
  atMostOnePending st →
  atMostOnePending (fst (createTaskAssignmentRequest st tid uid user))
  ∧ atMostOnePending (fst (respondToAssignmentRequest st rid user action reason))
  ∧ atMostOnePending (fst (createTask dflt st body user)).
Proof.
  intros Hinv. split; [|split].
  - by apply createTaskAssignmentRequest_unique.
  - by apply respond_unique.
  - by apply createTask_unique.
Qed.

Lemma pending_uniqueness_kept_witness :
  atMostOnePending Scenario.start
  ∧ atMostOnePending Scenario.created.
Proof.
  assert (H : atMostOnePending Scenario.start) by (intros tid uid; simpl; lia).
  split; [exact H|].
  exact (proj2 (proj2 (pending_uniqueness_kept Scenario.schema Scenario.start 0 0 0
                         Scenario.boss "approve"
                         None (mkCreateBody "release" (Some Low) (IdArray [1; 2]) [])
                         H))).
Defined.

(** ** An approval on a task stored as Rejected *)

Lemma approve_task_after st rid user reason request task :
  Request_findById st rid = Some request →
  assignedToUserId request = caller_id user →
  Task_findById st (taskId request) = Some task →
  ∃ task',
    Task_findById (fst (respondToAssignmentRequest st rid user "approve" reason))
                  (taskId request) = Some task'
    ∧ assignedToUserId request ∈ assignedTo task'
    ∧ status task' = status task.
Proof.
  intros Hfound Hresp Htask.
  rewrite (approve_task_found st rid user reason request Hfound Hresp task Htask).
  cbn [fst]. rewrite Task_findById_Request_save.
  destruct (decide (assignedToUserId request ∈ assignedTo task)) as [Hin|Hin].
  - rewrite bool_decide_true by done. by exists task.
  - rewrite bool_decide_false by done. eexists. split; [|split].
    + apply (Task_findById_saved st (taskId request) task); [done|].
      by apply Task_findById_Some in Htask as [? _].
    + simpl. apply elem_of_app. right. left.
    + done.
Qed.

(** X8. An approval does not lift a stored rejection: when the candidate
    approves a request on a task whose stored status is Rejected, the
    candidate becomes an assignee, and yet every checklist replacement the
    candidate then sends is refused as Forbidden and changes nothing. *)
Theorem approve_leaves_rejected_locked reachesHalf st rid user reason request task todo :
  Request_findById st rid = Some request →
  assignedToUserId request = caller_id user →
  Task_findById st (taskId request) = Some task →
  status task = Rejected →
  let st' := fst (respondToAssignmentRequest st rid user "approve" reason) in
  (∃ task', Task_findById st' (taskId request) = Some task'
            ∧ caller_id user ∈ assignedTo task')
  ∧ updateTaskChecklist reachesHalf st' (taskId request) user todo
    = (st', Fail ChecklistOfRejectedTask).
Proof.
  intros Hfound Hresp Htask Hrej st'.
  destruct (approve_task_after st rid user reason request task Hfound Hresp Htask)
    as (task' & Hfind' & Hin & Hst).
  fold st' in Hfind'. rewrite Hresp in Hin. split; [by exists task'|].
  apply (updateTaskChecklist_rejected reachesHalf st' _ user todo task');
    [done|by left|congruence].
Qed.

Lemma approve_leaves_rejected_locked_witness :
  Request_findById Scenario.ann_declined 103
  = Some (mkRequest 103 102 9 1 ReqRejected None)
  ∧ assignedToUserId (mkRequest 103 102 9 1 ReqRejected None) = caller_id Scenario.ann
  ∧ Task_findById Scenario.ann_declined 102
    = Some (mkTask 102 "audit" Low [] [] 0 Rejected)
  ∧ status (mkTask 102 "audit" Low [] [] 0 Rejected) = Rejected
  ∧ updateTaskChecklist ChecklistScenario.halves
      (fst (respondToAssignmentRequest Scenario.ann_declined 103 Scenario.ann
              "approve" None))
      102 Scenario.ann [mkItem "a" true]
    = (fst (respondToAssignmentRequest Scenario.ann_declined 103 Scenario.ann
              "approve" None),
       Fail ChecklistOfRejectedTask).
Proof.
  split; [reflexivity|]. split; [reflexivity|]. split; [reflexivity|].
  split; [reflexivity|].
  exact (proj2 (approve_leaves_rejected_locked ChecklistScenario.halves
                  Scenario.ann_declined 103 Scenario.ann None
                  (mkRequest 103 102 9 1 ReqRejected None)
                  (mkTask 102 "audit" Low [] [] 0 Rejected) [mkItem "a" true]
                  eq_refl eq_refl eq_refl eq_refl)).
Defined.

(** ** The assignedTo array of [updateTask] *)

Lemma usersExist_length (users ids : list ObjectId) :
  NoDup users →
  length (filter (λ u, u ∈ ids) users) = length ids
  ↔ NoDup ids ∧ ∀ u, u ∈ ids → u ∈ users.
Proof.
  intros Hnodup.
  assert (HF : NoDup (filter (λ u, u ∈ ids) users)) by (by apply NoDup_filter).
  assert (Hsub : filter (λ u, u ∈ ids) users ⊆+ ids).
  { apply NoDup_submseteq; [done|]. by intros u [? _]%list_elem_of_filter. }
  split.
  - intros Hlen.
    assert (Hperm : filter (λ u, u ∈ ids) users ≡ₚ ids).
    { apply submseteq_length_Permutation; [done|lia]. }
    split; [by rewrite <- Hperm|].
    intros u Hu. rewrite <- Hperm in Hu. by apply list_elem_of_filter in Hu as [_ ?].
  - intros [Hids Hall]. apply Nat.le_antisymm; [by apply submseteq_length|].
    apply submseteq_length, NoDup_submseteq; [done|].
    intros u Hu. apply list_elem_of_filter. split; [done|by apply Hall].
Qed.

(** X9. With distinct user documents in the store, [updateTask] accepts an
    [assignedTo] array exactly when its ids are pairwise distinct and every
    one of them is an existing user: it then stores the array as it is and
    leaves progress and status alone; otherwise (a missing user, or an id
    given twice) it answers NotFound and changes nothing. *)
Theorem updateTask_assignees st id body ids task :
  Task_findById st id = Some task →
  ub_assignedTo body = IdArray ids →
  NoDup (users st) →
  (NoDup ids ∧ (∀ u, u ∈ ids → u ∈ users st) →
   ∃ task',
     updateTask st id body = (Task_save st task', Json task')
     ∧ assignedTo task' = ids
     ∧ progress task' = progress task ∧ status task' = status task)
  ∧ (¬ (NoDup ids ∧ ∀ u, u ∈ ids → u ∈ users st) →
     updateTask st id body = (st, Fail UsersNotFound)).
Proof.
  intros Hfound Hbody Hnodup. unfold updateTask. rewrite Hfound, Hbody.
  pose proof (usersExist_length (users st) ids Hnodup) as Hlen. split.
  - intros Hok. rewrite bool_decide_false by (intros H; by apply H, Hlen).
    by eexists.
  - intros Hbad. rewrite bool_decide_true; [done|].
    intros H. by apply Hbad, Hlen.
Qed.

Lemma updateTask_assignees_witness :
  Task_findById Scenario.start 100 = Some (Scenario.busy 100)
  ∧ NoDup (users Scenario.start)
  ∧ (NoDup [3; 9] ∧ ∀ u, u ∈ [3; 9] → u ∈ users Scenario.start)
  ∧ (∃ task',
       updateTask Scenario.start 100 (mkUpdateBody None None None (IdArray [3; 9]))
       = (Task_save Scenario.start task', Json task')
       ∧ assignedTo task' = [3; 9])
  ∧ ¬ (NoDup [3; 3] ∧ ∀ u, u ∈ [3; 3] → u ∈ users Scenario.start)
  ∧ updateTask Scenario.start 100 (mkUpdateBody None None None (IdArray [3; 3]))
    = (Scenario.start, Fail UsersNotFound).
Proof.
  assert (Hnodup : NoDup (users Scenario.start)) by compute_done.
  assert (Hok : NoDup [3; 9] ∧ ∀ u, u ∈ [3; 9] → u ∈ users Scenario.start).
  { split; [compute_done|].
    intros u Hu. apply elem_of_cons in Hu as [->|Hu]; [right; right; left|].
    apply elem_of_cons in Hu as [->|Hu]; [right; right; right; left|inversion Hu]. }
  assert (Hbad : ¬ (NoDup [3; 3] ∧ ∀ u, u ∈ [3; 3] → u ∈ users Scenario.start)).
  { intros [Hd _]. apply NoDup_cons in Hd as [Hd _]. apply Hd. left. }
  split; [reflexivity|]. split; [exact Hnodup|]. split; [exact Hok|].
  split.
  - destruct (proj1 (updateTask_assignees Scenario.start 100
                       (mkUpdateBody None None None (IdArray [3; 9])) [3; 9]
                       (Scenario.busy 100) eq_refl eq_refl Hnodup) Hok)
      as (task' & Heq & Hassigned & _).
    exists task'. split; [exact Heq|exact Hassigned].
  - split; [exact Hbad|].
    exact (proj2 (updateTask_assignees Scenario.start 100
                    (mkUpdateBody None None None (IdArray [3; 3])) [3; 3]
                    (Scenario.busy 100) eq_refl eq_refl Hnodup) Hbad).
Defined.

(** ** Manual status transitions *)

Lemma isAssigned_true (user : Caller) (l : list ObjectId) :
  existsb (λ userId, bool_decide (userId = caller_id user)) l = true
  ↔ caller_id user ∈ l.
Proof.
  rewrite existsb_exists. split.
  - intros (u & Hin & ->%bool_decide_eq_true). by apply list_elem_of_In.
  - intros Hin. exists (caller_id user). split; [by apply list_elem_of_In|].
    by apply bool_decide_eq_true.
Qed.

Lemma updateTaskStatus_allowed st id user newStatus task :
  Task_findById st id = Some task →
  caller_id user ∈ assignedTo task ∨ role user = admin →
  updateTaskStatus st id user newStatus
  = let s := default (status task) newStatus in
    let task' :=
      if bool_decide (s = Completed)
      then mkTask (_id task) (title task) (priority task) (assignedTo task)
                  (complete <$> todoChecklist task) 100 s
      else set_status task s in
    (Task_save st task', Json task').
Proof.
  intros Hfound Hauth. unfold updateTaskStatus. rewrite Hfound.
  assert (Hguard : negb (existsb (λ userId, bool_decide (userId = caller_id user))
                                 (assignedTo task))
                   && bool_decide (role user ≠ admin) = false).
  { destruct Hauth as [Hin|Hadm].
    - apply isAssigned_true in Hin. by rewrite Hin.
    - rewrite (bool_decide_false (role user ≠ admin)) by (intros H; by apply H).
      apply andb_false_r. }
  by rewrite Hguard.
Qed.

Lemma complete_all todo : everyItemCompleted (complete <$> todo).
Proof. unfold everyItemCompleted. apply Forall_fmap, Forall_true. done. Qed.

(** X10. [updateTaskStatus] is open to the task's assignees and to admins
    only; anybody else gets Forbidden and nothing changes.  Setting the
    status to Completed also marks every checklist item completed, keeping
    texts and order, and stores progress 100, even for an empty checklist;
    any other status is stored with checklist and progress untouched. *)
Theorem updateTaskStatus_effect st id user task :
  Task_findById st id = Some task →
  (caller_id user ∉ assignedTo task → role user ≠ admin →
   ∀ newStatus,
     updateTaskStatus st id user newStatus = (st, Fail NotAuthorizedToUpdate))
  ∧ (caller_id user ∈ assignedTo task ∨ role user = admin →
     (∃ task',
        updateTaskStatus st id user (Some Completed) = (Task_save st task', Json task')
        ∧ Task_findById (Task_save st task') id = Some task'
        ∧ status task' = Completed ∧ progress task' = 100
        ∧ everyItemCompleted (todoChecklist task')
        ∧ text <$> todoChecklist task' = text <$> todoChecklist task
        ∧ assignedTo task' = assignedTo task)
     ∧ ∀ s, s ≠ Completed →
         updateTaskStatus st id user (Some s)
         = (Task_save st (set_status task s), Json (set_status task s))).
Proof.
  intros Hfound. split.
  - intros Hnot Hrole newStatus. unfold updateTaskStatus. rewrite Hfound.
    assert (E : existsb (λ userId, bool_decide (userId = caller_id user))
                        (assignedTo task) = false).
    { apply not_true_is_false. by rewrite isAssigned_true. }
    rewrite E. simpl. by rewrite bool_decide_true.
  - intros Hauth. split.
    + eexists. split; [by rewrite (updateTaskStatus_allowed st id user _ task)|].
      simpl. split.
      { apply (Task_findById_saved st id task); [done|].
        by apply Task_findById_Some in Hfound as [? _]. }
      split; [done|]. split; [done|]. split; [apply complete_all|].
      split; [|done]. rewrite <- list_fmap_compose. by apply list_fmap_ext.
    + intros s Hs. rewrite (updateTaskStatus_allowed st id user _ task) by done.
      simpl. by rewrite bool_decide_false.
Qed.

Lemma updateTaskStatus_effect_witness :
  Task_findById Scenario.start 100 = Some (Scenario.busy 100)
  ∧ (caller_id (mkCaller 3 member) ∉ assignedTo (Scenario.busy 100))
  ∧ role (mkCaller 3 member) ≠ admin
  ∧ updateTaskStatus Scenario.start 100 (mkCaller 3 member) (Some Completed)
    = (Scenario.start, Fail NotAuthorizedToUpdate)
  ∧ (caller_id Scenario.ann ∈ assignedTo (Scenario.busy 100)
     ∨ role Scenario.ann = admin)
  ∧ updateTaskStatus Scenario.start 100 Scenario.ann (Some InProgress)
    = (Task_save Scenario.start (set_status (Scenario.busy 100) InProgress),
       Json (set_status (Scenario.busy 100) InProgress)).
Proof.
  assert (Hnot3 : caller_id (mkCaller 3 member) ∉ assignedTo (Scenario.busy 100))
    by compute_done.
  assert (Hauth : caller_id Scenario.ann ∈ assignedTo (Scenario.busy 100)
                  ∨ role Scenario.ann = admin) by (left; left).
  split; [reflexivity|]. split; [exact Hnot3|]. split; [discriminate|].
  split.
  - exact (proj1 (updateTaskStatus_effect Scenario.start 100 (mkCaller 3 member)
                    (Scenario.busy 100) eq_refl)
             Hnot3 ltac:(discriminate) (Some Completed)).
  - split; [exact Hauth|].
    exact (proj2 (proj2 (updateTaskStatus_effect Scenario.start 100 Scenario.ann
                           (Scenario.busy 100) eq_refl) Hauth)
             InProgress ltac:(discriminate)).
Defined.

(** X11. Completing a task by hand and then sending back the checklist that
    is stored keeps it Completed with progress 100 when the checklist has
    items; with an empty checklist the same round trip turns the task back to
    Pending with progress 0.  The answer carries the task that is stored, its
    assigned users populated. *)
Theorem complete_then_resubmit reachesHalf st id user task :
  Task_findById st id = Some task →
  caller_id user ∈ assignedTo task ∨ role user = admin →
  let st1 := fst (updateTaskStatus st id user (Some Completed)) in
  ∃ task1,
    Task_findById st1 id = Some task1
    ∧ ∃ task2,
        updateTaskChecklist reachesHalf st1 id user (todoChecklist task1)
        = (Task_save st1 task2, Json (Some (populate st1 task2)))
        ∧ todoChecklist task2 = todoChecklist task1
        ∧ (todoChecklist task ≠ [] → status task2 = Completed ∧ progress task2 = 100)
        ∧ (todoChecklist task = [] → status task2 = Pending ∧ progress task2 = 0).
Proof.
  intros Hfound Hauth st1. subst st1.
  rewrite (updateTaskStatus_allowed st id user _ task Hfound Hauth). simpl.
  set (task1 := mkTask _ _ _ _ _ _ _).
  assert (Hid : _id task = id) by (by apply Task_findById_Some in Hfound as [? _]).
  assert (Hfind1 : Task_findById (Task_save st task1) id = Some task1)
    by (by apply (Task_findById_saved st id task)).
  exists task1. split; [done|].
  exists (withChecklist reachesHalf task1 (todoChecklist task1)).
  split; [by apply updateTaskChecklist_ok|]. split; [done|]. simpl. split.
  - intros Hne.
    assert (H100 : progressOf reachesHalf (complete <$> todoChecklist task) = 100).
    { apply progressOf_complete; [|apply complete_all].
      by destruct (todoChecklist task). }
    by rewrite H100.
  - intros ->. done.
Qed.

Lemma complete_then_resubmit_witness :
  Task_findById Scenario.start 100 = Some (Scenario.busy 100)
  ∧ (caller_id Scenario.ann ∈ assignedTo (Scenario.busy 100)
     ∨ role Scenario.ann = admin)
  ∧ todoChecklist (Scenario.busy 100) = []
  ∧ ∃ task2,
      updateTaskChecklist ChecklistScenario.halves
        (fst (updateTaskStatus Scenario.start 100 Scenario.ann (Some Completed)))
        100 Scenario.ann []
      = (Task_save (fst (updateTaskStatus Scenario.start 100 Scenario.ann
                           (Some Completed))) task2,
         Json (Some (populate (fst (updateTaskStatus Scenario.start 100 Scenario.ann
                                      (Some Completed))) task2)))
      ∧ status task2 = Pending ∧ progress task2 = 0.
Proof.
  assert (Hauth : caller_id Scenario.ann ∈ assignedTo (Scenario.busy 100)
                  ∨ role Scenario.ann = admin) by (left; left).
  split; [reflexivity|]. split; [exact Hauth|]. split; [reflexivity|].
  destruct (complete_then_resubmit ChecklistScenario.halves Scenario.start 100
              Scenario.ann (Scenario.busy 100) eq_refl Hauth)
    as (task1 & Hfind1 & task2 & Heq & _ & _ & Hempty).
  injection Hfind1 as <-.
  exists task2. split; [exact Heq|exact (Hempty eq_refl)].
Defined.

(** ** The overload check against task creation *)

Lemma checkHighPriorityTasks_filter st ids :
  checkHighPriorityTasks st (IdArray ids)
  = Json (filter (λ u, isOverloaded st u = true) ids).
Proof.
  unfold checkHighPriorityTasks. f_equal.
  enough (Hgen : ∀ acc,
    foldl (λ usersWithHighPriorityTasks userId,
             if isOverloaded st userId
             then usersWithHighPriorityTasks ++ [userId]
             else usersWithHighPriorityTasks) acc ids
    = acc ++ filter (λ u, isOverloaded st u = true) ids) by apply (Hgen []).
  induction ids as [|u ids IH]; intros acc; simpl.
  - by rewrite app_nil_r.
  - rewrite IH, filter_cons. destruct (isOverloaded st u) eqn:E.
    + rewrite decide_True by done. by rewrite <- app_assoc.
    + by rewrite decide_False.
Qed.

Lemma filter_ext_elem {A : Type} (P Q : A → Prop)
    `{∀ x, Decision (P x)} `{∀ x, Decision (Q x)} (l : list A) :
  (∀ x, x ∈ l → (P x ↔ Q x)) → filter P l = filter Q l.
Proof.
  induction l as [|x l IH]; intros Hext; [done|].
  rewrite !filter_cons.
  assert (Hx : P x ↔ Q x) by (apply Hext; left).
  rewrite IH by (intros y Hy; apply Hext; by right).
  destruct (decide (P x)), (decide (Q x)); tauto.
Qed.

(** X12. [checkHighPriorityTasks] answers a candidate list with its overloaded
    members, in order; they are exactly the candidates that [createTask], run
    on the same store and list, keeps out of the new task's assignedTo, and
    the flag [assignmentRequestsCreated] tells whether there is any. *)
Theorem overload_check_matches_creation dflt st body user ids :
  cb_assignedTo body = IdArray ids →
  ∃ reported st' task,
    checkHighPriorityTasks st (IdArray ids) = Json reported
    ∧ createTask dflt st body user
      = (st', Json (task, bool_decide (reported ≠ [])))
    ∧ reported = filter (λ u, u ∉ assignedTo task) ids
    ∧ assignedTo task = filter (λ u, u ∉ reported) ids.
Proof.
  intros Hbody. rewrite checkHighPriorityTasks_filter.
  unfold createTask. rewrite Hbody, partitionCandidates_filter.
  set (over := filter (λ u, isOverloaded st u = true) ids).
  set (direct := filter (λ u, isOverloaded st u ≠ true) ids).
  eexists over, _, _. split; [done|]. split.
  - f_equal. f_equal. f_equal. apply bool_decide_ext.
    destruct over; simpl; split; (done || lia).
  - simpl. split.
    + apply filter_ext_elem. intros u Hu. unfold direct.
      rewrite list_elem_of_filter. split; [by intros Hov [Hnot _]|].
      intros Hnot. destruct (isOverloaded st u) eqn:E; [done|].
      exfalso. by apply Hnot.
    + apply filter_ext_elem. intros u Hu. unfold over.
      rewrite list_elem_of_filter. tauto.
Qed.

Lemma overload_check_matches_creation_witness :
  cb_assignedTo (mkCreateBody "plan" None (IdArray [1; 3; 2]) []) = IdArray [1; 3; 2]
  ∧ checkHighPriorityTasks Scenario.start (IdArray [1; 3; 2]) = Json [1; 2]
  ∧ ∃ st' task,
      createTask Scenario.schema Scenario.start
                 (mkCreateBody "plan" None (IdArray [1; 3; 2]) []) Scenario.boss
      = (st', Json (task, true))
      ∧ assignedTo task = [3].
Proof.
  split; [reflexivity|]. split; [reflexivity|].
  destruct (overload_check_matches_creation Scenario.schema Scenario.start
              (mkCreateBody "plan" None (IdArray [1; 3; 2]) []) Scenario.boss
              [1; 3; 2] eq_refl)
    as (reported & st' & task & Hcheck & Hcreate & _ & Hassigned).
  injection Hcheck as <-.
  exists st', task. split; [exact Hcreate|exact Hassigned].
Defined.

(** ** A task right after its creation *)

Lemma requests_loop_pending tid user (over : list ObjectId) : ∀ s,
  let s' := foldl (λ s userId, fst (createTaskAssignmentRequest s tid userId user))
                  s over in
  (∃ news, requests s' = requests s ++ news
           ∧ Forall (λ r, taskId r = tid ∧ assignedToUserId r ∈ over
                          ∧ req_status r = ReqPending) news)
  ∧ ∀ u, u ∈ over → pendingExists s' tid u.
Proof.
  induction over as [|u over IH]; intros s; simpl.
  - split; [exists []; by rewrite app_nil_r|]. intros u Hu. inversion Hu.
  - set (s1 := fst (createTaskAssignmentRequest s tid u user)).
    assert (H1 : (∃ news, requests s1 = requests s ++ news
                          ∧ Forall (λ r, taskId r = tid ∧ assignedToUserId r = u
                                         ∧ req_status r = ReqPending) news)
                 ∧ pendingExists s1 tid u).
    { subst s1. unfold createTaskAssignmentRequest.
      destruct (List.find _ (requests s)) as [r|] eqn:E; simpl.
      - split; [exists []; by rewrite app_nil_r|].
        apply existingRequest_found. by eexists.
      - split; [eexists; split; [done|by repeat constructor]|].
        eexists. split; [apply elem_of_app; right; left|done]. }
    destruct H1 as ((news1 & Hr1 & Hn1) & Hp1).
    destruct (IH s1) as ((news & Hr & Hn) & Hp).
    split.
    + exists (news1 ++ news). rewrite Hr, Hr1, app_assoc. split; [done|].
      apply Forall_app. split.
      * eapply Forall_impl; [exact Hn1|]. intros r (? & -> & ?).
        split; [done|]. split; [left|done].
      * eapply Forall_impl; [exact Hn|]. intros r (? & ? & ?).
        split; [done|]. split; [by right|done].
    + intros v Hv. apply elem_of_cons in Hv as [->|Hv]; [|by apply Hp].
      destruct Hp1 as (r & Hin & Hpend). exists r. split; [|done].
      rewrite Hr. apply elem_of_app. by left.
Qed.

Lemma resolve_all_pending task reqs :
  reqs ≠ [] → everyRequestIs ReqPending reqs →
  resolveStatus task reqs = PendingApproval.
Proof.
  intros Hne Hall.
  apply resolveStatus_unique, Listed_pendingApproval.
  - intros (u & _ & Hu).
    apply (no_mapped_of_requests reqs ReqPending ReqRejected Hall); [done|].
    by exists u.
  - destruct reqs as [|r reqs]; [done|]. exists (assignedToUserId r).
    apply mapped_of_requests; [done|]. rewrite fmap_cons. left.
Qed.

(** X13. Right after [createTask] (the generated id being fresh) the listing
    shows the new task as Pending Approval exactly when requests were created
    for it, that is when some candidate was overloaded; otherwise it shows the
    status the schema gave it.  This holds of the document as created and of
    the populated document that [getTasks] reads. *)
Theorem created_task_listing dflt st body user ids st' task flag :
  cb_assignedTo body = IdArray ids →
  (∀ r, r ∈ requests st → taskId r ≠ nextId st) →
  createTask dflt st body user = (st', Json (task, flag)) →
  tv_status (taskWithAssignmentInfo st' task)
  = (if flag then PendingApproval else default_status dflt)
  ∧ tv_status (taskWithAssignmentInfo st' (populate st' task))
    = (if flag then PendingApproval else default_status dflt).
Proof.
  intros Hbody Hfresh. unfold createTask. rewrite Hbody, partitionCandidates_filter.
  set (over := filter (λ u, isOverloaded st u = true) ids).
  set (st1 := mkStore _ _ _ _).
  intros [= <- <- <-].
  destruct (requests_loop_pending (nextId st) user over st1)
    as ((news & Hr & Hn) & Hp).
  assert (Hreqs : Request_find_byTask
                    (foldl (λ s userId,
                              fst (createTaskAssignmentRequest s (nextId st) userId user))
                           st1 over) (nextId st) = news).
  { unfold Request_find_byTask. rewrite Hr. simpl. rewrite filter_app.
    assert (Hold : filter (λ r, taskId r = nextId st) (requests st) = []).
    { apply filter_empty_iff. intros r Hin. by apply Hfresh. }
    rewrite Hold. simpl. apply filter_all.
    intros r Hin. rewrite Forall_forall in Hn. by destruct (Hn r Hin). }
  enough (Hdoc : ∀ doc, _id doc = nextId st → status doc = default_status dflt →
            resolveStatus doc news
            = if bool_decide (0 < length over) then PendingApproval
              else default_status dflt).
  { unfold taskWithAssignmentInfo.
    cbn [tv_status _id populate set_assignedTo]. rewrite Hreqs.
    split; by apply Hdoc. }
  intros doc Hid Hstatus. destruct over as [|u over'] eqn:Hover.
  - rewrite bool_decide_false by (simpl; lia).
    destruct news as [|r news].
    + rewrite <- Hstatus. apply resolveStatus_no_requests.
    + apply Forall_cons in Hn as [(_ & Hin & _) _]. inversion Hin.
  - rewrite bool_decide_true by (simpl; lia).
    apply resolve_all_pending.
    + intros ->. destruct (Hp u ltac:(left)) as (r & Hin & Ht & _).
      rewrite Hr, app_nil_r in Hin. simpl in Hin. by apply (Hfresh r).
    + eapply Forall_impl; [exact Hn|]. by intros r (_ & _ & ?).
Qed.

Lemma created_task_listing_witness :
  cb_assignedTo (mkCreateBody "release" (Some Low) (IdArray [1; 2]) []) = IdArray [1; 2]
  ∧ (∀ r, r ∈ requests Scenario.start → taskId r ≠ nextId Scenario.start)
  ∧ createTask Scenario.schema Scenario.start
      (mkCreateBody "release" (Some Low) (IdArray [1; 2]) []) Scenario.boss
    = (Scenario.created, Json (mkTask 102 "release" Low [] [] 0 Pending, true))
  ∧ tv_status (taskWithAssignmentInfo Scenario.created
                 (mkTask 102 "release" Low [] [] 0 Pending)) = PendingApproval.
Proof.
  assert (Hfresh : ∀ r, r ∈ requests Scenario.start → taskId r ≠ nextId Scenario.start)
    by (intros r Hin; inversion Hin).
  split; [reflexivity|]. split; [exact Hfresh|]. split; [reflexivity|].
  exact (proj1 (created_task_listing Scenario.schema Scenario.start
                  (mkCreateBody "release" (Some Low) (IdArray [1; 2]) []) Scenario.boss
                  [1; 2] Scenario.created (mkTask 102 "release" Low [] [] 0 Pending) true
                  eq_refl Hfresh eq_refl)).
Defined.

(** ** What the listing shows *)

Lemma matchesFilter_true regexMatch f t :
  matchesFilter regexMatch f t = true
  ↔ (∀ s, f_status f = Some s → statusName (status t) = s)
    ∧ (∀ u, f_assignedTo f = Some u → u ∈ assignedTo t)
    ∧ (∀ p, f_title f = Some p → regexMatch p (title t) = true).
Proof.
  unfold matchesFilter. rewrite !andb_true_iff.
  destruct (f_status f), (f_assignedTo f), (f_title f);
    rewrite ?bool_decide_eq_true;
    (split;
     [intros [[? ?] ?]; repeat split; intros ? [=]; by subst
     |intros (H1 & H2 & H3); repeat split; by eauto]).
Qed.

Lemma orNull_Some x s : orNull x = Some s ↔ x = Some s ∧ s ≠ EmptyString.
Proof.
  unfold orNull. destruct x as [y|]; [|split; [done|by intros [? _]]].
  case_bool_decide as E.
  - split; [done|]. intros [[= ->] ?]. done.
  - split; [by intros [= <-]|by intros [[= ->] _]].
Qed.

Lemma List_filter_sublist {A : Type} (f : A → bool) (l : list A) :
  sublist (List.filter f l) l.
Proof.
  induction l as [|x l IH]; simpl; [done|]. destruct (f x); by constructor.
Qed.

(** X14. [getTasks] lists exactly the stored tasks that pass the filter and
    counts as many in [statusSummary.all].  The status filter is matched
    against the stored status, not the resolved one that is reported; an
    empty [status] or [search] parameter and the status ["All"] select
    nothing.  A caller who is not an admin is shown the tasks whose assignedTo
    holds the caller, whatever [assignedTo] the query asks for; an admin's
    [assignedTo] parameter is honoured.  The tasks come newest first, and
    oldest first when [sortOrder] is ["asc"]; with [sortBy] equal to
    ["dueDate"] they come by due date instead, latest first, and earliest
    first when [sortOrder] is ["asc"].  Every task is listed as the callback
    shows its populated document. *)
Theorem getTasks_selection regexMatch dueDateOf st q user :
  let listing := getTasks regexMatch dueDateOf st q user in
  let wanted (task : Task) : Prop :=
    (∀ s, q_status q = Some s → s ≠ EmptyString → s ≠ "All"%string →
          statusName (status task) = s)
    ∧ (∀ p, q_search q = Some p → p ≠ EmptyString →
            regexMatch p (title task) = true)
    ∧ (role user ≠ admin → caller_id user ∈ assignedTo task)
    ∧ (role user = admin → ∀ u, q_assignedTo q = Some u → u ∈ assignedTo task) in
  all (snd listing) = length (fst listing)
  ∧ ∃ kept selected,
      sublist kept (tasks st)
      ∧ (∀ task, task ∈ kept ↔ task ∈ tasks st ∧ wanted task)
      ∧ selected ≡ₚ kept
      ∧ fst listing
        = (λ task, taskWithAssignmentInfo st (populate st task)) <$> selected
      ∧ (q_sortBy q ≠ Some "dueDate"%string →
         selected = if decide (q_sortOrder q = Some "asc"%string) then kept
                    else reverse kept)
      ∧ (q_sortBy q = Some "dueDate"%string →
         if decide (q_sortOrder q = Some "asc"%string)
         then Sorted (dueNoLater dueDateOf) selected
         else Sorted (dueNoEarlier dueDateOf) selected).
Proof.
  intros listing wanted. subst listing. unfold getTasks.
  set (filter_status := match orNull (q_status q) with
                        | Some s => if bool_decide (s ≠ "All"%string) then Some s else None
                        | None => None
                        end).
  set (statusFilter := if bool_decide (role user = admin)
                       then mkFilter filter_status (q_assignedTo q) (orNull (q_search q))
                       else mkFilter filter_status (Some (caller_id user))
                                     (orNull (q_search q))).
  set (sortField := if bool_decide (default "createdAt"%string (q_sortBy q)
                                    ∈ ["createdAt"; "dueDate"]%string)
                    then (if bool_decide (default "createdAt"%string (q_sortBy q)
                                          = "dueDate"%string)
                          then dueDate else createdAt)
                    else createdAt).
  set (ascending := if bool_decide (default "desc"%string (q_sortOrder q)
                                    ∈ ["asc"; "desc"]%string)
                    then bool_decide (default "desc"%string (q_sortOrder q)
                                      = "asc"%string)
                    else false).
  set (kept := List.filter (matchesFilter regexMatch statusFilter) (tasks st)).
  cbn [fst snd all]. split.
  { rewrite !length_fmap. by rewrite sortTasks_Permutation. }
  exists kept, (sortTasks dueDateOf sortField ascending kept).
  assert (Hstatus : ∀ s, filter_status = Some s
                         ↔ q_status q = Some s ∧ s ≠ EmptyString ∧ s ≠ "All"%string).
  { intros s. subst filter_status.
    destruct (orNull (q_status q)) as [s'|] eqn:E.
    - apply orNull_Some in E as [E1 E2]. case_bool_decide as E3.
      + split; [by intros [= <-]|]. intros (E4 & _). congruence.
      + split; [done|]. intros (E4 & _ & E5). congruence.
    - split; [done|]. intros (E1 & E2 & _).
      assert (orNull (q_status q) = Some s) by (by apply orNull_Some). congruence. }
  assert (Hasc : ascending = bool_decide (q_sortOrder q = Some "asc"%string)).
  { subst ascending. destruct (q_sortOrder q) as [o|]; [|done]. simpl.
    destruct (decide (o = "asc"%string)) as [->|Hne]; [done|].
    rewrite ?(bool_decide_false (Some o = Some "asc"%string)) by congruence.
    rewrite ?(bool_decide_false (o = "asc"%string)) by done.
    by destruct (bool_decide (o ∈ ["asc"; "desc"]%string)). }
  assert (Hfield : sortField = if decide (q_sortBy q = Some "dueDate"%string)
                               then dueDate else createdAt).
  { subst sortField. destruct (q_sortBy q) as [o|]; [|done]. simpl.
    destruct (decide (o = "dueDate"%string)) as [->|Hne].
    - by rewrite decide_True.
    - rewrite decide_False by congruence.
      rewrite ?(bool_decide_false (o = "dueDate"%string)) by done.
      by destruct (bool_decide (o ∈ ["createdAt"; "dueDate"]%string)). }
  split; [apply List_filter_sublist|]. split.
  { intros task. subst kept.
    rewrite list_elem_of_In, filter_In, <- list_elem_of_In, matchesFilter_true.
    subst wanted. cbv beta.
    assert (Hs : (∀ s, f_status statusFilter = Some s → statusName (status task) = s)
                 ↔ (∀ s, q_status q = Some s → s ≠ EmptyString → s ≠ "All"%string →
                         statusName (status task) = s)).
    { assert (E : f_status statusFilter = filter_status)
        by (subst statusFilter; by destruct (bool_decide (role user = admin))).
      rewrite E. split; intros H s.
      - intros E1 E2 E3. by apply H, Hstatus.
      - intros (E1 & E2 & E3)%Hstatus. by apply H. }
    assert (Ht : (∀ p, f_title statusFilter = Some p → regexMatch p (title task) = true)
                 ↔ (∀ p, q_search q = Some p → p ≠ EmptyString →
                         regexMatch p (title task) = true)).
    { assert (E : f_title statusFilter = orNull (q_search q))
        by (subst statusFilter; by destruct (bool_decide (role user = admin))).
      rewrite E. split; intros H p.
      - intros E1 E2. by apply H, orNull_Some.
      - intros (E1 & E2)%orNull_Some. by apply H. }
    rewrite Hs, Ht. subst statusFilter. case_bool_decide as Hrole; cbn [f_assignedTo].
    - tauto.
    - assert (Hu : (∀ u, Some (caller_id user) = Some u → u ∈ assignedTo task)
                   ↔ caller_id user ∈ assignedTo task).
      { split; [intros H; by apply H|by intros H u [= <-]]. }
      rewrite Hu. tauto. }
  split; [apply sortTasks_Permutation|]. split.
  { symmetry. apply (list_fmap_compose (populate st) (taskWithAssignmentInfo st)). }
  rewrite Hasc, Hfield. split.
  - intros Hby. destruct (decide (q_sortBy q = Some "dueDate"%string)); [done|].
    destruct (decide (q_sortOrder q = Some "asc"%string)) as [E|E].
    + by rewrite bool_decide_true.
    + by rewrite bool_decide_false.
  - intros Hby. destruct (decide (q_sortBy q = Some "dueDate"%string)); [|done].
    destruct (decide (q_sortOrder q = Some "asc"%string)) as [E|E].
    + rewrite bool_decide_true by done. apply Sorted_merge_sort. apply _.
    + rewrite bool_decide_false by done. apply Sorted_merge_sort. apply _.
Qed.

Lemma assignedToFiltered_all (m : gmap nat AssignmentInfo) (l : list ObjectId) :
  List.filter (λ user,
    match m !! user with
    | None => true
    | Some req =>
        bool_decide (info_status req = ReqApproved)
        || bool_decide (info_status req = ReqPending)
        || bool_decide (info_status req = ReqRejected)
    end) l = l.
Proof.
  apply List_filter_all. intros u. destruct (m !! u) as [[[] ?]|]; done.
Qed.

Lemma annotate_flags m u :
  (rejected (annotate m u) = true ↔ mapped m u ReqRejected)
  ∧ (pending (annotate m u) = true ↔ mapped m u ReqPending).
Proof. split; apply statusIs_true. Qed.

Lemma mapped_functional m u s1 s2 : mapped m u s1 → mapped m u s2 → s1 = s2.
Proof. intros (i & Hi & <-) (j & Hj & <-). congruence. Qed.

(** The entry of a user is read off the user's latest request for the task. *)
Lemma annotate_latest reqs u :
  annotate (buildAssignmentMap reqs) u
  = match latestRequest reqs u with
    | Some r => mkUserView u (bool_decide (req_status r = ReqRejected))
                             (bool_decide (req_status r = ReqPending))
                             (orNull (rejectionReason r))
    | None => mkUserView u false false None
    end.
Proof.
  unfold annotate, statusIs. rewrite buildAssignmentMap_lookup.
  by destruct (latestRequest reqs u).
Qed.

(** X15. In a listed task the assigned users that have a user document come
    first, all of them and in stored order (no such assignee is ever filtered
    out), each marked by the state of the user's latest request for the task:
    rejected, with the reason given, pending, or neither.  After them come,
    and only those, the existing users outside assignedTo whose latest request
    for the task is Pending or Rejected, marked alike.  No entry is marked
    both rejected and pending. *)
Theorem listing_assignees st task :
  let reqs := filter (λ r, taskId r = _id task) (requests st) in
  let assigned := filter (λ u, u ∈ users st) (assignedTo task) in
  let entry u :=
    match latestRequest reqs u with
    | Some r => mkUserView u (bool_decide (req_status r = ReqRejected))
                             (bool_decide (req_status r = ReqPending))
                             (orNull (rejectionReason r))
    | None => mkUserView u false false None
    end in
  let shown := tv_assignedTo (taskWithAssignmentInfo st (populate st task)) in
  take (length assigned) shown = entry <$> assigned
  ∧ (∀ e, e ∈ drop (length assigned) shown
          ↔ ∃ u r, e = entry u ∧ u ∈ users st ∧ (u ∉ assignedTo task)
                   ∧ latestRequest reqs u = Some r
                   ∧ (req_status r = ReqPending ∨ req_status r = ReqRejected))
  ∧ (∀ e, e ∈ shown → ¬ (rejected e = true ∧ pending e = true)).
Proof.
  intros reqs assigned entry shown. subst shown. unfold taskWithAssignmentInfo.
  cbn [tv_assignedTo _id assignedTo populate set_assignedTo].
  change (Request_find_byTask st (_id task)) with reqs. fold assigned.
  set (m := buildAssignmentMap reqs).
  assert (Hentry : ∀ u, annotate m u = entry u) by (intros u; apply annotate_latest).
  rewrite assignedToFiltered_all.
  set (pendingOrRejectedUserIds := fst <$> List.filter _ (map_to_list m)).
  assert (Hids : ∀ u, u ∈ pendingOrRejectedUserIds
                      ↔ (u ∉ assigned)
                        ∧ (mapped m u ReqPending ∨ mapped m u ReqRejected)).
  { intros u. subst pendingOrRejectedUserIds. rewrite list_elem_of_fmap. split.
    - intros ([v i] & -> & Hin). simpl.
      apply list_elem_of_In, filter_In in Hin as [Hin Hf].
      apply list_elem_of_In, elem_of_map_to_list in Hin.
      apply andb_true_iff in Hf as [Hst Hnot].
      apply negb_true_iff, bool_decide_eq_false in Hnot. split; [done|].
      apply orb_true_iff in Hst as [Hst|Hst]; apply bool_decide_eq_true in Hst.
      + left. by exists i.
      + right. by exists i.
    - intros [Hnot Hm].
      assert (Hex : ∃ i, m !! u = Some i
                         ∧ (info_status i = ReqPending ∨ info_status i = ReqRejected)).
      { destruct Hm as [(i & ? & ?)|(i & ? & ?)]; exists i; eauto. }
      destruct Hex as (i & Hi & Hst). exists (u, i). split; [done|].
      apply list_elem_of_In, filter_In. split.
      + by apply list_elem_of_In, elem_of_map_to_list.
      + apply andb_true_iff. split.
        * apply orb_true_iff. destruct Hst; [left|right]; by apply bool_decide_eq_true.
        * by apply negb_true_iff, bool_decide_eq_false. }
  set (extraUsers := if bool_decide (0 < length pendingOrRejectedUserIds)
                     then filter (λ u, u ∈ pendingOrRejectedUserIds) (users st)
                     else []).
  assert (Hextra : ∀ u, u ∈ extraUsers ↔ u ∈ users st ∧ u ∈ pendingOrRejectedUserIds).
  { intros u. subst extraUsers. case_bool_decide as Hlen.
    - rewrite list_elem_of_filter. tauto.
    - split; [by intros ?%elem_of_nil|]. intros [_ Hin].
      destruct pendingOrRejectedUserIds; [by apply elem_of_nil in Hin|simpl in Hlen; lia]. }
  assert (Hout : ∀ u, u ∈ users st → (u ∉ assigned ↔ u ∉ assignedTo task)).
  { intros u Hu. subst assigned. rewrite list_elem_of_filter. tauto. }
  assert (Hstate : ∀ u, (mapped m u ReqPending ∨ mapped m u ReqRejected)
                        ↔ ∃ r, latestRequest reqs u = Some r
                               ∧ (req_status r = ReqPending ∨ req_status r = ReqRejected)).
  { intros u. subst m. rewrite !mapped_latest. split.
    - intros [(r & Hr & Hs)|(r & Hr & Hs)]; exists r; auto.
    - intros (r & Hr & [Hs|Hs]); [left|right]; by exists r. }
  assert (Hlen : length assigned = length (annotate m <$> assigned))
    by (by rewrite length_fmap).
  split; [|split].
  - rewrite Hlen, take_app_length. apply list_fmap_ext. intros i u _. apply Hentry.
  - intros e. rewrite Hlen, drop_app_length, list_elem_of_fmap. split.
    + intros (u & -> & [Hu Hin]%Hextra). apply Hids in Hin as [Hnot Hm].
      apply Hstate in Hm as (r & Hr & Hs). exists u, r.
      split; [apply Hentry|]. split; [done|]. split; [by apply Hout|done].
    + intros (u & r & -> & Hu & Hnot & Hr & Hs). exists u. split; [by rewrite Hentry|].
      apply Hextra. split; [done|]. apply Hids. split; [by apply Hout|].
      apply Hstate. by exists r.
  - intros e Hin [Hr Hp].
    assert (Hu : ∃ u, e = annotate m u).
    { apply elem_of_app in Hin as [Hin|Hin];
        apply list_elem_of_fmap in Hin as (u & -> & _); by exists u. }
    destruct Hu as [u ->].
    apply annotate_flags in Hr. apply annotate_flags in Hp.
    by pose proof (mapped_functional _ _ _ _ Hr Hp).
Qed.

(** ** Fetching a task by its id *)



(** ** Deleting a task *)

Lemma findById_removed {A : Type} (key : A → ObjectId) (docs : list A) id id' :
  findById key (filter (λ d, key d ≠ id) docs) id'
  = if decide (id' = id) then None else findById key docs id'.
Proof.
  unfold findById. induction docs as [|d docs IH]; simpl.
  - by destruct (decide (id' = id)).
  - rewrite filter_cons. destruct (decide (key d ≠ id)) as [Hne|Heq]; simpl.
    + rewrite IH. destruct (decide (id' = id)) as [->|]; [|done].
      by rewrite bool_decide_false.
    + apply dec_stable in Heq. rewrite IH.
      destruct (decide (id' = id)) as [->|Hne]; [done|].
      rewrite bool_decide_false; [done|congruence].
Qed.

(** X16. [deleteTask] answers NotFound for an unknown id and changes
    nothing.  Otherwise it removes that task and no other and keeps every
    assignment request, so the requests of the deleted task stay behind: a
    Pending one is still listed to its candidate, with no task attached, and
    approving it is refused with NotFound. *)
Theorem deleteTask_effect st id :
  (Task_findById st id = None → deleteTask st id = (st, Fail TaskNotFound))
  ∧ (∀ task,
       Task_findById st id = Some task →
       let st' := fst (deleteTask st id) in
       snd (deleteTask st id) = Json ()
       ∧ Task_findById st' id = None
       ∧ (∀ id', id' ≠ id → Task_findById st' id' = Task_findById st id')
       ∧ requests st' = requests st
       ∧ ∀ rid user reason request,
           Request_findById st rid = Some request →
           taskId request = id →
           assignedToUserId request = caller_id user →
           respondToAssignmentRequest st' rid user "approve" reason
           = (st', Fail TaskNotFound)
           ∧ (req_status request = ReqPending →
              mkInboxEntry request None (populateUser st (assignedByAdminId request))
              ∈ getUserAssignmentRequests st' user)).
Proof.
  split.
  - intros Hnone. unfold deleteTask. by rewrite Hnone.
  - intros task Hfound st'. subst st'. unfold deleteTask. rewrite Hfound.
    assert (Hid : _id task = id) by (by apply Task_findById_Some in Hfound as [? _]).
    rewrite Hid. cbn [fst snd].
    set (st' := mkStore _ _ _ _).
    assert (Hgone : Task_findById st' id = None).
    { unfold Task_findById, st'. simpl. rewrite findById_removed.
      by rewrite decide_True. }
    split; [done|]. split; [done|]. split.
    { intros id' Hne. unfold Task_findById, st'. simpl. rewrite findById_removed.
      by rewrite decide_False. }
    split; [done|].
    intros rid user reason request Hreq Htid Hresp. split.
    + apply (approve_task_missing st' rid user reason request); [done|done|].
      by rewrite Htid.
    + intros Hpending. unfold getUserAssignmentRequests.
      apply list_elem_of_fmap. exists request. split.
      * unfold populateTask. by rewrite Htid, Hgone.
      * apply list_elem_of_filter. split; [done|].
        by apply Request_findById_Some in Hreq as [_ ?].
Qed.

Lemma deleteTask_effect_witness :
  Task_findById Scenario.created 102 = Some (mkTask 102 "release" Low [] [] 0 Pending)
  ∧ Request_findById Scenario.created 103 = Some (mkRequest 103 102 9 1 ReqPending None)
  ∧ taskId (mkRequest 103 102 9 1 ReqPending None) = 102
  ∧ assignedToUserId (mkRequest 103 102 9 1 ReqPending None) = caller_id Scenario.ann
  ∧ respondToAssignmentRequest (fst (deleteTask Scenario.created 102)) 103
      Scenario.ann "approve" None
    = (fst (deleteTask Scenario.created 102), Fail TaskNotFound)
  ∧ Task_findById Scenario.created 555 = None
  ∧ deleteTask Scenario.created 555 = (Scenario.created, Fail TaskNotFound).
Proof.
  split; [reflexivity|]. split; [reflexivity|]. split; [reflexivity|].
  split; [reflexivity|].
  split.
  - exact (proj1 (proj2 (proj2 (proj2 (proj2
             (proj2 (deleteTask_effect Scenario.created 102)
                (mkTask 102 "release" Low [] [] 0 Pending) eq_refl))))
             103 Scenario.ann None (mkRequest 103 102 9 1 ReqPending None)
             eq_refl eq_refl eq_refl)).
  - split; [reflexivity|].
    exact (proj1 (deleteTask_effect Scenario.created 555) eq_refl).
Defined.

(** ** The candidate's list of Pending requests *)

Lemma inbox_requests st user :
  inbox_request <$> getUserAssignmentRequests st user
  = filter (λ r, assignedToUserId r = caller_id user ∧ req_status r = ReqPending)
           (requests st).
Proof.
  unfold getUserAssignmentRequests. rewrite <- list_fmap_compose.
  apply list_fmap_id.
Qed.

Lemma filter_save_answered (P : TaskAssignmentRequest → Prop)
    `{∀ r, Decision (P r)} reqs answer :
  ¬ P answer →
  filter P (save req_id reqs answer)
  = filter (λ r, req_id r ≠ req_id answer) (filter P reqs).
Proof.
  intros Hans. unfold save. induction reqs as [|r reqs IH]; [done|].
  rewrite fmap_cons, !filter_cons.
  destruct (bool_decide (req_id r = req_id answer)) eqn:E.
  - apply bool_decide_eq_true in E. rewrite decide_False by done. rewrite IH.
    destruct (decide (P r)); [|done].
    rewrite filter_cons. by rewrite decide_False by (intros Hne; by apply Hne).
  - apply bool_decide_eq_false in E. rewrite IH.
    destruct (decide (P r)); [|done].
    rewrite filter_cons. by rewrite decide_True.
Qed.

Lemma pending_requests st :
  pending_request <$> getAllAssignmentRequests st
  = filter (λ r, req_status r = ReqPending) (requests st).
Proof.
  unfold getAllAssignmentRequests. rewrite <- list_fmap_compose.
  apply list_fmap_id.
Qed.

(** X17. An answer that goes through, approve or reject, takes the answered
    request, and no other, out of every user's list of Pending requests and
    out of the admin's list of all Pending requests. *)
Theorem inbox_after_answer st rid user action reason st' answer viewer :
  respondToAssignmentRequest st rid user action reason = (st', Json answer) →
  inbox_request <$> getUserAssignmentRequests st' viewer
  = filter (λ r, req_id r ≠ rid)
           (inbox_request <$> getUserAssignmentRequests st viewer)
  ∧ pending_request <$> getAllAssignmentRequests st'
    = filter (λ r, req_id r ≠ rid)
             (pending_request <$> getAllAssignmentRequests st).
Proof.
  intros (request & Hfound & Hanswer & Hreqs)%respond_Json.
  assert (Hrid : req_id answer = rid).
  { apply Request_findById_Some in Hfound as [Hid _]. by destruct Hanswer as [->| ->]. }
  assert (Hst : req_status answer ≠ ReqPending) by (by destruct Hanswer as [->| ->]).
  rewrite !inbox_requests, !pending_requests, Hreqs, <- Hrid. split.
  - apply filter_save_answered. by intros [_ Hpending].
  - by apply filter_save_answered.
Qed.

Lemma inbox_after_answer_witness :
  respondToAssignmentRequest Scenario.created 103 Scenario.ann "reject"
    (Some "no time"%string)
  = (Scenario.ann_rejected,
     Json (mkRequest 103 102 9 1 ReqRejected (Some "no time"%string)))
  ∧ inbox_request <$> getUserAssignmentRequests Scenario.created Scenario.ann
    = [mkRequest 103 102 9 1 ReqPending None]
  ∧ inbox_request <$> getUserAssignmentRequests Scenario.ann_rejected Scenario.ann
    = [].
Proof.
  split; [reflexivity|]. split; [reflexivity|].
  rewrite (proj1 (inbox_after_answer Scenario.created 103 Scenario.ann "reject"
                    (Some "no time"%string) Scenario.ann_rejected _ Scenario.ann
                    eq_refl)).
  reflexivity.
Defined.

(** X18. A request that [createTaskAssignmentRequest] creates shows up, last,
    in the candidate's list of Pending requests and in nobody else's; a
    refused creation changes no list. *)
Theorem inbox_after_creation st tid uid user viewer :
  (∀ newRequest st',
     createTaskAssignmentRequest st tid uid user = (st', Json newRequest) →
     inbox_request <$> getUserAssignmentRequests st' viewer
     = (inbox_request <$> getUserAssignmentRequests st viewer)
       ++ (if decide (caller_id viewer = uid) then [newRequest] else []))
  ∧ (∀ f st',
       createTaskAssignmentRequest st tid uid user = (st', Fail f) →
       getUserAssignmentRequests st' viewer = getUserAssignmentRequests st viewer).
Proof.
  unfold createTaskAssignmentRequest.
  destruct (List.find _ (requests st)) as [r|]; split.
  - intros ? ? [=].
  - by intros ? ? [= <- _].
  - intros newRequest st' [= <- <-]. rewrite !inbox_requests. simpl.
    rewrite filter_app, filter_cons, filter_nil. simpl.
    destruct (decide (caller_id viewer = uid)) as [->|Hne].
    + by rewrite decide_True.
    + rewrite decide_False; [done|]. intros [Hu _]. by apply Hne.
  - intros ? ? [=].
Qed.

Lemma inbox_after_creation_witness :
  createTaskAssignmentRequest Scenario.created 102 3 Scenario.boss
  = (fst (createTaskAssignmentRequest Scenario.created 102 3 Scenario.boss),
     Json (mkRequest 105 102 9 3 ReqPending None))
  ∧ inbox_request
      <$> getUserAssignmentRequests
            (fst (createTaskAssignmentRequest Scenario.created 102 3 Scenario.boss))
            (mkCaller 3 member)
    = [mkRequest 105 102 9 3 ReqPending None].
Proof.
  split; [reflexivity|].
  exact (proj1 (inbox_after_creation Scenario.created 102 3 Scenario.boss
                  (mkCaller 3 member))
           (mkRequest 105 102 9 3 ReqPending None)
           (fst (createTaskAssignmentRequest Scenario.created 102 3 Scenario.boss))
           eq_refl).
Defined.

(** ** Dashboards *)

Lemma statusName_inj s1 s2 : statusName s1 = statusName s2 → s1 = s2.
Proof. destruct s1, s2; simpl; intros H; (done || discriminate H). Qed.

Lemma priorityName_inj p1 p2 : priorityName p1 = priorityName p2 → p1 = p2.
Proof. destruct p1, p2; simpl; intros H; (done || discriminate H). Qed.

Lemma find_group (c : string → nat) (ks : list string) name :
  List.find (λ item : string * nat, bool_decide (item.1 = name))
            ((λ v, (v, c v)) <$> ks)
  = if decide (name ∈ ks) then Some (name, c name) else None.
Proof.
  induction ks as [|k ks IH].
  - rewrite decide_False; [done|]. by intros ?%elem_of_nil.
  - rewrite fmap_cons. cbn [List.find fst]. case_bool_decide as Hk.
    + subst k. rewrite decide_True; [done|left].
    + rewrite IH. destruct (decide (name ∈ ks)) as [Hin|Hin].
      * rewrite decide_True; [done|by right].
      * rewrite decide_False; [done|].
        intros [->|?]%elem_of_cons; done.
Qed.

Lemma groupCount_count (field : Task → string) docs name :
  default 0 (snd <$> List.find (λ item, bool_decide (item.1 = name))
                               (groupCount field docs))
  = length (filter (λ t, field t = name) docs).
Proof.
  unfold groupCount. rewrite find_group.
  destruct (decide (name ∈ remove_dups (field <$> docs))) as [Hin|Hin]; [done|].
  simpl. symmetry. apply length_zero_iff_nil, filter_empty_iff.
  intros t Ht Hf. apply Hin, elem_of_remove_dups, list_elem_of_fmap. by exists t.
Qed.

Lemma count_by_status (docs : list Task) :
  length (filter (λ t, status t = Pending) docs)
  + length (filter (λ t, status t = InProgress) docs)
  + length (filter (λ t, status t = Completed) docs)
  + length (filter (λ t, status t = Rejected) docs)
  + length (filter (λ t, status t = PendingApproval) docs)
  = length docs.
Proof.
  induction docs as [|t docs IH]; [done|].
  rewrite !filter_cons. destruct (status t) eqn:E; simpl; lia.
Qed.

Lemma count_by_priority (docs : list Task) :
  length (filter (λ t, priority t = Low) docs)
  + length (filter (λ t, priority t = Medium) docs)
  + length (filter (λ t, priority t = High) docs)
  = length docs.
Proof.
  induction docs as [|t docs IH]; [done|].
  rewrite !filter_cons. destruct (priority t) eqn:E; simpl; lia.
Qed.

Lemma filter_statusName (docs : list Task) s :
  filter (λ t, statusName (status t) = statusName s) docs
  = filter (λ t, status t = s) docs.
Proof.
  apply list_filter_iff. intros t. split; [apply statusName_inj|by intros ->].
Qed.

Lemma filter_priorityName (docs : list Task) p :
  filter (λ t, priorityName (priority t) = priorityName p) docs
  = filter (λ t, priority t = p) docs.
Proof.
  apply list_filter_iff. intros t. split; [apply priorityName_inj|by intros ->].
Qed.

Lemma dashboard_status_chart_aux pastDue docs :
  let chart := chart_taskDistribution (dashboardOf pastDue docs) in
  chart !! "Pending"%string = Some (length (filter (λ t, status t = Pending) docs))
  ∧ chart !! "Completed"%string
    = Some (length (filter (λ t, status t = Completed) docs))
  ∧ chart !! "All"%string = Some (length docs).
Proof.
  intros chart. subst chart. unfold dashboardOf, countsByName.
  cbn [chart_taskDistribution foldl].
  rewrite !groupCount_count.
  change (filter (λ t, statusName (status t) = "Pending"%string) docs)
    with (filter (λ t, statusName (status t) = statusName Pending) docs).
  change (filter (λ t, statusName (status t) = "Completed"%string) docs)
    with (filter (λ t, statusName (status t) = statusName Completed) docs).
  rewrite !filter_statusName.
  change (removeWhitespace "Completed") with "Completed"%string.
  change (removeWhitespace "In Progress") with "InProgress"%string.
  change (removeWhitespace "Pending") with "Pending"%string.
  split; [by rewrite !lookup_insert_ne, lookup_insert_eq by done|].
  split; [by rewrite lookup_insert_ne, lookup_insert_eq by done|].
  by rewrite lookup_insert_eq.
Qed.

(** X19. The status chart of both dashboards has exactly the keys Pending,
    InProgress (the status name without its blank), Completed and All; the
    first three hold the number of tasks stored with that status and All
    holds the number of all tasks counted.  Tasks stored as Rejected or
    Pending Approval are in All and in no other entry, so the three status
    entries add up to All only when there is no such task. *)
Theorem dashboard_status_chart pastDue docs :
  let chart := chart_taskDistribution (dashboardOf pastDue docs) in
  let count s := length (filter (λ t, status t = s) docs) in
  chart !! "Pending"%string = Some (count Pending)
  ∧ chart !! "InProgress"%string = Some (count InProgress)
  ∧ chart !! "Completed"%string = Some (count Completed)
  ∧ chart !! "All"%string = Some (length docs)
  ∧ (∀ k, k ∉ ["Pending"; "InProgress"; "Completed"; "All"]%string → chart !! k = None)
  ∧ count Pending + count InProgress + count Completed
    + count Rejected + count PendingApproval = length docs.
Proof.
  intros chart count. subst chart. unfold dashboardOf, countsByName.
  cbn [chart_taskDistribution foldl].
  rewrite !groupCount_count.
  change (filter (λ t, statusName (status t) = "Pending"%string) docs)
    with (filter (λ t, statusName (status t) = statusName Pending) docs).
  change (filter (λ t, statusName (status t) = "In Progress"%string) docs)
    with (filter (λ t, statusName (status t) = statusName InProgress) docs).
  change (filter (λ t, statusName (status t) = "Completed"%string) docs)
    with (filter (λ t, statusName (status t) = statusName Completed) docs).
  rewrite !filter_statusName. fold (count Pending) (count InProgress) (count Completed).
  change (removeWhitespace "Completed") with "Completed"%string.
  change (removeWhitespace "In Progress") with "InProgress"%string.
  change (removeWhitespace "Pending") with "Pending"%string.
  split; [by rewrite !lookup_insert_ne, lookup_insert_eq by done|].
  split; [by rewrite !lookup_insert_ne, lookup_insert_eq by done|].
  split; [by rewrite lookup_insert_ne, lookup_insert_eq by done|].
  split; [by rewrite lookup_insert_eq|].
  split; [|apply count_by_status].
  intros k Hk. rewrite !lookup_insert_ne, lookup_empty; [done|..];
    intros <-; apply Hk; set_solver.
Qed.

(** X20. The priority chart of both dashboards has the keys Low, Medium and
    High with the number of tasks of that priority, and its three entries add
    up to the number of tasks counted. *)
Theorem dashboard_priority_chart pastDue docs :
  let d := dashboardOf pastDue docs in
  let count p := length (filter (λ t, priority t = p) docs) in
  chart_taskPriorityLevels d !! "Low"%string = Some (count Low)
  ∧ chart_taskPriorityLevels d !! "Medium"%string = Some (count Medium)
  ∧ chart_taskPriorityLevels d !! "High"%string = Some (count High)
  ∧ count Low + count Medium + count High = stat_totalTasks d.
Proof.
  intros d count. subst d. unfold dashboardOf, countsByName.
  cbn [chart_taskPriorityLevels stat_totalTasks foldl].
  rewrite !groupCount_count.
  change (filter (λ t, priorityName (priority t) = "Low"%string) docs)
    with (filter (λ t, priorityName (priority t) = priorityName Low) docs).
  change (filter (λ t, priorityName (priority t) = "Medium"%string) docs)
    with (filter (λ t, priorityName (priority t) = priorityName Medium) docs).
  change (filter (λ t, priorityName (priority t) = "High"%string) docs)
    with (filter (λ t, priorityName (priority t) = priorityName High) docs).
  rewrite !filter_priorityName. fold (count Low) (count Medium) (count High).
  split; [by rewrite !lookup_insert_ne, lookup_insert_eq by done|].
  split; [by rewrite lookup_insert_ne, lookup_insert_eq by done|].
  split; [by rewrite lookup_insert_eq|].
  apply count_by_priority.
Qed.

Lemma filter_split_length {A : Type} (P : A → Prop) `{∀ x, Decision (P x)}
    (l : list A) :
  length (filter P l) + length (filter (λ x, ¬ P x) l) = length l.
Proof.
  induction l as [|x l IH]; [done|].
  rewrite !filter_cons. destruct (decide (P x)) as [HP|HP].
  - rewrite decide_False by (intros Hn; by apply Hn). simpl. lia.
  - rewrite decide_True by done. simpl. lia.
Qed.

Lemma filter_length_mono {A : Type} (P Q : A → Prop)
    `{∀ x, Decision (P x)} `{∀ x, Decision (Q x)} (l : list A) :
  (∀ x, P x → Q x) → length (filter P l) ≤ length (filter Q l).
Proof.
  intros HPQ. induction l as [|x l IH]; [done|].
  rewrite !filter_cons. destruct (decide (P x)) as [HP|HP].
  - rewrite decide_True by (by apply HPQ). simpl. lia.
  - destruct (decide (Q x)); simpl; lia.
Qed.

(** X21. In the statistics of both dashboards the Pending and Completed
    counts are the numbers shown in the status chart, completed and overdue
    tasks are disjoint (an overdue task is never a Completed one), and
    neither pair exceeds the total. *)
Theorem dashboard_statistics pastDue docs :
  let d := dashboardOf pastDue docs in
  chart_taskDistribution d !! "Pending"%string = Some (stat_pendingTasks d)
  ∧ chart_taskDistribution d !! "Completed"%string = Some (stat_completedTasks d)
  ∧ chart_taskDistribution d !! "All"%string = Some (stat_totalTasks d)
  ∧ stat_completedTasks d + stat_overdueTasks d ≤ stat_totalTasks d
  ∧ stat_pendingTasks d + stat_completedTasks d ≤ stat_totalTasks d.
Proof.
  intros d. subst d.
  destruct (dashboard_status_chart_aux pastDue docs) as (HP & HC & HA).
  split; [exact HP|]. split; [exact HC|]. split; [exact HA|].
  unfold dashboardOf. cbn [stat_completedTasks stat_overdueTasks stat_totalTasks
                           stat_pendingTasks].
  split.
  - pose proof (filter_split_length (λ t, status t = Completed) docs).
    pose proof (filter_length_mono
                  (λ t, status t ≠ Completed ∧ pastDue (_id t) = true)
                  (λ t, status t ≠ Completed) docs ltac:(by intros ? [? _])).
    lia.
  - pose proof (count_by_status docs). lia.
Qed.

(** ** Tasks grouped by status *)

Lemma groupByStatus_snoc tasks t :
  groupByStatus (tasks ++ [t])
  = <[statusName (status t) :=
        default [] (groupByStatus tasks !! statusName (status t)) ++ [t]]>
      (groupByStatus tasks).
Proof. unfold groupByStatus. by rewrite foldl_snoc. Qed.

Lemma groupByStatus_lookup (tasks : list Task) s :
  groupByStatus tasks !! statusName s
  = if bool_decide (s ∈ [Pending; InProgress; Completed])
       || bool_decide (filter (λ t, status t = s) tasks ≠ [])
    then Some (filter (λ t, status t = s) tasks)
    else None.
Proof.
  induction tasks as [|t tasks IH] using rev_ind.
  - destruct s; reflexivity.
  - rewrite groupByStatus_snoc, filter_app, filter_cons, filter_nil.
    destruct (decide (status t = s)) as [->|Hne].
    + rewrite lookup_insert_eq, IH.
      rewrite (bool_decide_true (_ ++ [t] ≠ [])) by (by destruct (filter _ tasks)).
      rewrite orb_true_r. f_equal. f_equal.
      destruct (bool_decide (s ∈ [Pending; InProgress; Completed]));
        simpl; [done|].
      case_bool_decide as E; simpl; [done|].
      by rewrite E.
    + rewrite lookup_insert_ne by (intros E; by apply statusName_inj in E).
      by rewrite IH, app_nil_r.
Qed.

Lemma groupByStatus_keys (tasks : list Task) k :
  is_Some (groupByStatus tasks !! k) → ∃ s, k = statusName s.
Proof.
  induction tasks as [|t tasks IH] using rev_ind.
  - unfold groupByStatus. simpl. intros [l Hl].
    destruct (decide (k = "Completed"%string)) as [->|H1]; [by exists Completed|].
    destruct (decide (k = "In Progress"%string)) as [->|H2]; [by exists InProgress|].
    destruct (decide (k = "Pending"%string)) as [->|H3]; [by exists Pending|].
    by rewrite !lookup_insert_ne, lookup_empty in Hl.
  - rewrite groupByStatus_snoc.
    destruct (decide (statusName (status t) = k)) as [<-|Hne]; [by eexists|].
    by rewrite lookup_insert_ne.
Qed.

(** X22. [getUsersWithTasksGrouped] answers one entry per user, in store
    order.  In a user's entry every task whose assignedTo holds the user sits
    in the group named by its stored status and in no other, newest first;
    the groups Pending, In Progress and Completed are always there, possibly
    empty; a group Rejected or Pending Approval is there only when it has a
    task; and there is no group under any other name. *)
Theorem users_tasks_grouped st :
  fst <$> getUsersWithTasksGrouped st = users st
  ∧ ∀ user groups,
      (user, groups) ∈ getUsersWithTasksGrouped st →
      let mine := reverse (filter (λ t, user ∈ assignedTo t) (tasks st)) in
      (∀ s, groups !! statusName s
            = if bool_decide (s ∈ [Pending; InProgress; Completed])
                 || bool_decide (filter (λ t, status t = s) mine ≠ [])
              then Some (filter (λ t, status t = s) mine)
              else None)
      ∧ (∀ k, is_Some (groups !! k) → ∃ s, k = statusName s)
      ∧ (∀ t, t ∈ tasks st → user ∈ assignedTo t →
              ∃ group, groups !! statusName (status t) = Some group ∧ t ∈ group).
Proof.
  unfold getUsersWithTasksGrouped. split.
  - rewrite <- list_fmap_compose. apply list_fmap_id.
  - intros user groups Hentry.
    apply list_elem_of_fmap in Hentry as (u & Heq & _).
    injection Heq as -> ->. cbv zeta.
    set (mine := reverse (filter (λ t, u ∈ assignedTo t) (tasks st))).
    split; [apply groupByStatus_lookup|]. split; [apply groupByStatus_keys|].
    intros t Ht Hu. rewrite groupByStatus_lookup.
    assert (Hin : t ∈ filter (λ x, status x = status t) mine).
    { apply list_elem_of_filter. split; [done|].
      apply elem_of_reverse, list_elem_of_filter. done. }
    rewrite (bool_decide_true (_ ≠ [])).
    + rewrite orb_true_r. by eexists.
    + intros E. rewrite E in Hin. by apply elem_of_nil in Hin.
Qed.

Lemma users_tasks_grouped_witness :
  (2, groupByStatus (reverse (filter (λ t, 2 ∈ assignedTo t)
                                     (tasks Scenario.bob_approved))))
  ∈ getUsersWithTasksGrouped Scenario.bob_approved
  ∧ groupByStatus (reverse (filter (λ t, 2 ∈ assignedTo t)
                                   (tasks Scenario.bob_approved)))
      !! "Pending Approval"%string
    = Some [mkTask 102 "release" Low [2] [] 0 PendingApproval]
  ∧ groupByStatus (reverse (filter (λ t, 2 ∈ assignedTo t)
                                   (tasks Scenario.bob_approved)))
      !! "Rejected"%string
    = None.
Proof.
  assert (Hin : (2, groupByStatus (reverse (filter (λ t, 2 ∈ assignedTo t)
                                                   (tasks Scenario.bob_approved))))
                ∈ getUsersWithTasksGrouped Scenario.bob_approved).
  { unfold getUsersWithTasksGrouped. apply list_elem_of_fmap. exists 2.
    split; [reflexivity|]. right. left. }
  split; [exact Hin|].
  destruct (proj2 (users_tasks_grouped Scenario.bob_approved) 2 _ Hin)
    as (Hgroups & _ & _).
  split.
  - exact (Hgroups PendingApproval).
  - exact (Hgroups Rejected).
Defined.
